(** * secam: motion analysis and clip extraction

    A shallow embedding of the analysis-and-extraction pipeline of the
    repository (src/motion_detector.py and src/video_processor.py):
    the per-frame motion scorer [detect_motion], the analysis loop of
    [analyze_video_for_motion] with its open/closed segment bookkeeping,
    the range merger [_merge_ranges], the clip exporter [export_clip] and
    the two drivers [process_video] and [process_all_videos].

    Conventions of the embedding.
    - Python [int] is [Z].  Python [float] quantities (frame rate, seconds
      of padding, merge gap, areas, fractions) are exact rationals [Q];
      [int(x)] is truncation toward zero, [py_int].
    - An exception is a value of [exn]; a call that may raise returns a
      [result].  Mutable objects (the detector, a capture) are threaded
      explicitly.
    - OpenCV and NumPy primitives are the operations of the class [CV];
      the embedding is parametric in them.
    - A progress callback is a function that may raise.  The stop poll of
      the analysis is asked once per iteration and may change its answer
      between two polls: it is a function of the number of frames read
      when it is asked, [StopCheck]. *)

From Stdlib Require Import ZArith QArith Qround Lia Ascii Sorted.
From stdpp Require Import base option list gmap strings.

Open Scope Z_scope.

(** ** Exceptions and results *)

Inductive exn : Type :=
| ValueError (msg : string)
| ZeroDivisionError
| IndexError.

Inductive result (A : Type) : Type :=
| Ok (a : A)
| Raise (e : exn).
Arguments Ok {A} a.
Arguments Raise {A} e.

#[global] Instance result_ret : MRet result := @Ok.
#[global] Instance result_bind : MBind result := fun A B f m =>
  match m with
  | Ok a => f a
  | Raise e => Raise e
  end.

(** ** Numbers *)

(** [int(x)] on a float: truncation toward zero. *)
Definition py_int (q : Q) : Z := Z.quot (Qnum q) (Zpos (Qden q)).

(** ** Ranges of frame indices *)

Definition Range : Type := Z * Z.

Module Merger.

(** [sorted(l, key=key)]: Python's sort is stable, so its result is the
    unique stable arrangement of [l] by [key]; stable insertion computes
    it. *)
Fixpoint insert_by {A} (key : A -> Z) (x : A) (l : list A) : list A :=
  match l with
  | [] => [x]
  | y :: l' => if key x <=? key y then x :: y :: l' else y :: insert_by key x l'
  end.

Definition py_sorted {A} (key : A -> Z) (l : list A) : list A :=
  foldr (insert_by key) [] l.

(** One iteration of [for start, end in sorted_ranges[1:]]: reads
    [merged[-1]], then either overwrites it or appends. *)
Definition merge_step (gap_threshold_frames : Z) (merged : list Range)
    (r : Range) : result (list Range) :=
  let '(start, end_) := r in
  match last merged with
  | None => Raise IndexError
  | Some (last_start, last_end) =>
      if start - last_end <=? gap_threshold_frames
      then Ok (<[Nat.pred (length merged) := (last_start, Z.max last_end end_)]> merged)
      else Ok (merged ++ [(start, end_)])
  end.

Fixpoint merge_loop (gap_threshold_frames : Z) (merged : list Range)
    (rest : list Range) : result (list Range) :=
  match rest with
  | [] => Ok merged
  | r :: rest' =>
      merged' ← merge_step gap_threshold_frames merged r;
      merge_loop gap_threshold_frames merged' rest'
  end.

Definition gap_frames (fps gap_threshold_seconds : Q) : Z :=
  py_int (gap_threshold_seconds * fps).

(** [MotionDetector._merge_ranges]. *)
Definition _merge_ranges (ranges : list Range) (fps gap_threshold_seconds : Q)
    : result (list Range) :=
  match ranges with
  | [] => Ok []
  | _ :: _ =>
      let gap_threshold_frames := gap_frames fps gap_threshold_seconds in
      let sorted_ranges := py_sorted fst ranges in
      match sorted_ranges with
      | [] => Raise IndexError
      | first :: tail => merge_loop gap_threshold_frames [first] tail
      end
  end.

(** The sweep as a function of the segment being grown and the segments
    still to come; [merge_loop_sweep] relates it to the loop above. *)
Fixpoint sweep (gap : Z) (cur : Range) (rest : list Range) : list Range :=
  match rest with
  | [] => [cur]
  | (start, end_) :: rest' =>
      if start - cur.2 <=? gap
      then sweep gap (cur.1, Z.max cur.2 end_) rest'
      else cur :: sweep gap (start, end_) rest'
  end.

End Merger.

(** ** OpenCV and NumPy *)

Definition Color : Type := Z * Z * Z.
Definition green : Color := (0, 255, 0).
Definition red : Color := (0, 0, 255).
Definition yellow : Color := (0, 255, 255).

(** The image primitives the pipeline calls.  [Frame] is a decoded BGR
    frame, [Gray] a single-channel image, [Canvas] a frame being drawn
    on (the visualization). *)
Class CV : Type := {
  Frame : Type;
  Gray : Type;
  Contour : Type;
  Canvas : Type;
  (** [cv2.cvtColor(frame, cv2.COLOR_BGR2GRAY)] *)
  cvtColor : Frame -> Gray;
  (** [cv2.GaussianBlur(gray, (21, 21), 0)] *)
  GaussianBlur : Gray -> Gray;
  (** [img.shape[:2]], as (rows, columns) *)
  shape : Gray -> Z * Z;
  (** [img[y1:y2, x1:x2]] *)
  slice : Gray -> Z -> Z -> Z -> Z -> Gray;
  absdiff : Gray -> Gray -> Gray;
  (** [cv2.threshold(img, t, 255, cv2.THRESH_BINARY)[1]] *)
  threshold_binary : Gray -> Z -> Gray;
  (** [cv2.dilate(img, None, iterations=n)] *)
  dilate : Gray -> Z -> Gray;
  (** [cv2.findContours(img, RETR_EXTERNAL, CHAIN_APPROX_SIMPLE)[0]] *)
  findContours : Gray -> list Contour;
  contourArea : Contour -> Q;
  (** [np.sum(img > 0)] *)
  count_positive : Gray -> Z;
  (** [frame.copy()] *)
  copy : Frame -> Canvas;
  rectangle : Canvas -> Z * Z -> Z * Z -> Color -> Canvas;
  (** [cv2.drawContours(canvas, [contour + offset], -1, color, 2)] *)
  drawContours : Canvas -> Contour -> Z * Z -> Color -> Canvas;
  (** [cv2.putText] of the status line with the percentage *)
  putText : Canvas -> string -> Q -> Color -> Canvas;
}.

(** ** Motion scorer *)

Definition Roi : Type := Z * Z * Z * Z.

(** Lines 69-72 of [detect_motion]: swap each pair that is out of order. *)
Definition normalize_roi (roi : Roi) : Roi :=
  let '(x1, y1, x2, y2) := roi in
  let '(x1, x2) := if x1 >? x2 then (x2, x1) else (x1, x2) in
  let '(y1, y2) := if y1 >? y2 then (y2, y1) else (y1, y2) in
  (x1, y1, x2, y2).

(** Lines 74-76: clamp to a frame of [h] rows and [w] columns. *)
Definition clamp_roi (hw : Z * Z) (roi : Roi) : Roi :=
  let '(h, w) := hw in
  let '(x1, y1, x2, y2) := roi in
  (Z.max 0 x1, Z.max 0 y1, Z.min w x2, Z.min h y2).

(** Line 78: the test for a region without pixels. *)
Definition degenerate (roi : Roi) : bool :=
  let '(x1, y1, x2, y2) := roi in
  (x2 <=? x1) || (y2 <=? y1).

Section Scorer.
Context `{cv : CV}.

(** The fields of [MotionDetector] the scoring path reads or writes.  The
    MOG2 background subtractor the constructor and [reset] allocate is
    never consulted and is left out. *)
Record MotionDetector : Type := {
  threshold : Z;
  min_contour_area : Z;
  sensitivity : Q;
  previous_frame : option Gray;
}.

Definition set_previous_frame (self : MotionDetector) (p : option Gray)
    : MotionDetector :=
  {| threshold := threshold self;
     min_contour_area := min_contour_area self;
     sensitivity := sensitivity self;
     previous_frame := p |}.

(** [MotionDetector.reset] *)
Definition reset (self : MotionDetector) : MotionDetector :=
  set_previous_frame self None.

(** What [detect_motion] returns: (motion_detected, motion_percentage,
    visualization). *)
Definition Sample : Type := bool * Q * Canvas.

Definition detected (s : Sample) : bool := s.1.1.

(** The region the scorer works on: the crop, and the box to draw when a
    rectangle was given.  [None] is the early return of line 80. *)
Definition region_of (gray : Gray) (roi : option Roi)
    : option (Gray * option Roi) :=
  match roi with
  | Some r =>
      let '(x1, y1, x2, y2) := clamp_roi (shape gray) (normalize_roi r) in
      if degenerate (x1, y1, x2, y2) then None
      else Some (slice gray y1 y2 x1 x2, Some (x1, y1, x2, y2))
  | None => Some (gray, None)
  end.

Definition draw_box (canvas : Canvas) (box : option Roi) (color : Color)
    : Canvas :=
  match box with
  | Some (x1, y1, x2, y2) => rectangle canvas (x1, y1) (x2, y2) color
  | None => canvas
  end.

(** Lines 88-92 and 96-100: take the crop as the reference, report no
    motion. *)
Definition seed (self : MotionDetector) (frame : Frame) (roi_gray : Gray)
    (box : option Roi) : MotionDetector * Sample :=
  (set_previous_frame self (Some roi_gray),
   (false, 0%Q, draw_box (copy frame) box green)).

Definition counts (self : MotionDetector) (contour : Contour) : bool :=
  Qle_bool (inject_Z (min_contour_area self)) (contourArea contour).

(** Lines 102-164: compare the crop with the reference. *)
Definition compare_frames (self : MotionDetector) (frame : Frame)
    (prev roi_gray : Gray) (box : option Roi) : MotionDetector * Sample :=
  let frame_delta := absdiff prev roi_gray in
  let thresh := threshold_binary frame_delta (threshold self) in
  let thresh := dilate thresh 2 in
  let contours := findContours thresh in
  let motion_pixels := count_positive thresh in
  let total_pixels := (shape thresh).1 * (shape thresh).2 in
  let motion_percentage :=
    if total_pixels >? 0
    then (inject_Z motion_pixels / inject_Z total_pixels)%Q else 0%Q in
  let significant_motion := existsb (counts self) contours in
  let motion_detected :=
    significant_motion && Qle_bool (sensitivity self) motion_percentage in
  let visualization := copy frame in
  let visualization :=
    match box with
    | Some (x1, y1, x2, y2) =>
        let color := if motion_detected then red else green in
        let visualization := rectangle visualization (x1, y1) (x2, y2) color in
        foldl (fun vis contour =>
                 if counts self contour
                 then drawContours vis contour (x1, y1) yellow else vis)
              visualization contours
    | None => visualization
    end in
  let status := if motion_detected then "MOTION DETECTED" else "No Motion" in
  let visualization :=
    putText visualization status motion_percentage
            (if motion_detected then red else green) in
  (set_previous_frame self (Some roi_gray),
   (motion_detected, motion_percentage, visualization)).

(** Lines 62-63: the blurred grey image the scorer works on. *)
Definition gray_of (frame : Frame) : Gray := GaussianBlur (cvtColor frame).

(** The rectangle after normalization and clamping to [frame], whether it
    is degenerate there, and the crop it selects. *)
Definition clamped (frame : Frame) (roi : Roi) : Roi :=
  clamp_roi (shape (gray_of frame)) (normalize_roi roi).

Definition degenerate_on (frame : Frame) (roi : Roi) : bool :=
  degenerate (clamped frame roi).

Definition crop_of (frame : Frame) (roi : Roi) : Gray :=
  let '(x1, y1, x2, y2) := clamped frame roi in
  slice (gray_of frame) y1 y2 x1 x2.

(** [MotionDetector.detect_motion] *)
Definition detect_motion (self : MotionDetector) (frame : Frame)
    (roi : option Roi) : MotionDetector * Sample :=
  let gray := gray_of frame in
  match region_of gray roi with
  | None => (set_previous_frame self None, (false, 0%Q, copy frame))
  | Some (roi_gray, box) =>
      match previous_frame self with
      | None => seed self frame roi_gray box
      | Some prev =>
          if decide (shape prev = shape roi_gray)
          then compare_frames self frame prev roi_gray box
          else seed self frame roi_gray box
      end
  end.

End Scorer.

(** ** Videos on disk *)

Section Pipeline.
Context `{cv : CV}.

(** A video file as [cv2.VideoCapture] presents it: the properties the
    container reports, and the frames that successive [read()] calls
    deliver before the first one that fails. *)
Record Video : Type := {
  width : Z;
  height : Z;
  fps : Q;
  frame_count : Z;
  frames : list Frame;
}.

(** The openable videos, by path; a path outside the map is one for
    which [cap.isOpened()] is false.  [clip_name] stands for lines
    137-141 of [export_clip] (base name, window in seconds, timestamp)
    and [path_join] for [os.path.join]. *)
Record Disk : Type := {
  videos : gmap string Video;
  clip_name : string -> Q -> Q -> string;
  path_join : string -> string -> string;
  basename : string -> string;
  (** [get_video_files]: listing, extension filter and sort of a folder *)
  video_files_in : string -> list string;
}.

(** An open capture: the frames still to be read. *)
Definition Capture : Type := list Frame.

Definition cap_read (cap : Capture) : option Frame * Capture :=
  match cap with
  | [] => (None, [])
  | frame :: cap' => (Some frame, cap')
  end.

(** [cap.set(cv2.CAP_PROP_POS_FRAMES, n)] on a freshly opened video. *)
Definition cap_seek (video : Video) (n : Z) : Capture :=
  drop (Z.to_nat n) (frames video).

(** Frames a reader positioned at [n] can still obtain. *)
Definition frames_available (video : Video) (n : Z) : Z :=
  Z.of_nat (length (cap_seek video n)).

(** [a % b] on Python integers. *)
Definition py_mod (a b : Z) : result Z :=
  if b =? 0 then Raise ZeroDivisionError else Ok (a mod b).

(** A progress callback receives two integers; evaluating its arguments
    or its body may raise. *)
Definition Progress : Type := Z -> Z -> result unit.

Definition call (progress_callback : option Progress) (a b : Z)
    : result unit :=
  match progress_callback with
  | Some f => f a b
  | None => Ok tt
  end.

(** [stop_check] is a callable without arguments that the loop polls once
    per iteration, before it reads a frame; what it answers may change
    between two polls (the GUI passes [is_stop_requested], whose flag
    another thread sets).  The answers of a run are therefore given by the
    number of frames read when the poll is made. *)
Definition StopCheck : Type := Z -> bool.

(** [stop_check and stop_check()], polled when [k] frames have been read. *)
Definition polled (stop_check : option StopCheck) (k : Z) : bool :=
  match stop_check with
  | Some f => f k
  | None => false
  end.

(** ** Analysis loop *)

(** The local variables of [analyze_video_for_motion] with the detector
    they act on. *)
Record Analysis : Type := {
  detector : MotionDetector;
  motion_ranges : list Range;
  current_motion_start : option Z;
  frame_index : Z;
}.

(** Lines 213-221: score one sampled frame and update the open range. *)
Definition score_frame (roi : Roi) (frame : Frame) (st : Analysis)
    : Analysis :=
  let '(self, sample) := detect_motion (detector st) frame (Some roi) in
  let frame_count := frame_index st in
  if detected sample then
    {| detector := self;
       motion_ranges := motion_ranges st;
       current_motion_start :=
         match current_motion_start st with
         | None => Some frame_count
         | Some s => Some s
         end;
       frame_index := frame_count |}
  else
    match current_motion_start st with
    | Some s =>
        {| detector := self;
           motion_ranges := motion_ranges st ++ [(s, frame_count - 1)];
           current_motion_start := None;
           frame_index := frame_count |}
    | None =>
        {| detector := self;
           motion_ranges := motion_ranges st;
           current_motion_start := None;
           frame_index := frame_count |}
    end.

Definition advance (st : Analysis) : Analysis :=
  {| detector := detector st;
     motion_ranges := motion_ranges st;
     current_motion_start := current_motion_start st;
     frame_index := frame_index st + 1 |}.

(** The [while True] loop of lines 202-226.  [cap] holds the frames not
    yet read, so the loop ends when it is exhausted, or when the poll of
    line 204 answers true.  The state reached is returned together with
    the exception, if one ended the loop. *)
Fixpoint analysis_loop (stop_check : option StopCheck) (roi : Roi)
    (frame_skip : Z)
    (total_frames : Z) (progress_callback : option Progress)
    (cap : Capture) (st : Analysis) : Analysis * result unit :=
  if polled stop_check (frame_index st) then (st, Ok tt) else
  match cap with
  | [] => (st, Ok tt)
  | frame :: cap' =>
      match py_mod (frame_index st) frame_skip with
      | Raise e => (st, Raise e)
      | Ok m =>
          let st := if m =? 0 then score_frame roi frame st else st in
          let st := advance st in
          match call progress_callback (frame_index st) total_frames with
          | Raise e => (st, Raise e)
          | Ok _ =>
              analysis_loop stop_check roi frame_skip total_frames
                            progress_callback cap' st
          end
      end
  end.

(** Lines 229-230: close the range still open when the loop ends. *)
Definition close_open_range (st : Analysis) : list Range :=
  match current_motion_start st with
  | Some s => motion_ranges st ++ [(s, frame_index st - 1)]
  | None => motion_ranges st
  end.

Definition start_analysis (self : MotionDetector) : Analysis :=
  {| detector := self;
     motion_ranges := [];
     current_motion_start := None;
     frame_index := 0 |}.

(** The ranges of lines 198-230, before merging. *)
Definition tracked_ranges (self : MotionDetector) (video : Video) (roi : Roi)
    (frame_skip : Z) (progress_callback : option Progress)
    (stop_check : option StopCheck)
    : MotionDetector * result (list Range) :=
  let '(st, r) :=
    analysis_loop stop_check roi frame_skip (frame_count video)
                  progress_callback (frames video)
                  (start_analysis (reset self)) in
  (detector st, _ ← r; Ok (close_open_range st)).

(** [MotionDetector.analyze_video_for_motion] *)
Definition analyze_video_for_motion (disk : Disk) (self : MotionDetector)
    (video_path : string) (roi : Roi) (frame_skip : Z)
    (merge_gap_seconds : Q) (progress_callback : option Progress)
    (stop_check : option StopCheck)
    : MotionDetector * result (list Range) :=
  match videos disk !! video_path with
  | None => (reset self, Raise (ValueError "Could not open video"))
  | Some video =>
      let '(self, r) :=
        tracked_ranges self video roi frame_skip progress_callback
                       stop_check in
      (self,
       motion_ranges ← r;
       Merger._merge_ranges motion_ranges (fps video) merge_gap_seconds)
  end.

(** ** Clip exporter *)

Record VideoProcessor : Type := {
  input_folder : string;
  output_folder : string;
  padding_before : Q;
  padding_after : Q;
  merge_gap : Q;
  motion_detector : MotionDetector;
  _stop_requested : bool;
}.

Definition set_motion_detector (self : VideoProcessor) (d : MotionDetector)
    : VideoProcessor :=
  {| input_folder := input_folder self;
     output_folder := output_folder self;
     padding_before := padding_before self;
     padding_after := padding_after self;
     merge_gap := merge_gap self;
     motion_detector := d;
     _stop_requested := _stop_requested self |}.

(** [VideoProcessor.is_stop_requested], the poll [process_video] hands to
    the analysis: it reads the flag of the processor, which nothing
    [process_video] calls sets. *)
Definition is_stop_requested (self : VideoProcessor) : StopCheck :=
  fun _ => _stop_requested self.

(** Lines 129-133 of [export_clip]. *)
Definition padding_frames_before (self : VideoProcessor) (video : Video) : Z :=
  py_int (padding_before self * fps video).

Definition padding_frames_after (self : VideoProcessor) (video : Video) : Z :=
  py_int (padding_after self * fps video).

Definition actual_start (self : VideoProcessor) (video : Video)
    (start_frame : Z) : Z :=
  Z.max 0 (start_frame - padding_frames_before self video).

Definition actual_end (self : VideoProcessor) (video : Video)
    (end_frame : Z) : Z :=
  Z.min (frame_count video - 1) (end_frame + padding_frames_after self video).

(** The [while frames_written < frames_to_write] loop of lines 156-165.
    [written] is what the writer has received, so [frames_written] is its
    length; [remaining] is [frames_to_write - frames_written], which the
    loop condition compares with zero. *)
Fixpoint write_frames (progress_callback : option Progress)
    (frames_to_write : Z) (remaining : nat) (cap : Capture)
    (written : list Frame) : result (list Frame) :=
  match remaining with
  | O => Ok written
  | S remaining' =>
      match cap_read cap with
      | (None, _) => Ok written
      | (Some frame, cap') =>
          let written := written ++ [frame] in
          _ ← call progress_callback (Z.of_nat (length written)) frames_to_write;
          write_frames progress_callback frames_to_write remaining' cap' written
      end
  end.

(** [VideoProcessor.export_clip]: the output path and the frames written
    to it. *)
Definition export_clip (disk : Disk) (self : VideoProcessor)
    (video_path : string) (start_frame end_frame : Z)
    (output_name : option string) (progress_callback : option Progress)
    : result (string * list Frame) :=
  match videos disk !! video_path with
  | None => Raise (ValueError "Could not open video")
  | Some video =>
      let actual_start := actual_start self video start_frame in
      let actual_end := actual_end self video end_frame in
      output_name ←
        match output_name with
        | Some name => Ok name
        | None =>
            if Qeq_bool (fps video) 0 then Raise ZeroDivisionError
            else Ok (clip_name disk video_path
                       (inject_Z actual_start / fps video)
                       (inject_Z actual_end / fps video))
        end;
      let output_path := path_join disk (output_folder self) output_name in
      let cap := cap_seek video actual_start in
      let frames_to_write := actual_end - actual_start + 1 in
      written ←
        write_frames progress_callback frames_to_write
                     (Z.to_nat frames_to_write) cap [];
      Ok (output_path, written)
  end.

(** ** Drivers *)

(** [config.FRAME_SKIP], the default [process_video] leaves in place. *)
Definition FRAME_SKIP : Z := 2.

(** The status texts handed to progress callbacks. *)
Inductive Status : Type :=
| Analyzing
| AnalyzingFrame (current total : Z)
| NoMotion
| ExportingClip (i total_clips : Z)
| Exported (n : Z)
| ProcessingVideo (i total_videos : Z).

Definition StatusProgress : Type := Status -> Z -> Z -> result unit.
Definition BatchProgress : Type := Status -> Z -> Z -> string -> result unit.

Definition notify (progress_callback : option StatusProgress) (s : Status)
    (a b : Z) : result unit :=
  match progress_callback with
  | Some f => f s a b
  | None => Ok tt
  end.

(** [int(a / b)] with true division. *)
Definition py_int_div (a b : Z) : result Z :=
  if b =? 0 then Raise ZeroDivisionError
  else Ok (py_int (inject_Z a / inject_Z b)).

(** The closure [analysis_progress] of [process_video]. *)
Definition analysis_progress (progress_callback : option StatusProgress)
    : Progress :=
  fun current total =>
    match progress_callback with
    | Some f =>
        half ← py_int_div (current * 50) total;
        f (AnalyzingFrame current total) half 100
    | None => Ok tt
    end.

(** Lines 228-246: the export loop and what follows it. *)
Fixpoint export_clips (disk : Disk) (self : VideoProcessor)
    (video_path : string) (progress_callback : option StatusProgress)
    (total_clips : Z) (i : Z) (pending : list Range)
    (exported_clips : list string) : result (list string) :=
  match pending with
  | [] =>
      _ ← notify progress_callback
                 (Exported (Z.of_nat (length exported_clips))) 100 100;
      Ok exported_clips
  | (start_frame, end_frame) :: pending' =>
      if _stop_requested self then Ok exported_clips else
      _ ← match progress_callback with
          | Some f =>
              share ← py_int_div ((i + 1) * 50) total_clips;
              f (ExportingClip (i + 1) total_clips) (50 + share) 100
          | None => Ok tt
          end;
      '(clip_path, _) ←
        export_clip disk self video_path start_frame end_frame None None;
      export_clips disk self video_path progress_callback total_clips
                   (i + 1) pending' (exported_clips ++ [clip_path])
  end.

(** [VideoProcessor.process_video] *)
Definition process_video (disk : Disk) (self : VideoProcessor)
    (video_path : string) (roi : Roi)
    (progress_callback : option StatusProgress)
    : VideoProcessor * result (list string) :=
  if _stop_requested self then (self, Ok []) else
  match notify progress_callback Analyzing 0 100 with
  | Raise e => (self, Raise e)
  | Ok _ =>
      let '(d, r) :=
        analyze_video_for_motion disk (motion_detector self) video_path roi
          FRAME_SKIP (merge_gap self)
          (Some (analysis_progress progress_callback))
          (Some (is_stop_requested self)) in
      let self := set_motion_detector self d in
      (self,
       motion_ranges ← r;
       if _stop_requested self then Ok [] else
       match motion_ranges with
       | [] => _ ← notify progress_callback NoMotion 100 100; Ok []
       | _ :: _ =>
           export_clips disk self video_path progress_callback
                        (Z.of_nat (length motion_ranges)) 0 motion_ranges []
       end)
  end.

Definition notify_batch (progress_callback : option BatchProgress)
    (s : Status) (a b : Z) (video_name : string) : result unit :=
  match progress_callback with
  | Some f => f s a b video_name
  | None => Ok tt
  end.

(** What the [try] of [process_all_videos] stores for a video. *)
Definition recorded (r : result (list string)) : list string :=
  match r with
  | Ok clips => clips
  | Raise _ => []
  end.

(** The closure [video_progress] of [process_all_videos]. *)
Definition video_progress (progress_callback : option BatchProgress)
    (i total_videos : Z) (video_name : string) : StatusProgress :=
  fun status current total =>
    notify_batch progress_callback status i total_videos video_name.

(** The [for i, video_path in enumerate(video_files)] loop of lines
    271-296. *)
Fixpoint batch_loop (disk : Disk) (self : VideoProcessor) (roi : Roi)
    (progress_callback : option BatchProgress) (total_videos : Z) (i : Z)
    (pending : list string) (results : gmap string (list string))
    : VideoProcessor * result (gmap string (list string)) :=
  match pending with
  | [] => (self, Ok results)
  | video_path :: pending' =>
      if _stop_requested self then (self, Ok results) else
      let video_name := basename disk video_path in
      match notify_batch progress_callback
              (ProcessingVideo (i + 1) total_videos) i total_videos
              video_name with
      | Raise e => (self, Raise e)
      | Ok _ =>
          let '(self, r) :=
            process_video disk self video_path roi
              (Some (video_progress progress_callback i total_videos
                                    video_name)) in
          batch_loop disk self roi progress_callback total_videos (i + 1)
                     pending' (<[video_path := recorded r]> results)
      end
  end.

(** [VideoProcessor.process_all_videos] *)
Definition process_all_videos (disk : Disk) (self : VideoProcessor)
    (roi : Roi) (progress_callback : option BatchProgress)
    : VideoProcessor * result (gmap string (list string)) :=
  let video_files := video_files_in disk (input_folder self) in
  match video_files with
  | [] => (self, Ok ∅)
  | _ :: _ =>
      batch_loop disk self roi progress_callback
                 (Z.of_nat (length video_files)) 0 video_files ∅
  end.

End Pipeline.

(** ** Properties of segment lists *)

Definition sorted_by_start (l : list Range) : Prop :=
  forall (i j : nat) (a b : Range),
    (i < j)%nat -> l !! i = Some a -> l !! j = Some b -> a.1 <= b.1.

(** No frame index lies in both ranges. *)
Definition disjoint (a b : Range) : Prop :=
  forall f : Z, ~ ((a.1 <= f <= a.2) /\ (b.1 <= f <= b.2)).

Definition pairwise_disjoint (l : list Range) : Prop :=
  forall (i j : nat) (a b : Range),
    i <> j -> l !! i = Some a -> l !! j = Some b -> disjoint a b.

Definition gap_separated (gap : Z) (l : list Range) : Prop :=
  forall (i : nat) (prev next : Range),
    l !! i = Some prev -> l !! S i = Some next -> next.1 - prev.2 > gap.

Definition contains (outer inner : Range) : Prop :=
  outer.1 <= inner.1 /\ inner.2 <= outer.2.

(** The same, by recursion on the list. *)
Fixpoint ascending (l : list Range) : Prop :=
  match l with
  | [] => True
  | a :: l' => Forall (fun b => a.1 <= b.1) l' /\ ascending l'
  end.

Fixpoint gapped (gap : Z) (l : list Range) : Prop :=
  match l with
  | a :: (b :: _) as l' => b.1 - a.2 > gap /\ gapped gap l'
  | _ => True
  end.

(** ** Uniform images

    An instance of [CV] on images whose pixels all have one intensity,
    where the primitives have closed forms: grey conversion and blur keep
    the intensity, a difference is uniform, a mask is all set or all
    clear, and an all-set mask has one external contour, its border. *)
Module Uniform.

Record Image : Type := { rows : Z; cols : Z; value : Z }.

Inductive Draw : Type :=
| DrawRectangle (p q : Z * Z) (c : Color)
| DrawContour (contour : Z * Z) (offset : Z * Z) (c : Color)
| DrawText (status : string) (pct : Q) (c : Color).

Definition crop (g : Image) (y1 y2 x1 x2 : Z) : Image :=
  {| rows := Z.max 0 (Z.min y2 (rows g) - Z.min y1 (rows g));
     cols := Z.max 0 (Z.min x2 (cols g) - Z.min x1 (cols g));
     value := value g |}.

Definition difference (a b : Image) : Image :=
  {| rows := rows a; cols := cols a; value := Z.abs (value a - value b) |}.

Definition binarize (g : Image) (t : Z) : Image :=
  {| rows := rows g; cols := cols g;
     value := if value g >? t then 255 else 0 |}.

Definition contours_of (g : Image) : list (Z * Z) :=
  if (value g >? 0) && (rows g >? 0) && (cols g >? 0)
  then [(rows g, cols g)] else [].

Definition area_of (c : Z * Z) : Q := inject_Z ((c.1 - 1) * (c.2 - 1)).

Definition positives (g : Image) : Z :=
  if value g >? 0 then rows g * cols g else 0.

#[global] Instance cv : CV := {|
  Frame := Image;
  Gray := Image;
  Contour := Z * Z;
  Canvas := Image * list Draw;
  cvtColor := fun f => f;
  GaussianBlur := fun g => g;
  shape := fun g => (rows g, cols g);
  slice := crop;
  absdiff := difference;
  threshold_binary := binarize;
  dilate := fun g _ => g;
  findContours := contours_of;
  contourArea := area_of;
  count_positive := positives;
  copy := fun f => (f, []);
  rectangle := fun cv p q c => (cv.1, cv.2 ++ [DrawRectangle p q c]);
  drawContours := fun cv k o c => (cv.1, cv.2 ++ [DrawContour k o c]);
  putText := fun cv s p c => (cv.1, cv.2 ++ [DrawText s p c]);
|}.

Definition image (v : Z) : Image := {| rows := 100; cols := 100; value := v |}.

Definition new_detector : MotionDetector :=
  {| threshold := 25; min_contour_area := 500; sensitivity := 1 # 100;
     previous_frame := None |}.

Definition video_of (fps : Q) (frame_count : Z) (frames : list Image) : Video :=
  {| width := 100; height := 100; fps := fps; frame_count := frame_count;
     frames := frames |}.

(** A disk holding the videos [vs], whose input folder lists [listing]. *)
Definition disk_with (listing : list string) (vs : list (string * Video))
    : Disk :=
  {| videos := list_to_map vs;
     clip_name := fun path _ _ => path +:+ "_motion.mp4";
     path_join := fun a b => a +:+ "/" +:+ b;
     basename := fun p => p;
     video_files_in := fun _ => listing |}.

Definition disk_of (vs : list (string * Video)) : Disk :=
  disk_with vs.*1 vs.

Definition new_processor : VideoProcessor :=
  {| input_folder := "input_videos"; output_folder := "output_clips";
     padding_before := 2; padding_after := 2; merge_gap := 10;
     motion_detector := new_detector; _stop_requested := false |}.

End Uniform.

(** ** Properties of tracked segments *)

(** [i] is an index the analysis loop passes to the scorer. *)
Definition sampled (frame_skip i : Z) : Prop := i mod frame_skip = 0.

(** [i] is the index of a frame that was read and passed to the scorer,
    in a run that has read [n] frames. *)
Definition scored (frame_skip n i : Z) : Prop :=
  0 <= i < n /\ sampled frame_skip i.

(** A poll that answers true once [n] frames have been read. *)
Definition stop_after (n : Z) : option StopCheck := Some (fun k => n <=? k).

Section Tracking.
Context `{cv : CV}.

(** What holds of the analysis state between iterations: an open range
    started on a sampled frame already read, not the first one; the closed
    ranges start likewise and end just before a sampled frame. *)
Definition closed_by_sample (frame_skip n : Z) (r : Range) : Prop :=
  sampled frame_skip r.1 /\ frame_skip <= r.1 /\ r.1 <= r.2 /\
  sampled frame_skip (r.2 + 1) /\ r.2 + 1 < n.

Definition tracking_invariant (frame_skip : Z) (st : Analysis) : Prop :=
  0 <= frame_index st /\
  (frame_index st = 0 ->
   previous_frame (detector st) = None /\ current_motion_start st = None) /\
  (forall s, current_motion_start st = Some s ->
     sampled frame_skip s /\ frame_skip <= s /\ s < frame_index st) /\
  Forall (closed_by_sample frame_skip (frame_index st)) (motion_ranges st).

(** No range is open and none has been closed. *)
Definition idle (st : Analysis) : Prop :=
  current_motion_start st = None /\ motion_ranges st = [].

(** The state in which the analysis loop ends. *)
Definition final_state (self : MotionDetector) (video : Video) (roi : Roi)
    (frame_skip : Z) (progress_callback : option Progress)
    (stop_check : option StopCheck) : Analysis :=
  (analysis_loop stop_check roi frame_skip (frame_count video)
                 progress_callback (frames video)
                 (start_analysis (reset self))).1.

(** The value of [frame_count] when the loop ends: the number of frames
    the analysis has read and counted. *)
Definition frames_read (self : MotionDetector) (video : Video) (roi : Roi)
    (frame_skip : Z) (progress_callback : option Progress)
    (stop_check : option StopCheck) : Z :=
  frame_index
    (final_state self video roi frame_skip progress_callback stop_check).

End Tracking.

(** ** Properties of a batch *)

Section Batch.
Context `{cv : CV}.

(** A processor with the reference of its detector dropped: what is left
    is its configuration. *)
Definition forget (self : VideoProcessor) : VideoProcessor :=
  set_motion_detector self (reset (motion_detector self)).

(** The dictionary the batch loop builds when every video is processed by
    one and the same processor [self]; [batch_loop_record] relates it to
    the loop. *)
Fixpoint batch_record (disk : Disk) (self : VideoProcessor) (roi : Roi)
    (progress_callback : option BatchProgress) (total_videos : Z) (i : Z)
    (pending : list string) (results : gmap string (list string))
    : gmap string (list string) :=
  match pending with
  | [] => results
  | video_path :: pending' =>
      let r :=
        (process_video disk self video_path roi
           (Some (video_progress progress_callback i total_videos
                                 (basename disk video_path)))).2 in
      batch_record disk self roi progress_callback total_videos (i + 1)
                   pending' (<[video_path := recorded r]> results)
  end.

End Batch.

(** A batch of three: a source that cannot be opened, one whose header
    gives a frame rate of zero, so that naming its clip divides by zero,
    and one that is in order. *)
Definition sample_batch : Disk :=
  Uniform.disk_with ["a.mp4"; "b.mp4"; "c.mp4"]
    [("b.mp4",
      Uniform.video_of 0 5
        [Uniform.image 0; Uniform.image 0; Uniform.image 200;
         Uniform.image 200; Uniform.image 200]);
     ("c.mp4",
      Uniform.video_of 10 5
        [Uniform.image 0; Uniform.image 0; Uniform.image 200;
         Uniform.image 200; Uniform.image 200])].

(** Forty frames, each of its own intensity, at ten frames per second. *)
Definition numbered_video : Video :=
  Uniform.video_of 10 40 (Uniform.image <$> (Z.of_nat <$> seq 0 40)).

(** Eight frames: three alike, then each differs from the one before. *)
Definition stopped_video : Video :=
  Uniform.video_of 10 8
    [Uniform.image 0; Uniform.image 0; Uniform.image 0; Uniform.image 200;
     Uniform.image 0; Uniform.image 200; Uniform.image 0; Uniform.image 200].

(** ** More on segment lists *)

Definition well_formed (r : Range) : Prop := r.1 <= r.2.

(** [l'] is [l] with two neighbours of equal start exchanged. *)
Inductive tie_swap : list Range -> list Range -> Prop :=
| tie_swap_here (a b : Range) (l : list Range) :
    a.1 = b.1 -> tie_swap (a :: b :: l) (b :: a :: l)
| tie_swap_skip (a : Range) (l l' : list Range) :
    tie_swap l l' -> tie_swap (a :: l) (a :: l').

(** The sweep over a whole sorted list. *)
Definition sweep_all (gap : Z) (l : list Range) : list Range :=
  match l with
  | [] => []
  | first :: tail => Merger.sweep gap first tail
  end.

(** ** More on the scorer and the tracker *)

Section ScorerMore.
Context `{cv : CV}.

(** Lines 103-107: the dilated mask of the pixels that changed. *)
Definition motion_mask (self : MotionDetector) (prev roi_gray : Gray) : Gray :=
  dilate (threshold_binary (absdiff prev roi_gray) (threshold self)) 2.

(** What keeps the tracked ranges in order: closed ranges lie before the
    open start and before the next frame to read. *)
Definition ordering_invariant (st : Analysis) : Prop :=
  0 <= frame_index st /\
  sorted_by_start (motion_ranges st) /\
  gap_separated 0 (motion_ranges st) /\
  Forall (fun r => 0 <= r.1 /\ r.1 <= r.2 /\ r.2 < frame_index st)
         (motion_ranges st) /\
  (forall s, current_motion_start st = Some s ->
     0 <= s /\ s < frame_index st /\
     Forall (fun r => r.2 < s) (motion_ranges st)).

End ScorerMore.

(** ** More on the exporter and the drivers *)

Section DriversMore.
Context `{cv : CV}.

(** The output path [export_clip] gives the clip of range [r] when no name
    is supplied. *)
Definition clip_path (disk : Disk) (self : VideoProcessor)
    (video_path : string) (video : Video) (r : Range) : string :=
  path_join disk (output_folder self)
    (clip_name disk video_path
       (inject_Z (actual_start self video r.1) / fps video)
       (inject_Z (actual_end self video r.2) / fps video)).

End DriversMore.

(** ** Listing the input folder *)

(** [s.endswith(suffix)]: some tail of [s] is [suffix]. *)
Fixpoint endswith (s suffix : string) : bool :=
  String.eqb s suffix ||
  match s with
  | EmptyString => false
  | String _ s' => endswith s' suffix
  end.

(** Line 62 of video_processor.py. *)
Definition video_extensions : list string :=
  [".mp4"; ".MP4"; ".avi"; ".AVI"; ".mov"; ".MOV"; ".mkv"; ".MKV"].

(** [filename.endswith(video_extensions)] with a tuple of suffixes. *)
Definition is_video (filename : string) : bool :=
  existsb (endswith filename) video_extensions.

(** [sorted(l)] on strings, which Python orders by code point; stable
    insertion as for [Merger.py_sorted]. *)
Fixpoint insert_str (x : string) (l : list string) : list string :=
  match l with
  | [] => [x]
  | y :: l' => if String.leb x y then x :: y :: l' else y :: insert_str x l'
  end.

Definition sorted_str (l : list string) : list string :=
  foldr insert_str [] l.

Section Listing.
Context `{cv : CV}.

(** [VideoProcessor.get_video_files].  [listdir] gives the names in a
    folder, and [None] for a path that does not exist. *)
Definition get_video_files (listdir : string -> option (list string))
    (disk : Disk) (self : VideoProcessor) : list string :=
  match listdir (input_folder self) with
  | None => []
  | Some names =>
      sorted_str (path_join disk (input_folder self) <$> filter is_video names)
  end.

End Listing.

(** ** Command line *)

Module Cli.

(** What [parse_roi] gives: the rectangle, or the message of the
    [argparse.ArgumentTypeError] it raises. *)
Inductive parsed : Type :=
| Parsed (roi : Roi)
| ArgumentTypeError (msg : string).

(** [s.split(sep)] for a separator of one character. *)
Fixpoint split_on (sep : Ascii.ascii) (s : string) : list string :=
  match s with
  | EmptyString => [EmptyString]
  | String c s' =>
      if Ascii.eqb c sep then EmptyString :: split_on sep s'
      else match split_on sep s' with
           | [] => [String c EmptyString]
           | field :: fields => String c field :: fields
           end
  end.

Fixpoint count_char (sep : Ascii.ascii) (s : string) : nat :=
  match s with
  | EmptyString => 0
  | String c s' => (if Ascii.eqb c sep then 1 else 0) + count_char sep s'
  end.

(** Python's [str.strip] and [int] on a string; [None] is the
    [ValueError] of [int]. *)
Class PyStr : Type := {
  strip : string -> string;
  int_of_str : string -> option Z;
}.

Definition invalid_roi (roi_string : string) : parsed :=
  ArgumentTypeError
    ("Invalid ROI format: " +:+ roi_string +:+
     ". Expected format: x1,y1,x2,y2 (e.g., 100,100,500,400)").

(** [main.parse_roi] *)
Definition parse_roi `{PyStr} (roi_string : string) : parsed :=
  match mapM (fun x => int_of_str (strip x)) (split_on ","%char roi_string) with
  | None => invalid_roi roi_string
  | Some parts =>
      match parts with
      | [x1; y1; x2; y2] => Parsed (normalize_roi (x1, y1, x2, y2))
      | _ => invalid_roi roi_string
      end
  end.

(** Decimal numerals with an optional sign, between blanks: a part of
    what [int] accepts, enough to run [parse_roi] on plain input. *)
Module Plain.

Definition is_blank (c : Ascii.ascii) : bool :=
  Ascii.eqb c " "%char || Ascii.eqb c "009"%char.

Fixpoint lstrip (s : string) : string :=
  match s with
  | String c s' => if is_blank c then lstrip s' else s
  | EmptyString => EmptyString
  end.

Definition strip (s : string) : string :=
  String.rev (lstrip (String.rev (lstrip s))).

Definition digit (c : Ascii.ascii) : option Z :=
  let n := Z.of_N (Ascii.N_of_ascii c) in
  if (48 <=? n) && (n <=? 57) then Some (n - 48) else None.

Fixpoint digits (acc : Z) (s : string) : option Z :=
  match s with
  | EmptyString => Some acc
  | String c s' =>
      match digit c with
      | Some d => digits (10 * acc + d) s'
      | None => None
      end
  end.

Definition unsigned (s : string) : option Z :=
  match s with
  | EmptyString => None
  | _ => digits 0 s
  end.

Definition int_of_str (s : string) : option Z :=
  match strip s with
  | String "-"%char s' => Z.opp <$> unsigned s'
  | String "+"%char s' => unsigned s'
  | s' => unsigned s'
  end.

#[global] Instance py_str : PyStr :=
  {| Cli.strip := strip; Cli.int_of_str := int_of_str |}.

End Plain.

(** The constants of config.py.  The two folders are
    [os.path.join(os.getcwd(), ...)], fixed when the module is loaded. *)
Record Config : Type := {
  INPUT_FOLDER : string;
  OUTPUT_FOLDER : string;
  MOTION_THRESHOLD : Z;
  MIN_CONTOUR_AREA : Z;
  MOTION_SENSITIVITY : Q;
  PADDING_BEFORE_SECONDS : Q;
  PADDING_AFTER_SECONDS : Q;
  MIN_CLIP_DURATION_SECONDS : Q;
  MERGE_GAP_SECONDS : Q;
  PREVIEW_WIDTH : Z;
  PREVIEW_HEIGHT : Z;
  CONFIG_FRAME_SKIP : Z;
}.

Definition config_py (input_folder output_folder : string) : Config :=
  {| INPUT_FOLDER := input_folder;
     OUTPUT_FOLDER := output_folder;
     MOTION_THRESHOLD := 25;
     MIN_CONTOUR_AREA := 500;
     MOTION_SENSITIVITY := 1 # 100;
     PADDING_BEFORE_SECONDS := 2;
     PADDING_AFTER_SECONDS := 2;
     MIN_CLIP_DURATION_SECONDS := 2;
     MERGE_GAP_SECONDS := 10;
     PREVIEW_WIDTH := 800;
     PREVIEW_HEIGHT := 600;
     CONFIG_FRAME_SKIP := FRAME_SKIP |}.

(** The namespace [argparse] hands to [run_cli]: [args_roi] is
    [args.roi], and so on. *)
Record Args : Type := {
  args_roi : Roi;
  args_input : option string;
  args_output : option string;
  args_videos : option (list string);
  args_threshold : option Z;
  args_min_area : option Z;
  args_sensitivity : option Q;
  args_frame_skip : option Z;
  args_padding_before : option Q;
  args_padding_after : option Q;
  args_merge_gap : option Q;
}.

(** The file system as [run_cli] reads it once its folders exist. *)
Record Os : Type := {
  cwd_input_folder : string;
  cwd_output_folder : string;
  isabs : string -> bool;
  path_exists : string -> bool;
  listdir : string -> option (list string);
}.

(** The lines [run_cli] prints, one constructor per [print]; the lines of
    its progress callback are left out. *)
Inductive Line : Type :=
| Rule
| Title
| Blank
| InputFolder (path : string)
| OutputFolder (path : string)
| RoiLine (r : Roi)
| DetectionSettings
| Threshold (n : Z)
| MinContourArea (n : Z)
| Sensitivity (q : Q)
| FrameSkip (n : Z)
| ExportSettings
| PaddingBefore (q : Q)
| PaddingAfter (q : Q)
| MergeGap (q : Q)
| VideoNotFound (path : string)
| NoVideoFiles
| Found (n : Z)
| FoundItem (name : string)
| Processing (i n : Z) (name : string)
| ExportedClips (n : Z)
| ClipItem (name : string)
| NoMotionDetected
| Error (e : exn)
| Complete (total_clips : Z).

Section Run.
Context `{cv : CV}.

(** Lines 92-105 of [run_cli]: the module [config] after the flags have
    been written into it. *)
Definition update_config (cfg : Config) (args : Args) : Config :=
  {| INPUT_FOLDER := INPUT_FOLDER cfg;
     OUTPUT_FOLDER := OUTPUT_FOLDER cfg;
     MOTION_THRESHOLD := default (MOTION_THRESHOLD cfg) (args_threshold args);
     MIN_CONTOUR_AREA := default (MIN_CONTOUR_AREA cfg) (args_min_area args);
     MOTION_SENSITIVITY :=
       default (MOTION_SENSITIVITY cfg) (args_sensitivity args);
     PADDING_BEFORE_SECONDS :=
       default (PADDING_BEFORE_SECONDS cfg) (args_padding_before args);
     PADDING_AFTER_SECONDS :=
       default (PADDING_AFTER_SECONDS cfg) (args_padding_after args);
     MIN_CLIP_DURATION_SECONDS := MIN_CLIP_DURATION_SECONDS cfg;
     MERGE_GAP_SECONDS := default (MERGE_GAP_SECONDS cfg) (args_merge_gap args);
     PREVIEW_WIDTH := PREVIEW_WIDTH cfg;
     PREVIEW_HEIGHT := PREVIEW_HEIGHT cfg;
     CONFIG_FRAME_SKIP :=
       default (CONFIG_FRAME_SKIP cfg) (args_frame_skip args) |}.

(** [folder or fallback]: the empty string counts as absent. *)
Definition or_default (folder : option string) (fallback : string) : string :=
  match folder with
  | Some (String c s) => String c s
  | _ => fallback
  end.

(** [main.ensure_directories], on a file system where [os.makedirs] has
    nothing left to create. *)
Definition ensure_directories (cfg : Config)
    (input_folder output_folder : option string) : string * string :=
  (or_default input_folder (INPUT_FOLDER cfg),
   or_default output_folder (OUTPUT_FOLDER cfg)).

(** [MotionDetector()].  The defaults of [__init__] are evaluated when
    motion_detector.py is loaded, so they are the values [config] held
    then, [loaded], whatever is written into [config] afterwards. *)
Definition new_MotionDetector (loaded : Config) : MotionDetector :=
  {| threshold := MOTION_THRESHOLD loaded;
     min_contour_area := MIN_CONTOUR_AREA loaded;
     sensitivity := MOTION_SENSITIVITY loaded;
     previous_frame := None |}.

(** [VideoProcessor(input_folder=..., ...)] with all five arguments
    given, as [run_cli] calls it. *)
Definition new_VideoProcessor (loaded : Config) (input_dir output_dir : string)
    (before after gap : Q) : VideoProcessor :=
  {| input_folder := input_dir;
     output_folder := output_dir;
     padding_before := before;
     padding_after := after;
     merge_gap := gap;
     motion_detector := new_MotionDetector loaded;
     _stop_requested := false |}.

(** Lines 140-150: the named videos that exist, and the warnings for the
    others. *)
Fixpoint named_videos (os : Os) (disk : Disk) (input_dir : string)
    (names : list string) : list string * list Line :=
  match names with
  | [] => ([], [])
  | video :: names' =>
      let video_path :=
        if isabs os video then video else path_join disk input_dir video in
      let '(video_files, warnings) := named_videos os disk input_dir names' in
      if path_exists os video_path
      then (video_path :: video_files, warnings)
      else (video_files, VideoNotFound video_path :: warnings)
  end.

(** Lines 138-153: the videos to process. *)
Definition video_files_of (os : Os) (disk : Disk) (processor : VideoProcessor)
    (input_dir : string) (args : Args) : list string * list Line :=
  match args_videos args with
  | Some (video :: names) => named_videos os disk input_dir (video :: names)
  | _ => (get_video_files (listdir os) disk processor, [])
  end.

(** The closure [progress_callback] of [run_cli]: it prints and returns. *)
Definition cli_progress : StatusProgress := fun _ _ _ => Ok tt.

(** Lines 178-192: what is printed for one video, and what it adds to
    [total_clips]. *)
Definition report (disk : Disk) (r : result (list string)) : Z * list Line :=
  match r with
  | Ok clips =>
      (Z.of_nat (length clips),
       match clips with
       | [] => [NoMotionDetected]
       | _ :: _ =>
           ExportedClips (Z.of_nat (length clips))
             :: (ClipItem <$> (basename disk <$> clips))
       end ++ [Blank])
  | Raise e => (0, [Error e; Blank])
  end.

(** The loop of lines 168-192. *)
Fixpoint cli_loop (disk : Disk) (processor : VideoProcessor) (r : Roi)
    (n : Z) (i : Z) (pending : list string) (total_clips : Z)
    : VideoProcessor * Z * list Line :=
  match pending with
  | [] => (processor, total_clips, [])
  | video_path :: pending' =>
      let video_name := basename disk video_path in
      let '(processor, res) :=
        process_video disk processor video_path r (Some cli_progress) in
      let '(clips, lines) := report disk res in
      let '(processor, total_clips, rest) :=
        cli_loop disk processor r n (i + 1) pending' (total_clips + clips) in
      (processor, total_clips,
       Processing (i + 1) n video_name :: lines ++ rest)
  end.

Definition banner (cfg : Config) (input_dir output_dir : string) (r : Roi)
    : list Line :=
  [Rule; Title; Rule; Blank;
   InputFolder input_dir; OutputFolder output_dir; RoiLine r; Blank;
   DetectionSettings;
   Threshold (MOTION_THRESHOLD cfg);
   MinContourArea (MIN_CONTOUR_AREA cfg);
   Sensitivity (MOTION_SENSITIVITY cfg);
   FrameSkip (CONFIG_FRAME_SKIP cfg);
   Blank;
   ExportSettings;
   PaddingBefore (PADDING_BEFORE_SECONDS cfg);
   PaddingAfter (PADDING_AFTER_SECONDS cfg);
   MergeGap (MERGE_GAP_SECONDS cfg);
   Blank].

(** The processor [run_cli] builds.  video_processor.py is loaded by the
    import of line 84, before the flags are written into [config]: the
    detector's defaults are those of config.py. *)
Definition cli_processor (os : Os) (args : Args) : VideoProcessor :=
  let loaded := config_py (cwd_input_folder os) (cwd_output_folder os) in
  let cfg := update_config loaded args in
  let '(input_dir, output_dir) :=
    ensure_directories cfg (args_input args) (args_output args) in
  new_VideoProcessor loaded input_dir output_dir
    (PADDING_BEFORE_SECONDS cfg) (PADDING_AFTER_SECONDS cfg)
    (MERGE_GAP_SECONDS cfg).

(** [main.run_cli]: its return value and the lines it prints. *)
Definition run_cli (os : Os) (disk : Disk) (args : Args) : Z * list Line :=
  let loaded := config_py (cwd_input_folder os) (cwd_output_folder os) in
  let cfg := update_config loaded args in
  let '(input_dir, output_dir) :=
    ensure_directories cfg (args_input args) (args_output args) in
  let head := banner cfg input_dir output_dir (args_roi args) in
  let processor := cli_processor os args in
  let '(video_files, warnings) :=
    video_files_of os disk processor input_dir args in
  match video_files with
  | [] => (1, head ++ warnings ++ [NoVideoFiles])
  | _ :: _ =>
      let '(_, total_clips, lines) :=
        cli_loop disk processor (args_roi args)
                 (Z.of_nat (length video_files)) 0 video_files 0 in
      (0,
       head ++ warnings
         ++ Found (Z.of_nat (length video_files))
         :: (FoundItem <$> (basename disk <$> video_files))
         ++ Blank :: lines
         ++ [Rule; Complete total_clips; OutputFolder output_dir; Rule])
  end.

(** The printed lines without the four that show detection settings. *)
Definition is_detection_setting (l : Line) : bool :=
  match l with
  | Threshold _ | MinContourArea _ | Sensitivity _ | FrameSkip _ => true
  | _ => false
  end.

(** The clips all listed videos give under one processor. *)
Definition clips_total (disk : Disk) (processor : VideoProcessor) (r : Roi)
    (video_files : list string) : Z :=
  foldr (fun video_path acc =>
           Z.of_nat (length (recorded
             (process_video disk processor video_path r
                            (Some cli_progress)).2)) + acc)
        0 video_files.

End Run.

End Cli.

(** ** Drawing the rectangle *)

Module Gui.

(** [int(a / b)] for an integer [a] and a float [b]. *)
Definition py_int_over (a : Z) (b : Q) : result Z :=
  if Qeq_bool b 0 then Raise ZeroDivisionError
  else Ok (py_int (inject_Z a / b)).

(** Lines 319-338 of [_on_mouse_release]: the rectangle stored for a drag
    from [roi_start] to [roi_end], in canvas coordinates, on a preview
    scaled by [scale_x] and [scale_y]; [None] when it is too small. *)
Definition roi_from_drag (roi_start roi_end : Z * Z) (scale_x scale_y : Q)
    (video_width video_height : Z) : result (option Roi) :=
  x1 ← py_int_over (Z.min roi_start.1 roi_end.1) scale_x;
  y1 ← py_int_over (Z.min roi_start.2 roi_end.2) scale_y;
  x2 ← py_int_over (Z.max roi_start.1 roi_end.1) scale_x;
  y2 ← py_int_over (Z.max roi_start.2 roi_end.2) scale_y;
  let x1 := Z.max 0 (Z.min x1 video_width) in
  let y1 := Z.max 0 (Z.min y1 video_height) in
  let x2 := Z.max 0 (Z.min x2 video_width) in
  let y2 := Z.max 0 (Z.min y2 video_height) in
  if (Z.abs (x2 - x1) >? 10) && (Z.abs (y2 - y1) >? 10)
  then Ok (Some (x1, y1, x2, y2))
  else Ok None.

End Gui.

(** ** Properties of a command-line run *)

Section CliRun.
Context `{cv : CV}.

(** The videos a run processes. *)
Definition cli_video_files (os : Cli.Os) (disk : Disk) (args : Cli.Args)
    : list string :=
  let loaded := Cli.config_py (Cli.cwd_input_folder os)
                              (Cli.cwd_output_folder os) in
  let cfg := Cli.update_config loaded args in
  (Cli.video_files_of os disk (Cli.cli_processor os args)
     (Cli.ensure_directories cfg (Cli.args_input args)
                             (Cli.args_output args)).1 args).1.

(** [args] with other values for the four detection flags. *)
Definition with_detection_flags (args : Cli.Args)
    (threshold min_area : option Z) (sensitivity : option Q)
    (frame_skip : option Z) : Cli.Args :=
  {| Cli.args_roi := Cli.args_roi args;
     Cli.args_input := Cli.args_input args;
     Cli.args_output := Cli.args_output args;
     Cli.args_videos := Cli.args_videos args;
     Cli.args_threshold := threshold;
     Cli.args_min_area := min_area;
     Cli.args_sensitivity := sensitivity;
     Cli.args_frame_skip := frame_skip;
     Cli.args_padding_before := Cli.args_padding_before args;
     Cli.args_padding_after := Cli.args_padding_after args;
     Cli.args_merge_gap := Cli.args_merge_gap args |}.

Definition other_lines (lines : list Cli.Line) : list Cli.Line :=
  filter (fun l => Cli.is_detection_setting l = false) lines.

End CliRun.

(** A run on the sample batch. *)
Definition sample_os : Cli.Os :=
  {| Cli.cwd_input_folder := "input_videos";
     Cli.cwd_output_folder := "output_clips";
     Cli.isabs := fun _ => false;
     Cli.path_exists := fun _ => true;
     Cli.listdir := fun _ => Some ["a.mp4"; "b.mp4"; "c.mp4"] |}.

Definition sample_args : Cli.Args :=
  {| Cli.args_roi := (0, 0, 100, 100);
     Cli.args_input := None;
     Cli.args_output := None;
     Cli.args_videos := Some ["a.mp4"; "b.mp4"; "c.mp4"];
     Cli.args_threshold := Some 30;
     Cli.args_min_area := None;
     Cli.args_sensitivity := None;
     Cli.args_frame_skip := Some 1;
     Cli.args_padding_before := None;
     Cli.args_padding_after := None;
     Cli.args_merge_gap := None |}.

(** The sample batch under the paths a run gives its videos. *)
Definition sample_cli_batch : Disk :=
  Uniform.disk_with ["a.mp4"; "b.mp4"; "c.mp4"]
    [("input_videos/b.mp4",
      Uniform.video_of 0 5
        [Uniform.image 0; Uniform.image 0; Uniform.image 200;
         Uniform.image 200; Uniform.image 200]);
     ("input_videos/c.mp4",
      Uniform.video_of 10 5
        [Uniform.image 0; Uniform.image 0; Uniform.image 200;
         Uniform.image 200; Uniform.image 200])].

(** ** What the tracker records *)

Section Flags.
Context `{cv : CV}.

(** For each frame of [cap], read from index [k] on, what the latest
    sample at or before it reported: the scorer's answer on a sampled
    frame, and on a skipped one the answer carried from the sample
    before, [last]. *)
Fixpoint sample_flags (roi : Roi) (frame_skip : Z) (self : MotionDetector)
    (k : Z) (last : bool) (cap : Capture) : list bool :=
  match cap with
  | [] => []
  | frame :: cap' =>
      if k mod frame_skip =? 0
      then let '(self, sample) := detect_motion self frame (Some roi) in
           detected sample
             :: sample_flags roi frame_skip self (k + 1) (detected sample) cap'
      else last :: sample_flags roi frame_skip self (k + 1) last cap'
  end.

(** The maximal runs of [true] in [flags], as ranges of indices counted
    from [k]; [open] is the start of a run already under way. *)
Fixpoint runs (k : Z) (open : option Z) (flags : list bool) : list Range :=
  match flags with
  | [] =>
      match open with
      | Some s => [(s, k - 1)]
      | None => []
      end
  | true :: flags' => runs (k + 1) (Some (default k open)) flags'
  | false :: flags' =>
      match open with
      | Some s => (s, k - 1) :: runs (k + 1) None flags'
      | None => runs (k + 1) None flags'
      end
  end.

End Flags.

(** * Range merger *)

Section MergerFacts.
Import Merger.

Lemma insert_by_perm {A} (key : A -> Z) (x : A) (l : list A) :
  insert_by key x l ≡ₚ x :: l.
Proof.
  induction l as [|y l IH]; simpl; [done|].
  destruct (key x <=? key y); [done|].
  rewrite IH. apply Permutation_swap.
Qed.

Lemma py_sorted_perm {A} (key : A -> Z) (l : list A) : py_sorted key l ≡ₚ l.
Proof.
  induction l as [|x l IH]; simpl; [done|].
  rewrite insert_by_perm. by rewrite IH.
Qed.

Lemma insert_by_ascending (x : Range) (l : list Range) :
  ascending l -> ascending (insert_by fst x l).
Proof.
  induction l as [|y l IH]; simpl; [auto|].
  intros [Hy Hl]. destruct (Z.leb_spec x.1 y.1) as [Hle|Hgt]; simpl.
  - repeat split; auto. constructor; [done|].
    eapply Forall_impl; [exact Hy|]. simpl. intros; lia.
  - split; [|auto].
    rewrite insert_by_perm. constructor; [lia|done].
Qed.

Lemma py_sorted_ascending (l : list Range) : ascending (py_sorted fst l).
Proof.
  induction l as [|x l IH]; simpl; [done|]. by apply insert_by_ascending.
Qed.

(** Sorting a list that is already in order leaves it as it is. *)
Lemma py_sorted_fixed (l : list Range) : ascending l -> py_sorted fst l = l.
Proof.
  induction l as [|x l IH]; simpl; [done|].
  intros [Hx Hl]. rewrite IH by done.
  destruct l as [|y l']; simpl; [done|].
  apply Forall_cons in Hx as [Hxy _].
  destruct (Z.leb_spec x.1 y.1); [done|lia].
Qed.

(** The loop of [_merge_ranges] computes [sweep] on the last element of
    [merged]; in particular [merged[-1]] always exists. *)
Lemma merge_loop_sweep (gap : Z) (rest front : list Range) (cur : Range) :
  merge_loop gap (front ++ [cur]) rest = Ok (front ++ sweep gap cur rest).
Proof.
  revert front cur.
  induction rest as [|[s e] rest IH]; intros front [cs ce]; simpl; [done|].
  rewrite last_snoc. simpl.
  destruct (s - ce <=? gap); simpl.
  - rewrite length_app. simpl.
    replace (Nat.pred (length front + 1)) with (length front + 0)%nat by lia.
    rewrite insert_app_r. simpl. apply IH.
  - etrans; [apply (IH (front ++ [(cs, ce)]) (s, e))|].
    by rewrite <- (assoc_L (++)).
Qed.

Lemma merge_ranges_sweep (r : Range) (ranges : list Range) (fps g : Q) :
  exists first tail,
    py_sorted fst (r :: ranges) = first :: tail /\
    _merge_ranges (r :: ranges) fps g = Ok (sweep (gap_frames fps g) first tail).
Proof.
  unfold _merge_ranges.
  destruct (py_sorted fst (r :: ranges)) as [|first tail] eqn:E.
  - pose proof (py_sorted_perm fst (r :: ranges)) as HP. rewrite E in HP.
    by apply Permutation_nil_l in HP.
  - exists first, tail. split; [done|].
    by rewrite (merge_loop_sweep _ tail [] first).
Qed.

Lemma sweep_head (gap : Z) (rest : list Range) (cur : Range) :
  exists e tl, sweep gap cur rest = (cur.1, e) :: tl /\ cur.2 <= e.
Proof.
  revert cur. induction rest as [|[s e] rest IH]; intros [cs ce]; simpl.
  - exists ce, []. split; [done|lia].
  - destruct (s - ce <=? gap).
    + destruct (IH (cs, Z.max ce e)) as (e' & tl & -> & Hle). simpl in *.
      exists e', tl. split; [done|lia].
    + exists ce, (sweep gap (s, e) rest). split; [done|lia].
Qed.

Lemma sweep_starts (P : Z -> Prop) (gap : Z) (rest : list Range) (cur : Range) :
  Forall (fun r => P r.1) (cur :: rest) ->
  Forall (fun r => P r.1) (sweep gap cur rest).
Proof.
  revert cur. induction rest as [|[s e] rest IH]; intros [cs ce]; simpl; [done|].
  intros H. apply Forall_cons in H as [Hc H]. destruct (s - ce <=? gap).
  - apply IH. apply Forall_cons in H as [_ H]. by constructor.
  - constructor; [done|]. by apply IH.
Qed.

Lemma sweep_ascending (gap : Z) (rest : list Range) (cur : Range) :
  ascending (cur :: rest) -> ascending (sweep gap cur rest).
Proof.
  revert cur. induction rest as [|[s e] rest IH]; intros [cs ce]; simpl; [done|].
  intros (Hc & Hs & Hrest). apply Forall_cons in Hc as [Hcs Hc].
  destruct (s - ce <=? gap).
  - apply IH. simpl. done.
  - simpl. split; [|by apply IH].
    apply (sweep_starts (fun x => cs <= x)). by constructor.
Qed.

Lemma sweep_gapped (gap : Z) (rest : list Range) (cur : Range) :
  gapped gap (sweep gap cur rest).
Proof.
  revert cur. induction rest as [|[s e] rest IH]; intros [cs ce]; simpl; [done|].
  destruct (Z.leb_spec (s - ce) gap) as [Hle|Hgt]; [apply IH|].
  pose proof (IH (s, e)) as Hg.
  destruct (sweep_head gap rest (s, e)) as (e' & tl & Heq & _).
  rewrite Heq in *. simpl. split; [lia|done].
Qed.

(** On a list whose neighbours are already further apart than the gap the
    sweep changes nothing. *)
Lemma sweep_fixed (gap : Z) (rest : list Range) (cur : Range) :
  gapped gap (cur :: rest) -> sweep gap cur rest = cur :: rest.
Proof.
  revert cur. induction rest as [|[s e] rest IH]; intros [cs ce]; simpl; [done|].
  intros [Hgap Hrest]. destruct (Z.leb_spec (s - ce) gap); [lia|].
  by rewrite IH.
Qed.

Lemma sweep_contains (gap : Z) (rest : list Range) (cur r : Range) :
  ascending (cur :: rest) -> r ∈ cur :: rest ->
  exists o, o ∈ sweep gap cur rest /\ contains o r.
Proof.
  revert cur r. induction rest as [|[s e] rest IH]; intros [cs ce] r; simpl.
  - intros _ Hr. apply list_elem_of_singleton in Hr as ->.
    exists (cs, ce). split; [apply list_elem_of_singleton; done|].
    unfold contains; simpl; lia.
  - intros (Hc & Hs & Hrest) Hr. apply Forall_cons in Hc as [Hcs Hc].
    simpl in Hcs.
    destruct (s - ce <=? gap).
    + assert (Hasc : ascending ((cs, Z.max ce e) :: rest)) by done.
      assert (exists o, o ∈ sweep gap (cs, Z.max ce e) rest
                        /\ contains o (cs, Z.max ce e)) as (o & Ho & Hoc).
      { apply IH; [done|]. apply list_elem_of_here. }
      apply elem_of_cons in Hr as [->|Hr]; [|apply elem_of_cons in Hr as [->|Hr]].
      * exists o. split; [done|]. unfold contains in *; simpl in *; lia.
      * exists o. split; [done|]. unfold contains in *; simpl in *; lia.
      * apply IH; [done|]. by apply list_elem_of_further.
    + apply elem_of_cons in Hr as [->|Hr].
      * exists (cs, ce). split; [apply list_elem_of_here|].
        unfold contains; simpl; lia.
      * destruct (IH (s, e) r (conj Hs Hrest) Hr) as (o & Ho & Hoc).
        exists o. split; [by apply list_elem_of_further|done].
Qed.

(** Every boundary the sweep produces is a boundary it was given. *)
Lemma sweep_boundaries (gap : Z) (rest : list Range) (cur o : Range) :
  o ∈ sweep gap cur rest ->
  (exists r, r ∈ cur :: rest /\ o.1 = r.1) /\
  (exists r, r ∈ cur :: rest /\ o.2 = r.2).
Proof.
  revert cur. induction rest as [|[s e] rest IH]; intros [cs ce]; simpl.
  - intros Ho. apply list_elem_of_singleton in Ho as ->.
    split; exists (cs, ce); (split; [apply list_elem_of_here|done]).
  - destruct (s - ce <=? gap).
    + intros Ho. destruct (IH _ Ho) as [(r1 & Hr1 & E1) (r2 & Hr2 & E2)].
      split.
      * apply elem_of_cons in Hr1 as [->|Hr1].
        -- exists (cs, ce). split; [apply list_elem_of_here|done].
        -- exists r1. split; [|done]. by do 2 apply list_elem_of_further.
      * apply elem_of_cons in Hr2 as [->|Hr2].
        -- simpl in E2. destruct (Z.max_spec ce e) as [[_ Hm]|[_ Hm]].
           ++ exists (s, e). split; [|simpl; lia].
              apply list_elem_of_further, list_elem_of_here.
           ++ exists (cs, ce). split; [apply list_elem_of_here|simpl; lia].
        -- exists r2. split; [|done]. by do 2 apply list_elem_of_further.
    + intros Ho. apply elem_of_cons in Ho as [->|Ho].
      * split; exists (cs, ce); (split; [apply list_elem_of_here|done]).
      * destruct (IH _ Ho) as [(r1 & Hr1 & E1) (r2 & Hr2 & E2)].
        split; [exists r1|exists r2]; (split; [by apply list_elem_of_further|done]).
Qed.

(** The merger never raises. *)
Lemma merge_ranges_returns (ranges : list Range) (fps g : Q) :
  exists out, _merge_ranges ranges fps g = Ok out.
Proof.
  destruct ranges as [|r ranges]; [by exists []|].
  destruct (merge_ranges_sweep r ranges fps g) as (first & tail & _ & ->).
  by eexists.
Qed.

Lemma merge_ranges_starts (P : Z -> Prop) (ranges out : list Range) (fps g : Q) :
  Forall (fun r => P r.1) ranges ->
  _merge_ranges ranges fps g = Ok out ->
  Forall (fun r => P r.1) out.
Proof.
  destruct ranges as [|r ranges]; [by intros _ [= <-]|].
  destruct (merge_ranges_sweep r ranges fps g) as (first & tail & Hs & ->).
  intros HP [= <-]. apply sweep_starts.
  pose proof (py_sorted_perm fst (r :: ranges)) as Hperm.
  rewrite Hs in Hperm. by rewrite Hperm.
Qed.

Lemma ascending_sorted (l : list Range) : ascending l -> sorted_by_start l.
Proof.
  induction l as [|x l IH]; intros Hl i j a b Hij Ha Hb.
  - by rewrite lookup_nil in Ha.
  - destruct Hl as [Hx Hl]. destruct j as [|j]; [lia|]. simpl in Hb.
    destruct i as [|i]; simpl in Ha.
    + injection Ha as <-. rewrite Forall_lookup in Hx. by apply (Hx j).
    + apply (IH Hl i j); [lia|done|done].
Qed.

Lemma gapped_separated (gap : Z) (l : list Range) :
  gapped gap l -> gap_separated gap l.
Proof.
  induction l as [|x l IH]; intros Hl i a b Ha Hb.
  - by rewrite lookup_nil in Ha.
  - destruct l as [|y l]; [by destruct i|].
    destruct Hl as [Hxy Hl]. destruct i as [|i]; simpl in Ha, Hb.
    + injection Ha as <-. injection Hb as <-. done.
    + by apply (IH Hl i).
Qed.

(** Sorted starts and separated neighbours put every earlier range
    wholly before every later one. *)
Lemma separated_before (gap : Z) (l : list Range) (i j : nat) (a b : Range) :
  0 <= gap -> sorted_by_start l -> gap_separated gap l ->
  (i < j)%nat -> l !! i = Some a -> l !! j = Some b -> a.2 < b.1.
Proof.
  intros Hgap Hs Hg Hij Ha Hb.
  destruct (l !! S i) as [n|] eqn:Hn.
  - pose proof (Hg i a n Ha Hn) as Hgt.
    destruct (decide (S i = j)) as [<-|Hne].
    + rewrite Hn in Hb. injection Hb as <-. lia.
    + assert (n.1 <= b.1) by (apply (Hs (S i) j); [lia|done|done]). lia.
  - apply lookup_ge_None in Hn. apply lookup_lt_Some in Hb. lia.
Qed.

Lemma separated_disjoint (gap : Z) (l : list Range) :
  0 <= gap -> sorted_by_start l -> gap_separated gap l -> pairwise_disjoint l.
Proof.
  intros Hgap Hs Hg i j a b Hne Ha Hb f [Hfa Hfb].
  destruct (Nat.lt_total i j) as [Hlt|[->|Hlt]]; [|done|].
  - pose proof (separated_before gap l i j a b Hgap Hs Hg Hlt Ha Hb). lia.
  - pose proof (separated_before gap l j i b a Hgap Hs Hg Hlt Hb Ha). lia.
Qed.

(** C1.  For every list of segments, in any order, and every threshold
    with [gap_frames >= 0], the range merger returns a list that is sorted
    ascending by start, pairwise disjoint, and whose adjacent entries
    satisfy [next.start - prev.end > gap_frames]; on the empty list it
    returns the empty list. *)
Theorem merge_sorted_disjoint_separated (ranges : list Range) (fps g : Q) :
  0 <= gap_frames fps g ->
  exists out,
    _merge_ranges ranges fps g = Ok out /\
    (ranges = [] -> out = []) /\
    sorted_by_start out /\
    pairwise_disjoint out /\
    gap_separated (gap_frames fps g) out.
Proof.
  intros Hgap. destruct ranges as [|r ranges].
  - exists []. by repeat split.
  - destruct (merge_ranges_sweep r ranges fps g) as (first & tail & Hs & ->).
    eexists. split; [done|]. split; [done|].
    assert (Hasc : sorted_by_start (sweep (gap_frames fps g) first tail)).
    { apply ascending_sorted, sweep_ascending.
      pose proof (py_sorted_ascending (r :: ranges)) as Hsorted.
      by rewrite Hs in Hsorted. }
    assert (Hsep : gap_separated (gap_frames fps g)
                     (sweep (gap_frames fps g) first tail))
      by apply gapped_separated, sweep_gapped.
    repeat split; [done| |done]. by apply (separated_disjoint (gap_frames fps g)).
Qed.

Lemma merge_sorted_disjoint_separated_witness :
  exists out,
    _merge_ranges [(40, 45); (0, 3); (5, 6); (2, 9)] 1 1 = Ok out /\
    ([(40, 45); (0, 3); (5, 6); (2, 9)] = [] -> out = []) /\
    sorted_by_start out /\
    pairwise_disjoint out /\
    gap_separated (gap_frames 1 1) out.
Proof.
  apply (merge_sorted_disjoint_separated [(40, 45); (0, 3); (5, 6); (2, 9)] 1 1).
  vm_compute. discriminate.
Defined.

(** C6.  Merging is idempotent: for every segment list, frame rate and gap
    in seconds, the merger returns a list, and applied to that list with the
    same frame rate and gap it returns it unchanged. *)
Theorem merge_idempotent (ranges : list Range) (fps g : Q) :
  exists out,
    _merge_ranges ranges fps g = Ok out /\
    _merge_ranges out fps g = Ok out.
Proof.
  destruct ranges as [|r ranges]; [by exists []|].
  destruct (merge_ranges_sweep r ranges fps g) as (first & tail & Hs & ->).
  eexists. split; [done|].
  pose proof (sweep_ascending (gap_frames fps g) tail first) as Hasc.
  pose proof (sweep_gapped (gap_frames fps g) tail first) as Hgap.
  pose proof (py_sorted_ascending (r :: ranges)) as Hsorted.
  rewrite Hs in Hsorted. specialize (Hasc Hsorted).
  destruct (sweep (gap_frames fps g) first tail) as [|o out] eqn:E; [done|].
  unfold _merge_ranges. rewrite (py_sorted_fixed _ Hasc).
  rewrite (merge_loop_sweep _ out [] o). simpl.
  by rewrite (sweep_fixed _ _ _ Hgap).
Qed.

(** C10.  Merging loses no coverage and invents no boundary: for every
    input list and gap, every input range is contained in some output
    range, and every output range starts where some input range starts
    and ends where some input range ends. *)
Theorem merge_covers_and_reuses (ranges : list Range) (fps g : Q) :
  exists out,
    _merge_ranges ranges fps g = Ok out /\
    (forall r, r ∈ ranges -> exists o, o ∈ out /\ contains o r) /\
    (forall o, o ∈ out ->
       (exists r, r ∈ ranges /\ o.1 = r.1) /\
       (exists r, r ∈ ranges /\ o.2 = r.2)).
Proof.
  destruct ranges as [|r0 ranges].
  - exists []. split; [done|]. split; intros x Hx; by apply elem_of_nil in Hx.
  - destruct (merge_ranges_sweep r0 ranges fps g) as (first & tail & Hs & ->).
    pose proof (py_sorted_perm fst (r0 :: ranges)) as HP. rewrite Hs in HP.
    eexists. split; [done|]. split.
    + intros r Hr. apply sweep_contains.
      * pose proof (py_sorted_ascending (r0 :: ranges)) as Hsorted.
        by rewrite Hs in Hsorted.
      * by rewrite HP.
    + intros o Ho.
      destruct (sweep_boundaries _ _ _ _ Ho) as [(r1 & H1 & E1) (r2 & H2 & E2)].
      rewrite HP in H1, H2. split; [by exists r1|by exists r2].
Qed.

End MergerFacts.

Example merge_scenario_wide :
  Merger._merge_ranges [(10, 20); (25, 30)] 10 2 = Ok [(10, 30)].
Proof. reflexivity. Qed.

Example merge_scenario_narrow :
  Merger._merge_ranges [(10, 20); (25, 30)] 10 (1 # 10)
    = Ok [(10, 20); (25, 30)].
Proof. reflexivity. Qed.

Example merge_unsorted_input :
  Merger._merge_ranges [(40, 45); (0, 3); (5, 6); (2, 9)] 1 1
    = Ok [(0, 9); (40, 45)].
Proof. reflexivity. Qed.

(** * Motion scorer *)

Section ScorerFacts.
Context `{cv : CV}.

Lemma normalize_roi_swap_x (x1 y1 x2 y2 : Z) :
  normalize_roi (x2, y1, x1, y2) = normalize_roi (x1, y1, x2, y2).
Proof.
  unfold normalize_roi.
  destruct (Z.gtb_spec x2 x1), (Z.gtb_spec x1 x2); try lia; try done.
  by replace x2 with x1 by lia.
Qed.

Lemma normalize_roi_swap_y (x1 y1 x2 y2 : Z) :
  normalize_roi (x1, y2, x2, y1) = normalize_roi (x1, y1, x2, y2).
Proof.
  unfold normalize_roi.
  destruct (x1 >? x2);
    destruct (Z.gtb_spec y2 y1), (Z.gtb_spec y1 y2); try lia; try done;
    by replace y2 with y1 by lia.
Qed.

(** The scorer reads its rectangle through [normalize_roi] only. *)
Lemma detect_motion_normalized (self : MotionDetector) (frame : Frame)
    (r r' : Roi) :
  normalize_roi r = normalize_roi r' ->
  detect_motion self frame (Some r) = detect_motion self frame (Some r').
Proof.
  intros E. unfold detect_motion, region_of. by rewrite E.
Qed.

(** C8.  The rectangle is order-independent: swapping the two corners, or
    the two coordinates of one axis, gives the same sample and the same
    detector state; the rectangle normalized from (500,400,100,100) is the
    one normalized from (100,100,500,400). *)
Theorem detect_motion_corner_order (self : MotionDetector) (frame : Frame)
    (x1 y1 x2 y2 : Z) :
  detect_motion self frame (Some (x2, y2, x1, y1))
    = detect_motion self frame (Some (x1, y1, x2, y2)) /\
  detect_motion self frame (Some (x2, y1, x1, y2))
    = detect_motion self frame (Some (x1, y1, x2, y2)) /\
  detect_motion self frame (Some (x1, y2, x2, y1))
    = detect_motion self frame (Some (x1, y1, x2, y2)) /\
  normalize_roi (500, 400, 100, 100) = normalize_roi (100, 100, 500, 400) /\
  normalize_roi (100, 100, 500, 400) = (100, 100, 500, 400).
Proof.
  repeat split; try reflexivity; apply detect_motion_normalized.
  - by rewrite normalize_roi_swap_x, normalize_roi_swap_y.
  - apply normalize_roi_swap_x.
  - apply normalize_roi_swap_y.
Qed.

Lemma region_of_degenerate (frame : Frame) (roi : Roi) :
  degenerate_on frame roi = true ->
  region_of (gray_of frame) (Some roi) = None.
Proof.
  unfold degenerate_on, clamped, region_of.
  destruct (clamp_roi _ _) as [[[x1 y1] x2] y2]. by intros ->.
Qed.

Lemma region_of_crop (frame : Frame) (roi : Roi) :
  degenerate_on frame roi = false ->
  region_of (gray_of frame) (Some roi)
    = Some (crop_of frame roi, Some (clamped frame roi)).
Proof.
  unfold degenerate_on, crop_of, clamped, region_of.
  destruct (clamp_roi _ _) as [[[x1 y1] x2] y2]. by intros ->.
Qed.

Lemma detect_motion_degenerate (self : MotionDetector) (frame : Frame)
    (roi : Roi) :
  degenerate_on frame roi = true ->
  detect_motion self frame (Some roi)
    = (set_previous_frame self None, (false, 0%Q, copy frame)).
Proof.
  intros H. unfold detect_motion. by rewrite region_of_degenerate.
Qed.

(** Without a reference the scorer reports no motion, whatever the
    rectangle. *)
Lemma detect_motion_unseeded (self : MotionDetector) (frame : Frame)
    (roi : option Roi) :
  previous_frame self = None ->
  (detect_motion self frame roi).2.1 = (false, 0%Q).
Proof.
  intros H. unfold detect_motion.
  destruct (region_of _ _) as [[roi_gray box]|]; [|done]. by rewrite H.
Qed.

Lemma detect_motion_seeds (self : MotionDetector) (frame : Frame) (roi : Roi) :
  degenerate_on frame roi = false ->
  (previous_frame self = None \/
   exists prev, previous_frame self = Some prev /\
                shape prev <> shape (crop_of frame roi)) ->
  detect_motion self frame (Some roi)
    = seed self frame (crop_of frame roi) (Some (clamped frame roi)).
Proof.
  intros Hd Hp. unfold detect_motion. rewrite region_of_crop by done.
  destruct Hp as [->|(prev & -> & Hne)]; [done|]. by rewrite decide_False.
Qed.

End ScorerFacts.

(** * Analysis loop *)

Section AnalysisFacts.
Context `{cv : CV}.
Variable roi : Roi.
Variable frame_skip : Z.

Lemma sampled_ge (n : Z) :
  0 < frame_skip -> 0 <= n -> n <> 0 -> sampled frame_skip n -> frame_skip <= n.
Proof.
  unfold sampled. intros Hfs Hn Hn0 Hs.
  destruct (Z.lt_ge_cases n frame_skip) as [Hlt|Hge]; [|done].
  rewrite Z.mod_small in Hs by lia. lia.
Qed.

Lemma score_frame_index (frame : Frame) (st : Analysis) :
  frame_index (score_frame roi frame st) = frame_index st.
Proof.
  unfold score_frame. destruct (detect_motion _ _ _) as [self sample].
  destruct (detected sample); [done|]. by destruct (current_motion_start st).
Qed.

(** The transition of the tracker on a sampled frame without motion while
    a range is open. *)
Lemma score_frame_closes (frame : Frame) (st : Analysis) (s : Z) :
  current_motion_start st = Some s ->
  detected (detect_motion (detector st) frame (Some roi)).2 = false ->
  motion_ranges (score_frame roi frame st)
    = motion_ranges st ++ [(s, frame_index st - 1)] /\
  current_motion_start (score_frame roi frame st) = None.
Proof.
  intros Hs Hd. unfold score_frame.
  destruct (detect_motion _ _ _) as [self sample]. simpl in Hd.
  by rewrite Hd, Hs.
Qed.

Lemma score_frame_opens (frame : Frame) (st : Analysis) :
  current_motion_start st = None ->
  detected (detect_motion (detector st) frame (Some roi)).2 = true ->
  motion_ranges (score_frame roi frame st) = motion_ranges st /\
  current_motion_start (score_frame roi frame st) = Some (frame_index st).
Proof.
  intros Hs Hd. unfold score_frame.
  destruct (detect_motion _ _ _) as [self sample]. simpl in Hd.
  by rewrite Hd, Hs.
Qed.

(** A property kept by an iteration of the loop, on a sampled frame and
    on a skipped one, holds of the state in which the loop ends, however
    it ends. *)
Lemma analysis_loop_preserves (I : Analysis -> Prop)
    (stop_check : option StopCheck) (total_frames : Z)
    (progress_callback : option Progress) (cap : Capture) :
  (forall frame st, frame ∈ cap -> I st ->
     sampled frame_skip (frame_index st) ->
     I (advance (score_frame roi frame st))) ->
  (forall st, I st -> I (advance st)) ->
  forall st, I st ->
    I (analysis_loop stop_check roi frame_skip total_frames
                     progress_callback cap st).1.
Proof.
  intros Hscore Hadv. induction cap as [|frame cap IH]; intros st Hst; simpl.
  - by destruct (polled stop_check (frame_index st)).
  - destruct (polled stop_check (frame_index st)); [done|]. unfold py_mod.
    destruct (frame_skip =? 0); [done|].
    assert (Hst' : I (advance (if frame_index st `mod` frame_skip =? 0
                               then score_frame roi frame st else st))).
    { destruct (Z.eqb_spec (frame_index st `mod` frame_skip) 0);
        [|by apply Hadv]. apply Hscore; [apply list_elem_of_here|done|done]. }
    destruct (call _ _ _); [|done].
    apply IH; [|done]. intros f st0 Hf. apply Hscore.
    by apply list_elem_of_further.
Qed.

(** The loop counts the frames it reads: at most those of the capture,
    and none after a poll that answers true. *)
Lemma analysis_loop_index (stop_check : option StopCheck) (total_frames : Z)
    (progress_callback : option Progress) (cap : Capture) (st : Analysis) :
  let out := analysis_loop stop_check roi frame_skip total_frames
                           progress_callback cap st in
  frame_index st <= frame_index out.1
    <= frame_index st + Z.of_nat (length cap) /\
  (forall k, frame_index st <= k < frame_index out.1 ->
     polled stop_check k = false).
Proof.
  revert st. induction cap as [|frame cap IH]; intros st; simpl.
  - destruct (polled stop_check (frame_index st)); simpl;
      (split; [lia|intros k Hk; lia]).
  - destruct (polled stop_check (frame_index st)) eqn:Hp; simpl;
      [split; [lia|intros k Hk; lia]|].
    unfold py_mod. destruct (frame_skip =? 0); simpl;
      [split; [lia|intros k Hk; lia]|].
    set (st' := advance _).
    assert (Hidx : frame_index st' = frame_index st + 1).
    { unfold st'. simpl. destruct (_ =? 0); [|done].
      by rewrite score_frame_index. }
    destruct (call progress_callback _ _); cbn [fst length].
    + destruct (IH st') as [Hle Hpoll]. split; [lia|].
      intros k Hk. destruct (decide (k = frame_index st)) as [->|Hne];
        [done|]. apply Hpoll. lia.
    + rewrite Hidx. split; [lia|].
      intros k Hk. by replace k with (frame_index st) by lia.
Qed.

(** With a step that is not zero and callbacks that do not raise, the loop
    ends normally, and it ends at the end of the capture or at a poll that
    answers true. *)
Lemma analysis_loop_completes (stop_check : option StopCheck)
    (total_frames : Z) (progress_callback : option Progress) (cap : Capture)
    (st : Analysis) :
  frame_skip <> 0 ->
  (forall a b, call progress_callback a b = Ok tt) ->
  let out := analysis_loop stop_check roi frame_skip total_frames
                           progress_callback cap st in
  out.2 = Ok tt /\
  (frame_index out.1 = frame_index st + Z.of_nat (length cap) \/
   polled stop_check (frame_index out.1) = true).
Proof.
  intros Hfs Hcb. revert st. induction cap as [|frame cap IH]; intros st; simpl.
  - destruct (polled stop_check (frame_index st)) eqn:Hp; simpl;
      (split; [done|]); [by right|left; lia].
  - destruct (polled stop_check (frame_index st)) eqn:Hp; simpl;
      [split; [done|by right]|].
    unfold py_mod. destruct (Z.eqb_spec frame_skip 0); [done|]. rewrite Hcb.
    match goal with |- context [analysis_loop _ _ _ _ _ _ ?s] =>
      destruct (IH s) as [H1 H2];
      assert (Hidx : frame_index s = frame_index st + 1)
    end.
    { simpl. destruct (_ =? 0); [|done]. by rewrite score_frame_index. }
    split; [done|]. destruct H2 as [H2|H2]; [left|by right].
    rewrite H2, Hidx. lia.
Qed.

(** A loop that is never told to stop reads the whole capture. *)
Lemma analysis_loop_reads_all (stop_check : option StopCheck)
    (total_frames : Z) (progress_callback : option Progress) (cap : Capture)
    (st : Analysis) :
  frame_skip <> 0 ->
  (forall a b, call progress_callback a b = Ok tt) ->
  (forall k, polled stop_check k = false) ->
  frame_index (analysis_loop stop_check roi frame_skip total_frames
                             progress_callback cap st).1
    = frame_index st + Z.of_nat (length cap).
Proof.
  intros Hfs Hcb Hstop.
  destruct (analysis_loop_completes stop_check total_frames progress_callback
              cap st Hfs Hcb) as [_ [H|H]]; [done|].
  by rewrite Hstop in H.
Qed.

(** The loop asks the poll and nothing else of [stop_check]. *)
Lemma analysis_loop_polled (stop_check stop_check' : option StopCheck)
    (total_frames : Z) (progress_callback : option Progress) (cap : Capture) :
  (forall k, polled stop_check k = polled stop_check' k) ->
  forall st,
    analysis_loop stop_check roi frame_skip total_frames progress_callback
                  cap st
    = analysis_loop stop_check' roi frame_skip total_frames progress_callback
                    cap st.
Proof.
  intros Hp. induction cap as [|frame cap IH]; intros st; simpl;
    rewrite Hp; [done|].
  destruct (polled stop_check' (frame_index st)); [done|].
  destruct (py_mod _ _); [|done]. destruct (call _ _ _); [|done]. apply IH.
Qed.

Lemma tracking_invariant_start (self : MotionDetector) :
  tracking_invariant frame_skip (start_analysis (reset self)).
Proof. repeat split; simpl; (done || lia). Qed.

Lemma closed_by_sample_weaken (mr : list Range) (n m : Z) :
  n <= m ->
  Forall (closed_by_sample frame_skip n) mr ->
  Forall (closed_by_sample frame_skip m) mr.
Proof.
  intros Hnm H. eapply Forall_impl; [exact H|].
  intros r (? & ? & ? & ? & ?). repeat split; (done || lia).
Qed.

Lemma tracking_invariant_advance (st : Analysis) :
  tracking_invariant frame_skip st -> tracking_invariant frame_skip (advance st).
Proof.
  intros (H0 & _ & Hc & Hr).
  split; [simpl; lia|]. split; [simpl; lia|]. split.
  - intros s Hs. destruct (Hc s Hs) as (? & ? & ?). simpl.
    repeat split; (done || lia).
  - simpl. apply (closed_by_sample_weaken _ (frame_index st)); [lia|done].
Qed.

Lemma tracking_invariant_score (frame : Frame) (st : Analysis) :
  0 < frame_skip ->
  tracking_invariant frame_skip st -> sampled frame_skip (frame_index st) ->
  tracking_invariant frame_skip (advance (score_frame roi frame st)).
Proof.
  intros Hfs (H0 & Hz & Hc & Hr) Hs.
  pose proof (detect_motion_unseeded (detector st) frame (Some roi)) as Hseed.
  assert (Hr' : Forall (closed_by_sample frame_skip (frame_index st + 1))
                       (motion_ranges st)).
  { apply (closed_by_sample_weaken _ (frame_index st)); [lia|done]. }
  unfold score_frame.
  destruct (detect_motion (detector st) frame (Some roi))
    as [self [[d pct] vis]].
  unfold detected. simpl in *. destruct d.
  - assert (Hi0 : frame_index st <> 0).
    { intros Hi0. destruct (Hz Hi0) as [Hp _]. by specialize (Hseed Hp). }
    split; [simpl; lia|]. split; [simpl; lia|]. split; [|done].
    simpl. intros s Hcur.
    destruct (current_motion_start st) as [s0|]; simplify_eq.
    + destruct (Hc s eq_refl) as (? & ? & ?). repeat split; (done || lia).
    + repeat split; [done| |lia]. by apply sampled_ge.
  - destruct (current_motion_start st) as [s0|] eqn:Hcur.
    + split; [simpl; lia|]. split; [simpl; lia|]. split; [done|]. simpl.
      apply Forall_app. split; [done|]. apply Forall_singleton.
      destruct (Hc s0 eq_refl) as (? & ? & ?).
      repeat split; simpl; try done; try lia.
      by replace (frame_index st - 1 + 1) with (frame_index st) by lia.
    + split; [simpl; lia|]. split; [simpl; lia|]. by split.
Qed.

Lemma final_state_invariant (self : MotionDetector) (video : Video)
    (progress_callback : option Progress) (stop_check : option StopCheck) :
  0 < frame_skip ->
  tracking_invariant frame_skip
    (final_state self video roi frame_skip progress_callback stop_check).
Proof.
  intros Hfs. unfold final_state. apply analysis_loop_preserves.
  - intros frame st _. by apply tracking_invariant_score.
  - apply tracking_invariant_advance.
  - apply tracking_invariant_start.
Qed.

Lemma tracked_ranges_final (self : MotionDetector) (video : Video)
    (progress_callback : option Progress) (stop_check : option StopCheck)
    (ranges : list Range) :
  (tracked_ranges self video roi frame_skip progress_callback stop_check).2
    = Ok ranges ->
  ranges = close_open_range
             (final_state self video roi frame_skip progress_callback
                          stop_check).
Proof.
  unfold tracked_ranges, final_state.
  destruct (analysis_loop _ _ _ _ _ _ _) as [st [[]|e]]; simpl; [|done].
  by intros [= <-].
Qed.

(** Every range of the final state starts on a frame that was scored and
    ends just before one, or on the last frame read. *)
Lemma final_state_scored (self : MotionDetector) (video : Video)
    (progress_callback : option Progress) (stop_check : option StopCheck) :
  0 < frame_skip ->
  let st := final_state self video roi frame_skip progress_callback
                        stop_check in
  Forall (fun r => scored frame_skip (frame_index st) r.1 /\
                   frame_skip <= r.1 /\ r.1 <= r.2 /\
                   (scored frame_skip (frame_index st) (r.2 + 1) \/
                    r.2 + 1 = frame_index st))
         (close_open_range st).
Proof.
  intros Hfs st.
  destruct (final_state_invariant self video progress_callback stop_check Hfs)
    as (H0 & _ & Hc & Hr). fold st in H0, Hc, Hr.
  assert (Hclosed :
    Forall (fun r => scored frame_skip (frame_index st) r.1 /\
                     frame_skip <= r.1 /\ r.1 <= r.2 /\
                     (scored frame_skip (frame_index st) (r.2 + 1) \/
                      r.2 + 1 = frame_index st))
           (motion_ranges st)).
  { eapply Forall_impl; [exact Hr|]. intros r (? & ? & ? & ? & ?).
    unfold scored. repeat split; try done; try lia.
    left. repeat split; (done || lia). }
  unfold close_open_range. destruct (current_motion_start st) as [s|] eqn:E;
    [|done].
  apply Forall_app. split; [done|]. apply Forall_singleton.
  destruct (Hc s eq_refl) as (? & ? & ?). unfold scored. simpl.
  repeat split; try done; try lia; right; lia.
Qed.

Lemma final_state_ranges (self : MotionDetector) (video : Video)
    (progress_callback : option Progress) (stop_check : option StopCheck) :
  0 < frame_skip ->
  let st := final_state self video roi frame_skip progress_callback
                        stop_check in
  Forall (fun r => sampled frame_skip r.1 /\ frame_skip <= r.1 /\ r.1 <= r.2 /\
                   (sampled frame_skip (r.2 + 1) \/ r.2 + 1 = frame_index st))
         (close_open_range st).
Proof.
  intros Hfs st.
  eapply Forall_impl;
    [exact (final_state_scored self video progress_callback stop_check Hfs)|].
  fold st. intros r ([_ ?] & ? & ? & [[_ ?]|?]); auto.
Qed.

(** The number of frames read: at most those of the stream, every poll
    before it answered false, and with a step that is not zero and
    callbacks that do not raise it is the length of the stream unless the
    poll made at that count answered true. *)
Lemma frames_read_bounds (self : MotionDetector) (video : Video)
    (progress_callback : option Progress) (stop_check : option StopCheck) :
  0 <= frames_read self video roi frame_skip progress_callback stop_check
    <= Z.of_nat (length (frames video)) /\
  (forall k,
     0 <= k < frames_read self video roi frame_skip progress_callback
                          stop_check ->
     polled stop_check k = false).
Proof.
  unfold frames_read, final_state.
  destruct (analysis_loop_index stop_check (frame_count video)
              progress_callback (frames video) (start_analysis (reset self)))
    as [Hle Hp].
  simpl in Hle, Hp. split; [lia|done].
Qed.

Lemma frames_read_end (self : MotionDetector) (video : Video)
    (progress_callback : option Progress) (stop_check : option StopCheck) :
  frame_skip <> 0 ->
  (forall a b, call progress_callback a b = Ok tt) ->
  frames_read self video roi frame_skip progress_callback stop_check
    = Z.of_nat (length (frames video)) \/
  polled stop_check
    (frames_read self video roi frame_skip progress_callback stop_check)
    = true.
Proof.
  intros Hfs Hcb. unfold frames_read, final_state.
  destruct (analysis_loop_completes stop_check (frame_count video)
              progress_callback (frames video) (start_analysis (reset self))
              Hfs Hcb) as [_ [H|H]]; [left|by right].
  rewrite H. simpl. lia.
Qed.

(** When every frame gives a degenerate region no range is ever opened. *)
Lemma final_state_idle (self : MotionDetector) (video : Video)
    (progress_callback : option Progress) (stop_check : option StopCheck) :
  Forall (fun frame => degenerate_on frame roi = true) (frames video) ->
  idle (final_state self video roi frame_skip progress_callback stop_check).
Proof.
  intros Hdeg. unfold final_state. apply analysis_loop_preserves; [| |done].
  - intros frame st Hin [Hcur Hr] _. rewrite Forall_forall in Hdeg.
    unfold score_frame. rewrite detect_motion_degenerate by by apply Hdeg.
    unfold detected. simpl. by rewrite Hcur.
  - by intros st [Hcur Hr].
Qed.

End AnalysisFacts.

(** C2 as stated fails on the code: with every second frame sampled, a
    range opened on frame 2 and closed by the sample of frame 4 ends on
    frame 3, which was skipped. *)
Lemma tracked_end_between_samples :
  ~ (forall ranges,
       (tracked_ranges Uniform.new_detector
          (Uniform.video_of 10 5
             [Uniform.image 0; Uniform.image 0; Uniform.image 200;
              Uniform.image 200; Uniform.image 200])
          (0, 0, 100, 100) 2 None None).2 = Ok ranges ->
       Forall (fun r => sampled 2 r.1 /\ sampled 2 r.2) ranges).
Proof.
  intros H. specialize (H [(2, 3)] eq_refl).
  apply Forall_cons in H as [[_ H] _]. by vm_compute in H.
Qed.

(** C2, amended.  When a range is open and a sampled frame reports no
    motion, the range emitted is [(open_start, i - 1)] for [i] the index of
    that frame; a range still open when the loop ends, at the end of the
    stream or at a poll that answers true, is emitted last and closed at
    the last frame read, index [frames_read - 1].  Hence, for every
    [frame_skip >= 1], every emitted range starts on the index of a frame
    that was scored, and ends on the index just before such a frame or on
    the last frame read; with [frame_skip = 1] that is the index of a
    scored frame.  The number of frames read is the length of the stream
    or the first count at which the poll answers true. *)
Theorem tracked_boundaries `{cv : CV} (self : MotionDetector) (video : Video)
    (roi : Roi) (frame_skip : Z) (progress_callback : option Progress)
    (stop_check : option StopCheck) :
  0 < frame_skip ->
  (forall a b, call progress_callback a b = Ok tt) ->
  (forall frame st s,
     current_motion_start st = Some s ->
     detected (detect_motion (detector st) frame (Some roi)).2 = false ->
     motion_ranges (score_frame roi frame st)
       = motion_ranges st ++ [(s, frame_index st - 1)]) /\
  (0 <= frames_read self video roi frame_skip progress_callback stop_check
     <= Z.of_nat (length (frames video)) /\
   (forall k,
      0 <= k < frames_read self video roi frame_skip progress_callback
                           stop_check ->
      polled stop_check k = false) /\
   (frames_read self video roi frame_skip progress_callback stop_check
      = Z.of_nat (length (frames video)) \/
    polled stop_check
      (frames_read self video roi frame_skip progress_callback stop_check)
      = true)) /\
  exists ranges,
    (tracked_ranges self video roi frame_skip progress_callback stop_check).2
      = Ok ranges /\
    (forall s,
       current_motion_start
         (final_state self video roi frame_skip progress_callback stop_check)
         = Some s ->
       ranges
         = motion_ranges
             (final_state self video roi frame_skip progress_callback
                          stop_check)
           ++ [(s, frames_read self video roi frame_skip progress_callback
                               stop_check - 1)]) /\
    Forall (fun r =>
              scored frame_skip
                (frames_read self video roi frame_skip progress_callback
                             stop_check) r.1 /\
              r.1 <= r.2 /\
              (scored frame_skip
                 (frames_read self video roi frame_skip progress_callback
                              stop_check) (r.2 + 1) \/
               r.2 + 1 = frames_read self video roi frame_skip
                                     progress_callback stop_check) /\
              (frame_skip = 1 ->
               scored frame_skip
                 (frames_read self video roi frame_skip progress_callback
                              stop_check) r.2))
           ranges.
Proof.
  intros Hfs Hcb. split.
  { intros frame st s Hs Hd. by apply score_frame_closes. }
  split.
  { destruct (frames_read_bounds roi frame_skip self video progress_callback
                stop_check) as [Hle Hp].
    split; [done|]. split; [done|].
    apply frames_read_end; [lia|done]. }
  pose proof (final_state_scored roi frame_skip self video progress_callback
                stop_check Hfs) as Hr.
  unfold frames_read, final_state, tracked_ranges in *.
  destruct (analysis_loop_completes roi frame_skip stop_check
              (frame_count video) progress_callback (frames video)
              (start_analysis (reset self)) ltac:(lia) Hcb) as [Hok _].
  destruct (analysis_loop _ _ _ _ _ _ _) as [st res]. simpl in *. subst res.
  exists (close_open_range st). split; [done|]. split.
  { intros s Hs. unfold close_open_range. by rewrite Hs. }
  eapply Forall_impl; [exact Hr|]. intros r (Hs & Hge & Hle & He).
  split; [done|]. split; [done|]. split; [done|].
  intros ->. destruct Hs as [Hs _]. unfold scored, sampled.
  split; [|apply Z.mod_1_r].
  destruct He as [[He _]|He]; lia.
Qed.

Lemma tracked_boundaries_witness :
  (forall frame st s,
     current_motion_start st = Some s ->
     detected (detect_motion (detector st) frame (Some (0, 0, 100, 100))).2
       = false ->
     motion_ranges (score_frame (0, 0, 100, 100) frame st)
       = motion_ranges st ++ [(s, frame_index st - 1)]) /\
  (0 <= frames_read Uniform.new_detector stopped_video (0, 0, 100, 100) 3
                    None (stop_after 5)
     <= Z.of_nat (length (frames stopped_video)) /\
   (forall k,
      0 <= k < frames_read Uniform.new_detector stopped_video
                           (0, 0, 100, 100) 3 None (stop_after 5) ->
      polled (stop_after 5) k = false) /\
   (frames_read Uniform.new_detector stopped_video (0, 0, 100, 100) 3 None
                (stop_after 5)
      = Z.of_nat (length (frames stopped_video)) \/
    polled (stop_after 5)
      (frames_read Uniform.new_detector stopped_video (0, 0, 100, 100) 3
                   None (stop_after 5))
      = true)) /\
  exists ranges,
    (tracked_ranges Uniform.new_detector stopped_video (0, 0, 100, 100) 3
                    None (stop_after 5)).2
      = Ok ranges /\
    (forall s,
       current_motion_start
         (final_state Uniform.new_detector stopped_video (0, 0, 100, 100) 3
                      None (stop_after 5))
         = Some s ->
       ranges
         = motion_ranges
             (final_state Uniform.new_detector stopped_video
                          (0, 0, 100, 100) 3 None (stop_after 5))
           ++ [(s, frames_read Uniform.new_detector stopped_video
                               (0, 0, 100, 100) 3 None (stop_after 5) - 1)]) /\
    Forall (fun r =>
              scored 3
                (frames_read Uniform.new_detector stopped_video
                             (0, 0, 100, 100) 3 None (stop_after 5)) r.1 /\
              r.1 <= r.2 /\
              (scored 3
                 (frames_read Uniform.new_detector stopped_video
                              (0, 0, 100, 100) 3 None (stop_after 5))
                 (r.2 + 1) \/
               r.2 + 1 = frames_read Uniform.new_detector stopped_video
                                     (0, 0, 100, 100) 3 None (stop_after 5)) /\
              (3 = 1 ->
               scored 3
                 (frames_read Uniform.new_detector stopped_video
                              (0, 0, 100, 100) 3 None (stop_after 5)) r.2))
           ranges.
Proof.
  apply (tracked_boundaries Uniform.new_detector stopped_video
           (0, 0, 100, 100) 3 None (stop_after 5)).
  - lia.
  - reflexivity.
Defined.

(** A run that is stopped when five frames have been read, with every
    third frame sampled and motion from frame 3 on: the range opened on
    frame 3 is closed on frame 4, the last one read. *)
Example tracked_stopped_run :
  frames_read Uniform.new_detector stopped_video (0, 0, 100, 100) 3 None
              (stop_after 5) = 5 /\
  (tracked_ranges Uniform.new_detector stopped_video (0, 0, 100, 100) 3 None
                  (stop_after 5)).2 = Ok [(3, 4)] /\
  (tracked_ranges Uniform.new_detector stopped_video (0, 0, 100, 100) 3 None
                  None).2 = Ok [(3, 7)].
Proof. vm_compute. repeat split. Qed.

Section AnalyzeFacts.
Context `{cv : CV}.

Lemma analyze_opened (disk : Disk) (self : MotionDetector) (path : string)
    (roi : Roi) (frame_skip : Z) (gap : Q) (cb : option Progress)
    (stop : option StopCheck) (video : Video) :
  videos disk !! path = Some video ->
  (analyze_video_for_motion disk self path roi frame_skip gap cb stop).2
    = (tracked ← (tracked_ranges self video roi frame_skip cb stop).2;
       Merger._merge_ranges tracked (fps video) gap).
Proof.
  intros H. unfold analyze_video_for_motion. rewrite H.
  by destruct (tracked_ranges _ _ _ _ _ _) as [d r].
Qed.

Lemma analyze_unopened (disk : Disk) (self : MotionDetector) (path : string)
    (roi : Roi) (frame_skip : Z) (gap : Q) (cb : option Progress)
    (stop : option StopCheck) :
  videos disk !! path = None ->
  (analyze_video_for_motion disk self path roi frame_skip gap cb stop).2
    = Raise (ValueError "Could not open video").
Proof. intros H. unfold analyze_video_for_motion. by rewrite H. Qed.

(** Every range the analysis returns starts at the second sampled frame or
    later. *)
Lemma analyze_starts (disk : Disk) (self : MotionDetector) (path : string)
    (roi : Roi) (frame_skip : Z) (gap : Q) (cb : option Progress)
    (stop : option StopCheck) (ranges : list Range) :
  0 < frame_skip ->
  (analyze_video_for_motion disk self path roi frame_skip gap cb stop).2
    = Ok ranges ->
  Forall (fun r => frame_skip <= r.1) ranges.
Proof.
  intros Hfs. destruct (videos disk !! path) as [video|] eqn:Hv.
  - rewrite (analyze_opened _ _ _ _ _ _ _ _ video Hv).
    destruct (tracked_ranges _ _ _ _ _ _).2 as [tracked|e] eqn:Ht; [|done].
    simpl. apply tracked_ranges_final in Ht. subst tracked.
    apply (merge_ranges_starts (fun s => frame_skip <= s)).
    eapply Forall_impl;
      [exact (final_state_ranges roi frame_skip self video cb stop Hfs)|].
    simpl. intros r (? & ? & ?). done.
  - by rewrite analyze_unopened.
Qed.

(** A video whose frames all give a degenerate region yields no range,
    provided the analysis ends normally. *)
Lemma analyze_degenerate (disk : Disk) (self : MotionDetector) (path : string)
    (roi : Roi) (frame_skip : Z) (gap : Q) (cb : option Progress)
    (stop : option StopCheck) (video : Video) (ranges : list Range) :
  videos disk !! path = Some video ->
  Forall (fun frame => degenerate_on frame roi = true) (frames video) ->
  (analyze_video_for_motion disk self path roi frame_skip gap cb stop).2
    = Ok ranges ->
  ranges = [].
Proof.
  intros Hv Hdeg. rewrite (analyze_opened _ _ _ _ _ _ _ _ video Hv).
  destruct (tracked_ranges _ _ _ _ _ _).2 as [tracked|e] eqn:Ht; [|done].
  apply tracked_ranges_final in Ht.
  destruct (final_state_idle roi frame_skip self video cb stop Hdeg)
    as [Hcur Hr].
  unfold close_open_range in Ht. rewrite Hcur, Hr in Ht. subst tracked.
  simpl. by intros [= <-].
Qed.

Lemma tracked_ranges_completes (self : MotionDetector) (video : Video)
    (roi : Roi) (frame_skip : Z) (cb : option Progress)
    (stop : option StopCheck) :
  frame_skip <> 0 ->
  (forall a b, call cb a b = Ok tt) ->
  exists tracked,
    (tracked_ranges self video roi frame_skip cb stop).2 = Ok tracked.
Proof.
  intros Hfs Hcb. unfold tracked_ranges.
  destruct (analysis_loop_completes roi frame_skip stop (frame_count video) cb
              (frames video) (start_analysis (reset self)) Hfs Hcb) as [Hok _].
  destruct (analysis_loop _ _ _ _ _ _ _) as [st res]. simpl in *. subst res.
  by eexists.
Qed.

End AnalyzeFacts.

(** C5.  On a region that is not degenerate, a scorer without a reference,
    or whose reference has another shape than the crop, takes the crop as
    its reference and returns (false, 0.0).  Hence the first frame scored
    after [reset] never reports motion, and every range the analysis
    reports starts at the second sampled frame, index [frame_skip], or
    later. *)
Theorem reference_seeding `{cv : CV} :
  (forall (self : MotionDetector) (frame : Frame) (roi : Roi),
     degenerate_on frame roi = false ->
     (previous_frame self = None \/
      exists prev, previous_frame self = Some prev /\
                   shape prev <> shape (crop_of frame roi)) ->
     previous_frame (detect_motion self frame (Some roi)).1
       = Some (crop_of frame roi) /\
     (detect_motion self frame (Some roi)).2.1 = (false, 0%Q)) /\
  (forall (self : MotionDetector) (frame : Frame) (roi : option Roi),
     (detect_motion (reset self) frame roi).2.1 = (false, 0%Q)) /\
  (forall (self : MotionDetector) (video : Video) (roi : Roi) (frame_skip : Z)
          (cb : option Progress) (stop : option StopCheck),
     0 < frame_skip ->
     Forall (fun r => frame_skip <= r.1)
            (close_open_range (final_state self video roi frame_skip cb stop))) /\
  (forall (disk : Disk) (self : MotionDetector) (path : string) (roi : Roi)
          (frame_skip : Z) (gap : Q) (cb : option Progress)
          (stop : option StopCheck) (ranges : list Range),
     0 < frame_skip ->
     (analyze_video_for_motion disk self path roi frame_skip gap cb stop).2
       = Ok ranges ->
     Forall (fun r => frame_skip <= r.1) ranges).
Proof.
  repeat split.
  - by rewrite detect_motion_seeds.
  - by rewrite detect_motion_seeds.
  - intros. by apply detect_motion_unseeded.
  - intros self video roi frame_skip cb stop Hfs.
    eapply Forall_impl;
      [exact (final_state_ranges roi frame_skip self video cb stop Hfs)|].
    simpl. intros r (? & ? & ?). done.
  - intros. by eapply analyze_starts.
Qed.

(** The bound is met: with every frame sampled, a change between the
    first two frames is reported on the second. *)
Example second_sample_reports :
  (tracked_ranges Uniform.new_detector
     (Uniform.video_of 10 3
        [Uniform.image 0; Uniform.image 200; Uniform.image 200])
     (0, 0, 100, 100) 1 None None).2 = Ok [(1, 1)].
Proof. vm_compute. reflexivity. Qed.

Lemma reference_seeding_witness :
  (previous_frame
     (detect_motion Uniform.new_detector (Uniform.image 0)
                    (Some (0, 0, 100, 100))).1
     = Some (crop_of (Uniform.image 0) (0, 0, 100, 100)) /\
   (detect_motion Uniform.new_detector (Uniform.image 0)
                  (Some (0, 0, 100, 100))).2.1 = (false, 0%Q)) /\
  (previous_frame
     (detect_motion
        (set_previous_frame Uniform.new_detector (Some (Uniform.image 7)))
        (Uniform.image 0) (Some (10, 10, 60, 40))).1
     = Some (crop_of (Uniform.image 0) (10, 10, 60, 40)) /\
   (detect_motion
      (set_previous_frame Uniform.new_detector (Some (Uniform.image 7)))
      (Uniform.image 0) (Some (10, 10, 60, 40))).2.1 = (false, 0%Q)) /\
  Forall (fun r => 2 <= r.1)
         (close_open_range
            (final_state Uniform.new_detector
               (Uniform.video_of 10 5
                  [Uniform.image 0; Uniform.image 0; Uniform.image 200;
                   Uniform.image 200; Uniform.image 200])
               (0, 0, 100, 100) 2 None None)) /\
  Forall (fun r => 2 <= r.1) [(2, 3)].
Proof.
  pose proof (@reference_seeding Uniform.cv) as (H1 & _ & H3 & H4).
  split; [|split; [|split]].
  - apply H1; [reflexivity|]. left. reflexivity.
  - apply H1; [reflexivity|]. right. exists (Uniform.image 7).
    split; [reflexivity|]. vm_compute. discriminate.
  - apply H3. lia.
  - apply (H4 (Uniform.disk_of
                 [("a.mp4",
                   Uniform.video_of 10 5
                     [Uniform.image 0; Uniform.image 0; Uniform.image 200;
                      Uniform.image 200; Uniform.image 200])])
              Uniform.new_detector "a.mp4" (0, 0, 100, 100) 2 10%Q None None).
    + lia.
    + vm_compute. reflexivity.
Defined.

(** * Drivers on a degenerate rectangle *)

Section DegenerateFacts.
Context `{cv : CV}.

Lemma analysis_progress_silent (a b : Z) :
  call (Some (analysis_progress None)) a b = Ok tt.
Proof. reflexivity. Qed.

Lemma process_video_degenerate (disk : Disk) (self : VideoProcessor)
    (path : string) (roi : Roi) (cb : option StatusProgress) :
  (forall video, videos disk !! path = Some video ->
     Forall (fun frame => degenerate_on frame roi = true) (frames video)) ->
  recorded (process_video disk self path roi cb).2 = [].
Proof.
  intros Hdeg. unfold process_video.
  destruct (_stop_requested self) eqn:Hstop; [done|].
  destruct (notify cb Analyzing 0 100); [|done].
  pose proof (analyze_degenerate disk (motion_detector self) path roi
                FRAME_SKIP (merge_gap self)
                (Some (analysis_progress cb))
                (Some (is_stop_requested self))) as Han.
  destruct (videos disk !! path) as [video|] eqn:Hv.
  - specialize (Han video). 
    destruct (analyze_video_for_motion _ _ _ _ _ _ _ _) as [d [ranges|e]];
      simpl in *; [|done].
    rewrite Hstop. rewrite (Han ranges eq_refl (Hdeg video eq_refl) eq_refl).
    by destruct (notify cb NoMotion 100 100).
  - pose proof (analyze_unopened disk (motion_detector self) path roi
                  FRAME_SKIP (merge_gap self)
                  (Some (analysis_progress cb))
                  (Some (is_stop_requested self)) Hv) as Hun.
    destruct (analyze_video_for_motion _ _ _ _ _ _ _ _) as [d r].
    simpl in *. by subst r.
Qed.

Lemma process_video_degenerate_silent (disk : Disk) (self : VideoProcessor)
    (path : string) (roi : Roi) (video : Video) :
  videos disk !! path = Some video ->
  Forall (fun frame => degenerate_on frame roi = true) (frames video) ->
  (process_video disk self path roi None).2 = Ok [].
Proof.
  intros Hv Hdeg. unfold process_video.
  destruct (_stop_requested self) eqn:Hstop; [done|]. simpl.
  pose proof (analyze_degenerate disk (motion_detector self) path roi
                FRAME_SKIP (merge_gap self)
                (Some (analysis_progress None))
                (Some (is_stop_requested self)) video) as Han.
  pose proof (analyze_opened disk (motion_detector self) path roi
                FRAME_SKIP (merge_gap self)
                (Some (analysis_progress None))
                (Some (is_stop_requested self)) video Hv) as Hop.
  destruct (tracked_ranges_completes (motion_detector self) video roi
              FRAME_SKIP (Some (analysis_progress None))
              (Some (is_stop_requested self))
              ltac:(done) analysis_progress_silent) as [tracked Ht].
  rewrite Ht in Hop. simpl in Hop.
  destruct (analyze_video_for_motion _ _ _ _ _ _ _ _) as [d r].
  simpl in *. subst r.
  destruct (merge_ranges_returns tracked (fps video) (merge_gap self))
    as (out & Hout).
  rewrite Hout in *. simpl. rewrite Hstop.
  by rewrite (Han out Hv Hdeg eq_refl).
Qed.

End DegenerateFacts.

(** C7.  On a rectangle that is degenerate after normalization and
    clamping the scorer returns (false, 0.0) with the untouched frame and
    clears its reference; it has no failing path.  Hence a video on whose
    frames the rectangle is degenerate yields no range from the analysis
    and no clip from [process_video], and an empty clip list in a batch. *)
Theorem degenerate_rectangle `{cv : CV} :
  (forall (self : MotionDetector) (frame : Frame) (roi : Roi),
     degenerate_on frame roi = true ->
     detect_motion self frame (Some roi)
       = (set_previous_frame self None, (false, 0%Q, copy frame))) /\
  (forall (disk : Disk) (self : MotionDetector) (path : string) (roi : Roi)
          (frame_skip : Z) (gap : Q) (cb : option Progress)
          (stop : option StopCheck) (video : Video),
     videos disk !! path = Some video ->
     Forall (fun frame => degenerate_on frame roi = true) (frames video) ->
     frame_skip <> 0 ->
     (forall a b, call cb a b = Ok tt) ->
     (analyze_video_for_motion disk self path roi frame_skip gap cb stop).2
       = Ok []) /\
  (forall (disk : Disk) (self : VideoProcessor) (path : string) (roi : Roi)
          (video : Video),
     videos disk !! path = Some video ->
     Forall (fun frame => degenerate_on frame roi = true) (frames video) ->
     (process_video disk self path roi None).2 = Ok []) /\
  (forall (disk : Disk) (self : VideoProcessor) (path : string) (roi : Roi)
          (cb : option StatusProgress),
     (forall video, videos disk !! path = Some video ->
        Forall (fun frame => degenerate_on frame roi = true) (frames video)) ->
     recorded (process_video disk self path roi cb).2 = []).
Proof.
  split; [|split; [|split]].
  - intros. by apply detect_motion_degenerate.
  - intros disk self path roi frame_skip gap cb stop video Hv Hdeg Hfs Hcb.
    pose proof (analyze_degenerate disk self path roi frame_skip gap cb stop
                  video) as Han.
    rewrite (analyze_opened _ _ _ _ _ _ _ _ video Hv) in *.
    destruct (tracked_ranges_completes self video roi frame_skip cb stop
                Hfs Hcb) as [tracked Ht].
    rewrite Ht in *. simpl in *.
    destruct (merge_ranges_returns tracked (fps video) gap) as [out Hout].
    rewrite Hout in *. by rewrite (Han out Hv Hdeg eq_refl).
  - intros. by eapply process_video_degenerate_silent.
  - intros. by apply process_video_degenerate.
Qed.

Lemma degenerate_rectangle_witness :
  detect_motion Uniform.new_detector (Uniform.image 9) (Some (5, 5, 5, 50))
    = (set_previous_frame Uniform.new_detector None,
       (false, 0%Q, copy (Uniform.image 9))) /\
  (analyze_video_for_motion
     (Uniform.disk_of
        [("a.mp4",
          Uniform.video_of 10 3
            [Uniform.image 0; Uniform.image 200; Uniform.image 0])])
     Uniform.new_detector "a.mp4" (300, 20, 120, 60) 1 10%Q None None).2
    = Ok [] /\
  (process_video
     (Uniform.disk_of
        [("a.mp4",
          Uniform.video_of 10 3
            [Uniform.image 0; Uniform.image 200; Uniform.image 0])])
     Uniform.new_processor "a.mp4" (300, 20, 120, 60) None).2 = Ok [] /\
  recorded
    (process_video
       (Uniform.disk_of
          [("a.mp4",
            Uniform.video_of 10 3
              [Uniform.image 0; Uniform.image 200; Uniform.image 0])])
       Uniform.new_processor "a.mp4" (300, 20, 120, 60) None).2 = [].
Proof.
  pose proof (@degenerate_rectangle Uniform.cv) as (H1 & H2 & H3 & H4).
  split; [|split; [|split]].
  - apply H1. reflexivity.
  - apply (H2 _ _ _ _ _ _ _ _
              (Uniform.video_of 10 3
                 [Uniform.image 0; Uniform.image 200; Uniform.image 0])).
    + vm_compute. reflexivity.
    + repeat constructor.
    + lia.
    + reflexivity.
  - apply (H3 _ _ _ _
              (Uniform.video_of 10 3
                 [Uniform.image 0; Uniform.image 200; Uniform.image 0])).
    + vm_compute. reflexivity.
    + repeat constructor.
  - apply H4. intros video Hv. vm_compute in Hv. injection Hv as <-.
    repeat constructor.
Defined.

(** * Clip exporter *)

Lemma py_int_floor (q : Q) : (0 <= q)%Q -> py_int q = Qfloor q /\ 0 <= py_int q.
Proof.
  destruct q as [n d]. unfold Qle, py_int, Qfloor. simpl. intros Hn.
  assert (0 <= n) by lia.
  rewrite Z.quot_div_nonneg by lia. split; [done|].
  apply Z.div_pos; lia.
Qed.

(** C3.  For a segment inside the stream and paddings that are not
    negative, at a frame rate that is not negative, the exporter's window
    is [max(0, start - floor(padding_before * fps))] to
    [min(total_frames - 1, end + floor(padding_after * fps))], and
    [0 <= actual_start <= actual_end <= total_frames - 1]. *)
Theorem padded_window_bounds `{cv : CV} (self : VideoProcessor) (video : Video)
    (start_frame end_frame : Z) :
  0 <= start_frame -> start_frame <= end_frame ->
  end_frame <= frame_count video - 1 ->
  (0 <= padding_before self)%Q -> (0 <= padding_after self)%Q ->
  (0 <= fps video)%Q ->
  actual_start self video start_frame
    = Z.max 0 (start_frame - Qfloor (padding_before self * fps video)) /\
  actual_end self video end_frame
    = Z.min (frame_count video - 1)
            (end_frame + Qfloor (padding_after self * fps video)) /\
  0 <= actual_start self video start_frame /\
  actual_start self video start_frame <= actual_end self video end_frame /\
  actual_end self video end_frame <= frame_count video - 1.
Proof.
  intros Hs Hse He Hb Ha Hf.
  destruct (py_int_floor (padding_before self * fps video)) as [Eb Hb'];
    [by apply Qmult_le_0_compat|].
  destruct (py_int_floor (padding_after self * fps video)) as [Ea Ha'];
    [by apply Qmult_le_0_compat|].
  unfold actual_start, actual_end, padding_frames_before, padding_frames_after.
  rewrite <- Eb, <- Ea. repeat split; lia.
Qed.

Lemma padded_window_bounds_witness :
  actual_start Uniform.new_processor
      (Uniform.video_of 10 100 (replicate 100 (Uniform.image 0))) 10
    = Z.max 0 (10 - Qfloor (2 * 10)) /\
  actual_end Uniform.new_processor
      (Uniform.video_of 10 100 (replicate 100 (Uniform.image 0))) 30
    = Z.min (100 - 1) (30 + Qfloor (2 * 10)) /\
  0 <= actual_start Uniform.new_processor
         (Uniform.video_of 10 100 (replicate 100 (Uniform.image 0))) 10 /\
  actual_start Uniform.new_processor
      (Uniform.video_of 10 100 (replicate 100 (Uniform.image 0))) 10
    <= actual_end Uniform.new_processor
         (Uniform.video_of 10 100 (replicate 100 (Uniform.image 0))) 30 /\
  actual_end Uniform.new_processor
      (Uniform.video_of 10 100 (replicate 100 (Uniform.image 0))) 30
    <= 100 - 1.
Proof.
  apply (padded_window_bounds Uniform.new_processor
           (Uniform.video_of 10 100 (replicate 100 (Uniform.image 0))) 10 30);
    simpl; try lia; unfold Qle; simpl; lia.
Defined.

(** The write loop copies the first [remaining] frames of the capture, or
    all of them when there are fewer. *)
Lemma write_frames_take `{cv : CV} (cb : option Progress) (frames_to_write : Z)
    (remaining : nat) (cap : Capture) (written : list Frame) :
  (forall a b, call cb a b = Ok tt) ->
  write_frames cb frames_to_write remaining cap written
    = Ok (written ++ take remaining cap).
Proof.
  intros Hcb. revert cap written.
  induction remaining as [|n IH]; intros cap written; simpl.
  - by rewrite app_nil_r.
  - destruct cap as [|frame cap]; simpl; [by rewrite app_nil_r|].
    rewrite Hcb. simpl. rewrite IH. by rewrite <- (assoc_L (++)).
Qed.

(** C4.  For every openable source and window with
    [actual_start <= actual_end], the exporter returns normally and the
    number of frames it writes is the smaller of
    [actual_end - actual_start + 1] and the number of frames the stream
    still holds from [actual_start] on; the frames are those, in order. *)
Theorem export_writes_min `{cv : CV} (disk : Disk) (self : VideoProcessor)
    (video_path : string) (start_frame end_frame : Z)
    (output_name : option string) (cb : option Progress) (video : Video) :
  videos disk !! video_path = Some video ->
  actual_start self video start_frame <= actual_end self video end_frame ->
  (output_name = None -> Qeq_bool (fps video) 0 = false) ->
  (forall a b, call cb a b = Ok tt) ->
  exists output_path written,
    export_clip disk self video_path start_frame end_frame output_name cb
      = Ok (output_path, written) /\
    Z.of_nat (length written)
      = Z.min (actual_end self video end_frame
               - actual_start self video start_frame + 1)
              (frames_available video (actual_start self video start_frame)) /\
    written
      = take (Z.to_nat (actual_end self video end_frame
                        - actual_start self video start_frame + 1))
             (cap_seek video (actual_start self video start_frame)).
Proof.
  intros Hv Hwin Hname Hcb. unfold export_clip. rewrite Hv.
  set (a := actual_start self video start_frame) in *.
  set (e := actual_end self video end_frame) in *.
  assert (exists name,
    match output_name with
    | Some name => Ok name
    | None =>
        if Qeq_bool (fps video) 0 then Raise ZeroDivisionError
        else Ok (clip_name disk video_path (inject_Z a / fps video)
                           (inject_Z e / fps video))
    end = Ok name) as [name ->].
  { destruct output_name as [name|]; [by exists name|].
    rewrite Hname by done. by eexists. }
  simpl. rewrite write_frames_take by done. simpl.
  eexists _, _. split; [done|]. split; [|done].
  unfold frames_available. rewrite length_take. lia.
Qed.

Lemma export_writes_min_witness :
  exists output_path written,
    export_clip
      (Uniform.disk_of
         [("a.mp4", Uniform.video_of 10 40 (replicate 25 (Uniform.image 0)))])
      Uniform.new_processor "a.mp4" 12 18 None None
      = Ok (output_path, written) /\
    Z.of_nat (length written)
      = Z.min (actual_end Uniform.new_processor
                 (Uniform.video_of 10 40 (replicate 25 (Uniform.image 0))) 18
               - actual_start Uniform.new_processor
                   (Uniform.video_of 10 40 (replicate 25 (Uniform.image 0))) 12
               + 1)
              (frames_available
                 (Uniform.video_of 10 40 (replicate 25 (Uniform.image 0)))
                 (actual_start Uniform.new_processor
                    (Uniform.video_of 10 40 (replicate 25 (Uniform.image 0)))
                    12)) /\
    written
      = take (Z.to_nat
                (actual_end Uniform.new_processor
                   (Uniform.video_of 10 40 (replicate 25 (Uniform.image 0))) 18
                 - actual_start Uniform.new_processor
                     (Uniform.video_of 10 40 (replicate 25 (Uniform.image 0)))
                     12
                 + 1))
             (cap_seek
                (Uniform.video_of 10 40 (replicate 25 (Uniform.image 0)))
                (actual_start Uniform.new_processor
                   (Uniform.video_of 10 40 (replicate 25 (Uniform.image 0)))
                   12)).
Proof.
  apply (export_writes_min _ _ _ _ _ _ _
           (Uniform.video_of 10 40 (replicate 25 (Uniform.image 0)))).
  - vm_compute. reflexivity.
  - vm_compute. discriminate.
  - intros _. reflexivity.
  - reflexivity.
Defined.

(** A stream that ends before the window does: 25 frames behind a
    header announcing 40, window 0 to 38. *)
Example export_short_stream :
  match export_clip
          (Uniform.disk_of
             [("a.mp4",
               Uniform.video_of 10 40 (replicate 25 (Uniform.image 0)))])
          Uniform.new_processor "a.mp4" 12 18 None None with
  | Ok (_, written) => length written
  | Raise _ => 0%nat
  end = 25%nat.
Proof. vm_compute. reflexivity. Qed.

(** * Batches *)

Section BatchFacts.
Context `{cv : CV}.

Lemma detect_motion_settings (self : MotionDetector) (frame : Frame)
    (roi : option Roi) :
  reset (detect_motion self frame roi).1 = reset self.
Proof.
  unfold detect_motion.
  destruct (region_of _ _) as [[roi_gray box]|]; [|done].
  destruct (previous_frame self); [|done]. by case_decide.
Qed.

Lemma score_frame_detector (roi : Roi) (frame : Frame) (st : Analysis) :
  detector (score_frame roi frame st)
    = (detect_motion (detector st) frame (Some roi)).1.
Proof.
  unfold score_frame. destruct (detect_motion _ _ _) as [self sample].
  destruct (detected sample); [done|]. by destruct (current_motion_start st).
Qed.

(** The analysis starts from [reset self], so only the settings of the
    detector it is given matter, and it leaves them as they are. *)
Lemma analyze_reset (disk : Disk) (d d' : MotionDetector) (path : string)
    (roi : Roi) (frame_skip : Z) (gap : Q) (cb : option Progress)
    (stop : option StopCheck) :
  reset d = reset d' ->
  analyze_video_for_motion disk d path roi frame_skip gap cb stop
    = analyze_video_for_motion disk d' path roi frame_skip gap cb stop.
Proof.
  intros H. unfold analyze_video_for_motion, tracked_ranges. by rewrite H.
Qed.

Lemma analyze_settings (disk : Disk) (d : MotionDetector) (path : string)
    (roi : Roi) (frame_skip : Z) (gap : Q) (cb : option Progress)
    (stop : option StopCheck) :
  reset (analyze_video_for_motion disk d path roi frame_skip gap cb stop).1
    = reset d.
Proof.
  unfold analyze_video_for_motion.
  destruct (videos disk !! path) as [video|]; [|done].
  unfold tracked_ranges.
  pose proof (analysis_loop_preserves roi frame_skip
                (fun st => reset (detector st) = reset d) stop
                (frame_count video) cb (frames video)) as Hinv.
  specialize (Hinv
    ltac:(intros frame st0 _ Hst _; simpl; rewrite score_frame_detector;
          by rewrite detect_motion_settings)
    ltac:(by intros st0 Hst)
    (start_analysis (reset d)) eq_refl).
  by destruct (analysis_loop _ _ _ _ _ _ _) as [st r].
Qed.

Lemma process_video_forget (disk : Disk) (a b : VideoProcessor)
    (path : string) (roi : Roi) (cb : option StatusProgress) :
  forget a = forget b ->
  (process_video disk a path roi cb).2 = (process_video disk b path roi cb).2.
Proof.
  destruct a as [ia oa pba paa ga da sa], b as [ib ob pbb pab gb db sb].
  intros H.
  pose proof (f_equal motion_detector H) as Hd.
  pose proof (f_equal _stop_requested H) as Hs.
  pose proof (f_equal merge_gap H) as Hg.
  pose proof (f_equal padding_before H) as Hpb.
  pose proof (f_equal padding_after H) as Hpa.
  pose proof (f_equal output_folder H) as Ho.
  pose proof (f_equal input_folder H) as Hi.
  simpl in *. subst. clear H.
  unfold process_video. simpl. destruct sb; [done|].
  destruct (notify cb Analyzing 0 100); [|done].
  by rewrite (analyze_reset disk da db path roi FRAME_SKIP gb _ _ Hd).
Qed.

Lemma process_video_settings (disk : Disk) (self : VideoProcessor)
    (path : string) (roi : Roi) (cb : option StatusProgress) :
  forget (process_video disk self path roi cb).1 = forget self.
Proof.
  unfold process_video. destruct (_stop_requested self); [done|].
  destruct (notify cb Analyzing 0 100); [|done].
  pose proof (analyze_settings disk (motion_detector self) path roi FRAME_SKIP
                (merge_gap self) (Some (analysis_progress cb))
                (Some (is_stop_requested self))) as Hs.
  destruct (analyze_video_for_motion _ _ _ _ _ _ _ _) as [d r]. simpl in *.
  unfold forget, set_motion_detector. simpl. by rewrite Hs.
Qed.

Lemma forget_stop (a b : VideoProcessor) :
  forget a = forget b -> _stop_requested a = _stop_requested b.
Proof. intros H. by apply (f_equal _stop_requested) in H. Qed.

(** While no stop is requested and the announcement of a video does not
    raise, the batch loop ends normally with the dictionary of
    [batch_record]. *)
Lemma batch_loop_record (disk : Disk) (self0 : VideoProcessor) (roi : Roi)
    (cb : option BatchProgress) (n : Z) (pending : list string) :
  _stop_requested self0 = false ->
  (forall i name,
     notify_batch cb (ProcessingVideo (i + 1) n) i n name = Ok tt) ->
  forall (i : Z) (self : VideoProcessor) (results : gmap string (list string)),
    forget self = forget self0 ->
    (batch_loop disk self roi cb n i pending results).2
      = Ok (batch_record disk self0 roi cb n i pending results).
Proof.
  intros Hstop Hcb.
  induction pending as [|p pending IH]; intros i self results Hf; simpl;
    [done|].
  rewrite (forget_stop _ _ Hf), Hstop, Hcb.
  pose proof (process_video_forget disk self self0 p roi
                (Some (video_progress cb i n (basename disk p))) Hf) as Hr.
  pose proof (process_video_settings disk self p roi
                (Some (video_progress cb i n (basename disk p)))) as Hs.
  destruct (process_video disk self p roi _) as [self' r]. simpl in *.
  rewrite Hr. apply IH. by rewrite Hs.
Qed.

Lemma batch_record_lookup (disk : Disk) (self : VideoProcessor) (roi : Roi)
    (cb : option BatchProgress) (n : Z) (pending : list string)
    (path : string) :
  forall (i : Z) (results : gmap string (list string)),
    (path ∈ pending ->
     exists j : nat,
       pending !! j = Some path /\
       batch_record disk self roi cb n i pending results !! path
         = Some (recorded
                   (process_video disk self path roi
                      (Some (video_progress cb (i + Z.of_nat j) n
                                            (basename disk path)))).2)) /\
    (path ∉ pending ->
     batch_record disk self roi cb n i pending results !! path
       = results !! path).
Proof.
  induction pending as [|p pending IH]; intros i results; simpl.
  - split; [by intros ?%elem_of_nil|done].
  - destruct (IH (i + 1)
                (<[p := recorded
                          (process_video disk self p roi
                             (Some (video_progress cb i n (basename disk p)))).2]>
                   results)) as [IHin IHout].
    split.
    + intros Hin. destruct (decide (path ∈ pending)) as [Hp|Hp].
      * destruct (IHin Hp) as (j & Hj & Hl). exists (S j). split; [done|].
        rewrite Hl. by replace (i + 1 + Z.of_nat j) with (i + Z.of_nat (S j))
          by lia.
      * apply elem_of_cons in Hin as [->|Hin]; [|done].
        exists 0%nat. split; [done|]. rewrite (IHout Hp).
        rewrite lookup_insert_eq.
        by replace (i + Z.of_nat 0) with i by lia.
    + intros Hout. apply not_elem_of_cons in Hout as [Hne Hout].
      rewrite (IHout Hout). by rewrite lookup_insert_ne.
Qed.

End BatchFacts.

(** C9.  While no stop is requested, [process_all_videos] records every
    listed video and ends normally: the entry of a video is the clip list
    [process_video] returns for it, and the empty list when
    [process_video] raises, as it does on a source that cannot be opened;
    the videos after a failing one are processed all the same. *)
Theorem batch_survives_failures `{cv : CV} (disk : Disk)
    (self : VideoProcessor) (roi : Roi) (cb : option BatchProgress) :
  _stop_requested self = false ->
  (forall i n name,
     notify_batch cb (ProcessingVideo (i + 1) n) i n name = Ok tt) ->
  exists results,
    (process_all_videos disk self roi cb).2 = Ok results /\
    (forall path, path ∈ video_files_in disk (input_folder self) ->
       exists j : nat,
         video_files_in disk (input_folder self) !! j = Some path /\
         results !! path
           = Some (recorded
                     (process_video disk self path roi
                        (Some (video_progress cb (Z.of_nat j)
                                 (Z.of_nat (length (video_files_in disk
                                                      (input_folder self))))
                                 (basename disk path)))).2)) /\
    (forall path, path ∈ video_files_in disk (input_folder self) ->
       videos disk !! path = None -> results !! path = Some []) /\
    (forall path, path ∉ video_files_in disk (input_folder self) ->
       results !! path = None).
Proof.
  intros Hstop Hcb. unfold process_all_videos.
  set (files := video_files_in disk (input_folder self)).
  set (n := Z.of_nat (length files)).
  assert (Hloop : (match files with
                   | [] => (self, Ok ∅)
                   | _ :: _ => batch_loop disk self roi cb n 0 files ∅
                   end).2 = Ok (batch_record disk self roi cb n 0 files ∅)).
  { destruct files as [|p files'] eqn:E; [done|].
    by apply batch_loop_record. }
  exists (batch_record disk self roi cb n 0 files ∅). split; [exact Hloop|].
  assert (Hin : forall path, path ∈ files ->
            exists j : nat, files !! j = Some path /\
              batch_record disk self roi cb n 0 files ∅ !! path
                = Some (recorded
                          (process_video disk self path roi
                             (Some (video_progress cb (Z.of_nat j) n
                                      (basename disk path)))).2)).
  { intros path Hp.
    destruct (batch_record_lookup disk self roi cb n files path 0 ∅)
      as [Hl _]. exact (Hl Hp). }
  split; [exact Hin|]. split.
  - intros path Hp Hv. destruct (Hin path Hp) as (j & _ & ->). f_equal.
    apply (process_video_degenerate disk self path roi).
    intros video Hvideo. by rewrite Hv in Hvideo.
  - intros path Hp.
    destruct (batch_record_lookup disk self roi cb n files path 0 ∅)
      as [_ Hl]. by rewrite (Hl Hp).
Qed.

Example sample_batch_failures :
  (process_video sample_batch Uniform.new_processor "a.mp4" (0, 0, 100, 100)
                 None).2 = Raise (ValueError "Could not open video") /\
  (process_video sample_batch Uniform.new_processor "b.mp4" (0, 0, 100, 100)
                 None).2 = Raise ZeroDivisionError.
Proof. split; vm_compute; reflexivity. Qed.

Example sample_batch_results :
  (process_all_videos sample_batch Uniform.new_processor (0, 0, 100, 100)
                      None).2
  = Ok (<["c.mp4" := ["output_clips/c.mp4_motion.mp4"]]>
          (<["b.mp4" := []]> (<["a.mp4" := []]> ∅))).
Proof. vm_compute. reflexivity. Qed.

Lemma batch_survives_failures_witness :
  exists results,
    (process_all_videos sample_batch Uniform.new_processor (0, 0, 100, 100)
                        None).2 = Ok results /\
    (forall path,
       path ∈ video_files_in sample_batch (input_folder Uniform.new_processor) ->
       exists j : nat,
         video_files_in sample_batch (input_folder Uniform.new_processor) !! j
           = Some path /\
         results !! path
           = Some (recorded
                     (process_video sample_batch Uniform.new_processor path
                        (0, 0, 100, 100)
                        (Some (video_progress None (Z.of_nat j)
                                 (Z.of_nat
                                    (length
                                       (video_files_in sample_batch
                                          (input_folder Uniform.new_processor))))
                                 (basename sample_batch path)))).2)) /\
    (forall path,
       path ∈ video_files_in sample_batch (input_folder Uniform.new_processor) ->
       videos sample_batch !! path = None -> results !! path = Some []) /\
    (forall path,
       path ∉ video_files_in sample_batch (input_folder Uniform.new_processor) ->
       results !! path = None).
Proof.
  apply (batch_survives_failures sample_batch Uniform.new_processor
           (0, 0, 100, 100) None).
  - reflexivity.
  - reflexivity.
Defined.

(** * Range merger: further properties *)

Section MergerMore.
Import Merger.

Lemma merge_ranges_sweep_all (ranges : list Range) (fps g : Q) :
  _merge_ranges ranges fps g
    = Ok (sweep_all (gap_frames fps g) (py_sorted fst ranges)).
Proof.
  destruct ranges as [|r ranges]; [done|].
  destruct (merge_ranges_sweep r ranges fps g) as (first & tail & Hs & ->).
  by rewrite Hs.
Qed.

Lemma sweep_length (gap : Z) (rest : list Range) (cur : Range) :
  (1 <= length (sweep gap cur rest) <= S (length rest))%nat.
Proof.
  revert cur. induction rest as [|[s e] rest IH]; intros cur; simpl; [lia|].
  destruct (s - cur.2 <=? gap).
  - specialize (IH (cur.1, Z.max cur.2 e)). lia.
  - specialize (IH (s, e)). simpl. lia.
Qed.

Lemma sweep_well_formed (gap : Z) (rest : list Range) (cur : Range) :
  Forall well_formed (cur :: rest) -> Forall well_formed (sweep gap cur rest).
Proof.
  revert cur. induction rest as [|[s e] rest IH]; intros [cs ce]; simpl; [done|].
  intros H. apply Forall_cons in H as [Hc H]. apply Forall_cons in H as [Hs H].
  unfold well_formed in *. simpl in *. destruct (s - ce <=? gap).
  - apply IH. constructor; [simpl; lia|done].
  - constructor; [done|]. apply IH. by constructor.
Qed.

Lemma sorted_ascending (l : list Range) : sorted_by_start l -> ascending l.
Proof.
  induction l as [|x l IH]; intros Hs; simpl; [done|]. split.
  - apply Forall_lookup. intros j b Hb. by apply (Hs 0%nat (S j) x b); [lia|..].
  - apply IH. intros i j a b Hij Ha Hb. apply (Hs (S i) (S j)); [lia|done|done].
Qed.

Lemma separated_gapped (gap : Z) (l : list Range) :
  gap_separated gap l -> gapped gap l.
Proof.
  induction l as [|x l IH]; intros Hg; [done|].
  destruct l as [|y l]; [done|]. split.
  - by apply (Hg 0%nat x y).
  - apply IH. intros i a b Ha Hb. by apply (Hg (S i)).
Qed.

(** X1.  Merging never adds a segment: the output has at most as many
    ranges as the input, and at least one when the input is not empty. *)
Theorem merge_no_longer (ranges : list Range) (fps g : Q) :
  exists out,
    _merge_ranges ranges fps g = Ok out /\
    (length out <= length ranges)%nat /\
    (ranges <> [] <-> out <> []).
Proof.
  rewrite merge_ranges_sweep_all. eexists. split; [done|].
  pose proof (py_sorted_perm fst ranges) as HP.
  apply Permutation_length in HP.
  destruct (py_sorted fst ranges) as [|first tail] eqn:E; simpl in *.
  - destruct ranges; [|done]. split; [lia|]. by split.
  - pose proof (sweep_length (gap_frames fps g) tail first) as Hl.
    unfold Range in *. split; [lia|]. destruct ranges; [done|].
    split; [|done]. intros _ Hnil. rewrite Hnil in Hl. simpl in Hl. lia.
Qed.

(** X2.  Merging keeps segments well formed: when every input range has
    start <= end, so has every output range. *)
Theorem merge_keeps_well_formed (ranges : list Range) (fps g : Q) :
  Forall well_formed ranges ->
  exists out,
    _merge_ranges ranges fps g = Ok out /\ Forall well_formed out.
Proof.
  intros Hwf. rewrite merge_ranges_sweep_all. eexists. split; [done|].
  pose proof (py_sorted_perm fst ranges) as HP.
  rewrite <- HP in Hwf.
  destruct (py_sorted fst ranges) as [|first tail]; [done|].
  by apply sweep_well_formed.
Qed.

Lemma merge_keeps_well_formed_witness :
  exists out,
    _merge_ranges [(40, 45); (0, 3); (5, 6); (2, 9)] 1 1 = Ok out /\
    Forall well_formed out.
Proof.
  apply (merge_keeps_well_formed [(40, 45); (0, 3); (5, 6); (2, 9)] 1 1).
  repeat constructor; unfold well_formed; simpl; lia.
Defined.

(** X3.  The lists the merger returns unchanged are exactly those sorted
    by start whose neighbours are more than [gap_frames] apart. *)
Theorem merge_fixed_points (ranges : list Range) (fps g : Q) :
  _merge_ranges ranges fps g = Ok ranges <->
  sorted_by_start ranges /\ gap_separated (gap_frames fps g) ranges.
Proof.
  rewrite merge_ranges_sweep_all. split.
  - intros [= Heq].
    pose proof (py_sorted_ascending ranges) as Hasc.
    destruct (py_sorted fst ranges) as [|first tail] eqn:E; simpl in Heq.
    + subst ranges. by split.
    + rewrite <- Heq. split.
      * by apply ascending_sorted, sweep_ascending.
      * apply gapped_separated, sweep_gapped.
  - intros [Hs Hg]. apply sorted_ascending in Hs.
    apply separated_gapped in Hg. rewrite (py_sorted_fixed _ Hs).
    destruct ranges as [|first tail]; [done|]. simpl.
    by rewrite (sweep_fixed _ _ _ Hg).
Qed.

Lemma tie_swap_perm (l l' : list Range) : tie_swap l l' -> l ≡ₚ l'.
Proof.
  induction 1 as [a b l _|a l l' _ IH]; [apply Permutation_swap|].
  by rewrite IH.
Qed.

Lemma tie_swap_insert (x : Range) (l l' : list Range) :
  tie_swap l l' -> tie_swap (insert_by fst x l) (insert_by fst x l').
Proof.
  induction 1 as [a b l Hab|a l l' H IH]; simpl.
  - rewrite <- Hab. destruct (x.1 <=? a.1).
    + by apply tie_swap_skip, tie_swap_here.
    + by apply tie_swap_here.
  - destruct (x.1 <=? a.1); [|by apply tie_swap_skip].
    by do 2 apply tie_swap_skip.
Qed.

Lemma rtc_tie_swap_cons (a : Range) (l l' : list Range) :
  rtc tie_swap l l' -> rtc tie_swap (a :: l) (a :: l').
Proof.
  induction 1 as [|l l1 l2 H _ IH]; [done|].
  eapply rtc_l; [by apply tie_swap_skip|done].
Qed.

Lemma rtc_tie_swap_insert (x : Range) (l l' : list Range) :
  rtc tie_swap l l' ->
  rtc tie_swap (insert_by fst x l) (insert_by fst x l').
Proof.
  induction 1 as [|l l1 l2 H _ IH]; [done|].
  eapply rtc_l; [by apply tie_swap_insert|done].
Qed.

Lemma insert_insert_tie (x y : Range) (l : list Range) :
  rtc tie_swap (insert_by fst x (insert_by fst y l))
               (insert_by fst y (insert_by fst x l)).
Proof.
  induction l as [|z l IH]; simpl.
  - destruct (Z.leb_spec x.1 y.1), (Z.leb_spec y.1 x.1); try lia; try done.
    apply rtc_once, tie_swap_here. lia.
  - destruct (Z.leb_spec y.1 z.1), (Z.leb_spec x.1 z.1); simpl.
    + destruct (Z.leb_spec x.1 y.1), (Z.leb_spec y.1 x.1),
        (Z.leb_spec x.1 z.1), (Z.leb_spec y.1 z.1); try lia; try done.
      apply rtc_once, tie_swap_here. lia.
    + destruct (Z.leb_spec x.1 y.1), (Z.leb_spec y.1 z.1),
        (Z.leb_spec x.1 z.1); try lia; done.
    + destruct (Z.leb_spec y.1 x.1), (Z.leb_spec y.1 z.1),
        (Z.leb_spec x.1 z.1); try lia; done.
    + destruct (Z.leb_spec y.1 z.1), (Z.leb_spec x.1 z.1); try lia.
      by apply rtc_tie_swap_cons.
Qed.

(** Sorting two arrangements of the same ranges gives lists that differ
    only in the order of ranges with equal start. *)
Lemma py_sorted_tie (l l' : list Range) :
  l ≡ₚ l' -> rtc tie_swap (py_sorted fst l) (py_sorted fst l').
Proof.
  induction 1 as [|x l l' _ IH|x y l|l1 l2 l3 _ IH1 _ IH2]; simpl.
  - done.
  - by apply rtc_tie_swap_insert.
  - apply insert_insert_tie.
  - by etrans.
Qed.

Lemma sweep_tie (gap : Z) (rest rest' : list Range) :
  0 <= gap -> tie_swap rest rest' -> Forall well_formed rest ->
  forall cur, sweep gap cur rest = sweep gap cur rest'.
Proof.
  intros Hgap Ht. induction Ht as [[a1 a2] [b1 b2] l Hab|[a1 a2] l l' _ IH];
    intros Hwf [cs ce]; simpl in *.
  - apply Forall_cons in Hwf as [Ha Hwf]. apply Forall_cons in Hwf as [Hb _].
    unfold well_formed in *. simpl in *. subst b1.
    destruct (Z.leb_spec (a1 - ce) gap); simpl.
    + destruct (Z.leb_spec (a1 - Z.max ce a2) gap),
        (Z.leb_spec (a1 - Z.max ce b2) gap); try lia.
      by replace (Z.max (Z.max ce a2) b2) with (Z.max (Z.max ce b2) a2) by lia.
    + destruct (Z.leb_spec (a1 - a2) gap), (Z.leb_spec (a1 - b2) gap); try lia.
      by replace (Z.max a2 b2) with (Z.max b2 a2) by lia.
  - apply Forall_cons in Hwf as [_ Hwf].
    destruct (a1 - ce <=? gap); [by apply IH|]. f_equal. by apply IH.
Qed.

Lemma sweep_all_tie (gap : Z) (l l' : list Range) :
  0 <= gap -> Forall well_formed l -> rtc tie_swap l l' ->
  sweep_all gap l = sweep_all gap l'.
Proof.
  intros Hgap Hwf Hr. induction Hr as [|l l1 l2 H _ IH]; [done|].
  rewrite <- IH by (by rewrite <- (tie_swap_perm _ _ H)). clear IH.
  destruct H as [[a1 a2] [b1 b2] t Hab|a t t' H]; simpl in *.
  - apply Forall_cons in Hwf as [Ha Hwf]. apply Forall_cons in Hwf as [Hb _].
    unfold well_formed in *. simpl in *. subst b1.
    destruct (Z.leb_spec (a1 - a2) gap), (Z.leb_spec (a1 - b2) gap); try lia.
    by replace (Z.max a2 b2) with (Z.max b2 a2) by lia.
  - apply Forall_cons in Hwf as [_ Hwf]. by apply sweep_tie.
Qed.

(** X4.  For well-formed segments and a gap that is not negative the
    merger's result does not depend on the order of its input. *)
Theorem merge_order_independent (ranges ranges' : list Range) (fps g : Q) :
  0 <= gap_frames fps g ->
  Forall well_formed ranges ->
  ranges ≡ₚ ranges' ->
  _merge_ranges ranges fps g = _merge_ranges ranges' fps g.
Proof.
  intros Hgap Hwf HP. rewrite !merge_ranges_sweep_all. f_equal.
  apply sweep_all_tie; [done| |by apply py_sorted_tie].
  by rewrite py_sorted_perm.
Qed.

Lemma merge_order_independent_witness :
  _merge_ranges [(5, 9); (5, 6); (0, 3)] 1 1
    = _merge_ranges [(0, 3); (5, 6); (5, 9)] 1 1.
Proof.
  apply (merge_order_independent [(5, 9); (5, 6); (0, 3)]
                                 [(0, 3); (5, 6); (5, 9)] 1 1).
  - vm_compute. discriminate.
  - repeat constructor; unfold well_formed; simpl; lia.
  - etrans; [apply Permutation_swap|]. etrans; [apply perm_skip, Permutation_swap|].
    apply Permutation_swap.
Defined.

End MergerMore.

(** Without well-formed segments the order of ties can matter. *)
Example merge_order_ill_formed :
  Merger._merge_ranges [(5, 0); (5, 100)] 1 0 = Ok [(5, 0); (5, 100)] /\
  Merger._merge_ranges [(5, 100); (5, 0)] 1 0 = Ok [(5, 100)].
Proof. split; reflexivity. Qed.

(** * Motion scorer: further properties *)

(** X5.  Whatever it reports, the scorer leaves as its reference the region
    it has just scored: the crop of the frame for a rectangle that is not
    degenerate, the whole blurred frame without a rectangle, and nothing
    for a degenerate one; its three settings stay as they were. *)
Theorem reference_follows_frame `{cv : CV} (self : MotionDetector)
    (frame : Frame) (roi : option Roi) :
  previous_frame (detect_motion self frame roi).1
    = match roi with
      | Some r => if degenerate_on frame r then None
                  else Some (crop_of frame r)
      | None => Some (gray_of frame)
      end /\
  threshold (detect_motion self frame roi).1 = threshold self /\
  min_contour_area (detect_motion self frame roi).1 = min_contour_area self /\
  sensitivity (detect_motion self frame roi).1 = sensitivity self.
Proof.
  unfold detect_motion. destruct roi as [r|].
  - destruct (degenerate_on frame r) eqn:Hd.
    + by rewrite region_of_degenerate.
    + rewrite region_of_crop by done.
      destruct (previous_frame self); [|done]. by case_decide.
  - simpl. destruct (previous_frame self); [|done]. by case_decide.
Qed.

(** X6.  Motion is reported only on a comparison: the scorer held a
    reference of the shape of the region, some contour of the mask has an
    area of at least [min_contour_area], and the reported fraction is at
    least [sensitivity]. *)
Theorem motion_needs_both `{cv : CV} (self : MotionDetector) (frame : Frame)
    (roi : option Roi) :
  detected (detect_motion self frame roi).2 = true ->
  exists prev roi_gray box,
    previous_frame self = Some prev /\
    region_of (gray_of frame) roi = Some (roi_gray, box) /\
    shape prev = shape roi_gray /\
    (exists contour,
       contour ∈ findContours (motion_mask self prev roi_gray) /\
       (inject_Z (min_contour_area self) <= contourArea contour)%Q) /\
    (sensitivity self <= (detect_motion self frame roi).2.1.2)%Q.
Proof.
  unfold detect_motion.
  destruct (region_of (gray_of frame) roi) as [[roi_gray box]|]; [|done].
  destruct (previous_frame self) as [prev|]; [|done].
  case_decide as Hshape; [|done].
  unfold compare_frames, detected. fold (motion_mask self prev roi_gray). simpl.
  intros H. apply andb_true_iff in H as [Hsig Hsens].
  exists prev, roi_gray, box. repeat split; try done.
  - apply existsb_exists in Hsig as (c & Hc & Hcount).
    exists c. split; [by apply list_elem_of_In|]. by apply Qle_bool_iff.
  - by apply Qle_bool_iff.
Qed.

Lemma motion_needs_both_witness :
  exists prev roi_gray box,
    previous_frame
      (set_previous_frame Uniform.new_detector (Some (Uniform.image 0)))
      = Some prev /\
    region_of (gray_of (Uniform.image 200)) (Some (0, 0, 100, 100))
      = Some (roi_gray, box) /\
    shape prev = shape roi_gray /\
    (exists contour,
       contour ∈ findContours
         (motion_mask
            (set_previous_frame Uniform.new_detector (Some (Uniform.image 0)))
            prev roi_gray) /\
       (inject_Z
          (min_contour_area
             (set_previous_frame Uniform.new_detector
                                 (Some (Uniform.image 0))))
        <= contourArea contour)%Q) /\
    (sensitivity
       (set_previous_frame Uniform.new_detector (Some (Uniform.image 0)))
     <= (detect_motion
           (set_previous_frame Uniform.new_detector (Some (Uniform.image 0)))
           (Uniform.image 200) (Some (0, 0, 100, 100)%Z)).2.1.2)%Q.
Proof.
  apply (motion_needs_both
           (set_previous_frame Uniform.new_detector (Some (Uniform.image 0)))
           (Uniform.image 200) (Some (0, 0, 100, 100))).
  vm_compute. reflexivity.
Defined.

(** * Tracker: further properties *)

Section TrackerMore.
Context `{cv : CV}.
Variable roi : Roi.
Variable frame_skip : Z.

Lemma sorted_by_start_snoc (l : list Range) (x : Range) :
  sorted_by_start l -> Forall (fun r => r.1 <= x.1) l ->
  sorted_by_start (l ++ [x]).
Proof.
  intros Hs Hx i j a b Hij Ha Hb.
  assert (Hi : (i < length l)%nat).
  { apply lookup_lt_Some in Hb. rewrite length_app in Hb. simpl in Hb. lia. }
  rewrite lookup_app_l in Ha by done.
  destruct (decide (j < length l)%nat) as [Hj|Hj].
  - rewrite lookup_app_l in Hb by done. by apply (Hs i j).
  - rewrite lookup_app_r in Hb by lia.
    destruct (j - length l)%nat; [|done]. injection Hb as <-.
    rewrite Forall_lookup in Hx. by apply (Hx i).
Qed.

Lemma gap_separated_snoc (gap : Z) (l : list Range) (x : Range) :
  gap_separated gap l -> Forall (fun r => x.1 - r.2 > gap) l ->
  gap_separated gap (l ++ [x]).
Proof.
  intros Hg Hx i a b Ha Hb.
  assert (Hi : (i < length l)%nat).
  { apply lookup_lt_Some in Hb. rewrite length_app in Hb. simpl in Hb. lia. }
  rewrite lookup_app_l in Ha by done.
  destruct (decide (S i < length l)%nat) as [Hj|Hj].
  - rewrite lookup_app_l in Hb by done. by apply (Hg i).
  - rewrite lookup_app_r in Hb by lia.
    destruct (S i - length l)%nat; [|done]. injection Hb as <-.
    rewrite Forall_lookup in Hx. by apply (Hx i).
Qed.

Lemma ordering_invariant_weaken (mr : list Range) (n m : Z) :
  n <= m ->
  Forall (fun r => 0 <= r.1 /\ r.1 <= r.2 /\ r.2 < n) mr ->
  Forall (fun r => 0 <= r.1 /\ r.1 <= r.2 /\ r.2 < m) mr.
Proof.
  intros Hnm H. eapply Forall_impl; [exact H|]. simpl. intros r (? & ? & ?).
  repeat split; (done || lia).
Qed.

Lemma ordering_invariant_step (frame : Frame) (st : Analysis) :
  ordering_invariant st ->
  ordering_invariant (advance (score_frame roi frame st)).
Proof.
  intros (H0 & Hs & Hg & Hr & Hc). unfold score_frame.
  destruct (detect_motion (detector st) frame (Some roi)) as [self sample].
  destruct (detected sample).
  - split; [simpl; lia|]. split; [done|]. split; [done|]. split.
    { simpl. apply (ordering_invariant_weaken _ (frame_index st)); [lia|done]. }
    simpl. intros s Hcur.
    destruct (current_motion_start st) as [s0|] eqn:E; simplify_eq.
    + destruct (Hc s eq_refl) as (? & ? & ?). repeat split; (done || lia).
    + repeat split; try lia.
      eapply Forall_impl; [exact Hr|]. simpl. intros r (? & ? & ?). lia.
  - destruct (current_motion_start st) as [s0|] eqn:E.
    + destruct (Hc s0 eq_refl) as (Hs0 & Hlt & Hbefore).
      split; [simpl; lia|]. split; [|split; [|split; [|done]]]; simpl.
      * apply sorted_by_start_snoc; [done|].
        rewrite Forall_forall in Hr, Hbefore. apply Forall_forall.
        intros r Hin. destruct (Hr r Hin) as (? & ? & ?).
        specialize (Hbefore r Hin). simpl in *. lia.
      * apply gap_separated_snoc; [done|].
        eapply Forall_impl; [exact Hbefore|]. simpl. intros r ?. lia.
      * apply Forall_app. split.
        -- apply (ordering_invariant_weaken _ (frame_index st)); [lia|done].
        -- apply Forall_singleton. simpl. lia.
    + split; [simpl; lia|]. split; [done|]. split; [done|]. split; [|done].
      simpl. apply (ordering_invariant_weaken _ (frame_index st)); [lia|done].
Qed.

Lemma ordering_invariant_advance (st : Analysis) :
  ordering_invariant st -> ordering_invariant (advance st).
Proof.
  intros (H0 & Hs & Hg & Hr & Hc).
  split; [simpl; lia|]. split; [done|]. split; [done|]. split.
  { simpl. apply (ordering_invariant_weaken _ (frame_index st)); [lia|done]. }
  simpl. intros s Hcur. destruct (Hc s Hcur) as (? & ? & ?).
  repeat split; (done || lia).
Qed.

Lemma final_state_ordered (self : MotionDetector) (video : Video)
    (cb : option Progress) (stop : option StopCheck) :
  ordering_invariant (final_state self video roi frame_skip cb stop).
Proof.
  unfold final_state. apply analysis_loop_preserves.
  - intros frame st _ Hst _. by apply ordering_invariant_step.
  - apply ordering_invariant_advance.
  - repeat split; simpl; try done; try lia.
Qed.

(** The ranges of the final state lie within the frames read. *)
Lemma final_state_within (self : MotionDetector) (video : Video)
    (cb : option Progress) (stop : option StopCheck) :
  Forall (fun r => 0 <= r.1 /\ r.1 <= r.2 /\
                   r.2 < frames_read self video roi frame_skip cb stop)
         (close_open_range (final_state self video roi frame_skip cb stop)).
Proof.
  pose proof (final_state_ordered self video cb stop)
    as (H0 & Hs & Hg & Hr & Hc).
  unfold frames_read.
  set (st := final_state self video roi frame_skip cb stop) in *.
  unfold close_open_range.
  destruct (current_motion_start st) as [s|] eqn:E; [|done].
  destruct (Hc s eq_refl) as (? & ? & Hb). apply Forall_app. split; [done|].
  apply Forall_singleton. simpl. lia.
Qed.

(** No frame is read after a poll that answers true. *)
Lemma frames_read_stopped (self : MotionDetector) (video : Video)
    (cb : option Progress) (stop : option StopCheck) (k : Z) :
  0 <= k -> polled stop k = true ->
  frames_read self video roi frame_skip cb stop <= k.
Proof.
  intros Hk Hp.
  destruct (frames_read_bounds roi frame_skip self video cb stop)
    as [_ Hpoll].
  destruct (Z.le_gt_cases
              (frames_read self video roi frame_skip cb stop) k)
    as [Hle|Hgt]; [done|].
  rewrite Hpoll in Hp by lia. done.
Qed.

End TrackerMore.

(** X7.  The ranges the analysis loop has collected when it ends, with the
    one still open closed, are in increasing order, each ending before the
    next starts, and each has [0 <= start <= end] below the number of
    frames read and counted, however the loop ends: at the end of the
    stream, at a poll that answers true, or on an exception.  That number
    is at most the length of the stream and at most any count at which
    the poll answers true.  The merger's sort leaves the list as it is. *)
Theorem tracked_ordered_in_stream `{cv : CV} (self : MotionDetector)
    (video : Video) (roi : Roi) (frame_skip : Z) (cb : option Progress)
    (stop : option StopCheck) :
  sorted_by_start
    (close_open_range (final_state self video roi frame_skip cb stop)) /\
  gap_separated 0
    (close_open_range (final_state self video roi frame_skip cb stop)) /\
  Forall (fun r => 0 <= r.1 /\ r.1 <= r.2 /\
                   r.2 < frames_read self video roi frame_skip cb stop)
    (close_open_range (final_state self video roi frame_skip cb stop)) /\
  frames_read self video roi frame_skip cb stop
    <= Z.of_nat (length (frames video)) /\
  (forall k, 0 <= k -> polled stop k = true ->
     frames_read self video roi frame_skip cb stop <= k) /\
  Merger.py_sorted fst
    (close_open_range (final_state self video roi frame_skip cb stop))
  = close_open_range (final_state self video roi frame_skip cb stop).
Proof.
  pose proof (final_state_ordered roi frame_skip self video cb stop)
    as (H0 & Hs & Hg & Hr & Hc).
  pose proof (final_state_within roi frame_skip self video cb stop) as Hin.
  destruct (frames_read_bounds roi frame_skip self video cb stop)
    as [Hn _].
  set (st := final_state self video roi frame_skip cb stop) in *.
  assert (Hsorted : sorted_by_start (close_open_range st)).
  { unfold close_open_range.
    destruct (current_motion_start st) as [s|] eqn:E; [|done].
    destruct (Hc s eq_refl) as (? & ? & Hb).
    apply sorted_by_start_snoc; [done|].
    rewrite Forall_forall in Hr, Hb. apply Forall_forall. intros r Hr'.
    destruct (Hr r Hr') as (? & ? & ?). specialize (Hb r Hr'). simpl in *.
    lia. }
  split; [done|]. split; [|split; [done|split; [lia|split]]].
  - unfold close_open_range.
    destruct (current_motion_start st) as [s|] eqn:E; [|done].
    destruct (Hc s eq_refl) as (? & ? & Hb).
    apply gap_separated_snoc; [done|].
    eapply Forall_impl; [exact Hb|]. simpl. intros r ?. lia.
  - intros k Hk Hp. by apply frames_read_stopped.
  - by apply py_sorted_fixed, sorted_ascending.
Qed.

(** A run ended by its callback: it raises on its third call, when three
    frames have been read, and the range collected by then, closed on
    frame 2, lies below that count. *)
Example tracked_interrupted_run :
  let cb : option Progress :=
    Some (fun current _ => if current =? 3 then Raise IndexError else Ok tt) in
  let video :=
    Uniform.video_of 10 5
      [Uniform.image 0; Uniform.image 200; Uniform.image 0;
       Uniform.image 200; Uniform.image 0] in
  frames_read Uniform.new_detector video (0, 0, 100, 100) 1 cb None = 3 /\
  close_open_range
    (final_state Uniform.new_detector video (0, 0, 100, 100) 1 cb None)
    = [(1, 2)] /\
  (tracked_ranges Uniform.new_detector video (0, 0, 100, 100) 1 cb None).2
    = Raise IndexError.
Proof. vm_compute. repeat split. Qed.

Lemma merge_ranges_boundaries (ranges out : list Range) (fps g : Q) (o : Range) :
  Merger._merge_ranges ranges fps g = Ok out -> o ∈ out ->
  (exists r, r ∈ ranges /\ o.1 = r.1) /\ (exists r, r ∈ ranges /\ o.2 = r.2).
Proof.
  rewrite merge_ranges_sweep_all. intros [= <-] Ho.
  pose proof (py_sorted_perm fst ranges) as HP.
  destruct (Merger.py_sorted fst ranges) as [|first tail];
    [by apply elem_of_nil in Ho|].
  destruct (sweep_boundaries _ _ _ _ Ho) as [(r1 & H1 & E1) (r2 & H2 & E2)].
  rewrite HP in H1, H2. split; [by exists r1|by exists r2].
Qed.

(** X8.  Every range [analyze_video_for_motion] returns for an opened
    video has [0 <= start <= end] and ends at a frame that was read: its
    end is below the number of frames read, which is at most the length
    of the stream; if the poll answers true when [k] frames have been
    read, every range ends below [k]. *)
Theorem analyze_ranges_in_stream `{cv : CV} (disk : Disk)
    (self : MotionDetector) (path : string) (roi : Roi) (frame_skip : Z)
    (gap : Q) (cb : option Progress) (stop : option StopCheck)
    (video : Video) (ranges : list Range) :
  videos disk !! path = Some video ->
  (analyze_video_for_motion disk self path roi frame_skip gap cb stop).2
    = Ok ranges ->
  Forall (fun r => 0 <= r.1 /\ r.1 <= r.2 /\
                   r.2 < frames_read self video roi frame_skip cb stop)
         ranges /\
  frames_read self video roi frame_skip cb stop
    <= Z.of_nat (length (frames video)) /\
  (forall k, 0 <= k -> polled stop k = true ->
     Forall (fun r => r.2 < k) ranges).
Proof.
  intros Hv. rewrite (analyze_opened _ _ _ _ _ _ _ _ video Hv).
  destruct (tracked_ranges _ _ _ _ _ _).2 as [tracked|e] eqn:Ht; [|done].
  simpl. apply tracked_ranges_final in Ht. intros Hm.
  pose proof (final_state_within roi frame_skip self video cb stop) as Hin.
  rewrite <- Ht in Hin.
  destruct (frames_read_bounds roi frame_skip self video cb stop)
    as [Hn _].
  assert (Hwf : Forall well_formed ranges).
  { rewrite merge_ranges_sweep_all in Hm. injection Hm as <-.
    pose proof (py_sorted_perm fst tracked) as HP.
    assert (Hwt : Forall well_formed (Merger.py_sorted fst tracked)).
    { rewrite HP. eapply Forall_impl; [exact Hin|]. by intros r (? & ? & ?). }
    destruct (Merger.py_sorted fst tracked) as [|first tail]; [done|].
    by apply sweep_well_formed. }
  assert (Hout : Forall (fun r => 0 <= r.1 /\ r.1 <= r.2 /\
                    r.2 < frames_read self video roi frame_skip cb stop)
                   ranges).
  { rewrite Forall_forall in Hin, Hwf. apply Forall_forall. intros o Ho.
    destruct (merge_ranges_boundaries _ _ _ _ o Hm Ho)
      as [(r1 & H1 & E1) (r2 & H2 & E2)].
    destruct (Hin r1 H1) as (? & _ & _). destruct (Hin r2 H2) as (_ & _ & ?).
    specialize (Hwf o Ho). unfold well_formed in Hwf. lia. }
  split; [done|]. split; [lia|].
  intros k Hk Hp.
  pose proof (frames_read_stopped roi frame_skip self video cb stop k Hk Hp).
  eapply Forall_impl; [exact Hout|]. simpl. intros r (? & ? & ?). lia.
Qed.

Lemma analyze_ranges_in_stream_witness :
  Forall (fun r => 0 <= r.1 /\ r.1 <= r.2 /\
                   r.2 < frames_read Uniform.new_detector stopped_video
                                     (0, 0, 100, 100) 3 None (stop_after 5))
         [(3, 4)] /\
  frames_read Uniform.new_detector stopped_video (0, 0, 100, 100) 3 None
              (stop_after 5)
    <= Z.of_nat (length (frames stopped_video)) /\
  (forall k, 0 <= k -> polled (stop_after 5) k = true ->
     Forall (fun r => r.2 < k) [(3, 4)]).
Proof.
  apply (analyze_ranges_in_stream
           (Uniform.disk_of [("a.mp4", stopped_video)])
           Uniform.new_detector "a.mp4" (0, 0, 100, 100) 3 10%Q None
           (stop_after 5)).
  - vm_compute. reflexivity.
  - vm_compute. reflexivity.
Defined.

(** * Exporter and drivers: further properties *)

(** Where the name can be formed, the export succeeds and the frames of
    the segment are in the clip. *)
Lemma export_clip_segment `{cv : CV} (disk : Disk) (self : VideoProcessor)
    (video_path : string) (start_frame end_frame : Z)
    (output_name : option string) (cb : option Progress) (video : Video) :
  videos disk !! video_path = Some video ->
  (output_name = None -> Qeq_bool (fps video) 0 = false) ->
  (forall a b, call cb a b = Ok tt) ->
  0 <= start_frame -> start_frame <= end_frame ->
  end_frame <= frame_count video - 1 ->
  (0 <= padding_before self)%Q -> (0 <= padding_after self)%Q ->
  (0 <= fps video)%Q ->
  exists output_path written,
    export_clip disk self video_path start_frame end_frame output_name cb
      = Ok (output_path, written) /\
    forall i, start_frame <= i <= end_frame ->
      written !! Z.to_nat (i - actual_start self video start_frame)
        = frames video !! Z.to_nat i.
Proof.
  intros Hv Hname Hcb Hs Hse He Hpb Hpa Hfps.
  destruct (py_int_floor (padding_before self * fps video)) as [_ Hb];
    [by apply Qmult_le_0_compat|].
  destruct (py_int_floor (padding_after self * fps video)) as [_ Ha];
    [by apply Qmult_le_0_compat|].
  unfold export_clip. rewrite Hv.
  set (a := actual_start self video start_frame) in *.
  set (e := actual_end self video end_frame) in *.
  assert (Ha0 : 0 <= a /\ a <= start_frame).
  { unfold a, actual_start, padding_frames_before. lia. }
  assert (He0 : end_frame <= e).
  { unfold e, actual_end, padding_frames_after. lia. }
  assert (exists name,
    match output_name with
    | Some name => Ok name
    | None =>
        if Qeq_bool (fps video) 0 then Raise ZeroDivisionError
        else Ok (clip_name disk video_path (inject_Z a / fps video)
                           (inject_Z e / fps video))
    end = Ok name) as [name ->].
  { destruct output_name as [name|]; [by exists name|].
    rewrite Hname by done. by eexists. }
  simpl. rewrite write_frames_take by done. simpl.
  eexists _, _. split; [done|]. intros i Hi. unfold cap_seek.
  rewrite lookup_take_lt by lia. rewrite lookup_drop. f_equal. lia.
Qed.

(** X9.  The clip holds the segment.  For an opened video, a segment
    inside the announced stream, paddings and a frame rate that are not
    negative and callbacks that do not raise: when the name is left to
    default and the frame rate is zero, [export_clip] raises
    ZeroDivisionError; in every other case it returns, and position
    [i - actual_start] of the clip holds what the stream has at index [i],
    for every [i] of the segment. *)
Theorem export_holds_segment `{cv : CV} (disk : Disk) (self : VideoProcessor)
    (video_path : string) (start_frame end_frame : Z)
    (output_name : option string) (cb : option Progress) (video : Video) :
  videos disk !! video_path = Some video ->
  (forall a b, call cb a b = Ok tt) ->
  0 <= start_frame -> start_frame <= end_frame ->
  end_frame <= frame_count video - 1 ->
  (0 <= padding_before self)%Q -> (0 <= padding_after self)%Q ->
  (0 <= fps video)%Q ->
  (output_name = None -> Qeq_bool (fps video) 0 = true ->
   export_clip disk self video_path start_frame end_frame output_name cb
     = Raise ZeroDivisionError) /\
  ((output_name = None -> Qeq_bool (fps video) 0 = false) ->
   exists output_path written,
     export_clip disk self video_path start_frame end_frame output_name cb
       = Ok (output_path, written) /\
     forall i, start_frame <= i <= end_frame ->
       written !! Z.to_nat (i - actual_start self video start_frame)
         = frames video !! Z.to_nat i).
Proof.
  intros Hv Hcb Hs Hse He Hpb Hpa Hfps. split.
  - intros -> Hz. unfold export_clip. by rewrite Hv, Hz.
  - intros Hname. by apply export_clip_segment.
Qed.

Lemma export_holds_segment_witness :
  (@None string = None -> Qeq_bool (fps numbered_video) 0 = true ->
   export_clip (Uniform.disk_of [("a.mp4", numbered_video)])
     Uniform.new_processor "a.mp4" 25 27 None None
     = Raise ZeroDivisionError) /\
  ((@None string = None -> Qeq_bool (fps numbered_video) 0 = false) ->
   exists output_path written,
     export_clip (Uniform.disk_of [("a.mp4", numbered_video)])
       Uniform.new_processor "a.mp4" 25 27 None None
       = Ok (output_path, written) /\
     forall i, 25 <= i <= 27 ->
       written
         !! Z.to_nat (i - actual_start Uniform.new_processor numbered_video 25)
         = frames numbered_video !! Z.to_nat i).
Proof.
  apply (export_holds_segment (Uniform.disk_of [("a.mp4", numbered_video)])
           Uniform.new_processor "a.mp4" 25 27 None None numbered_video).
  - vm_compute. reflexivity.
  - reflexivity.
  - lia.
  - lia.
  - simpl. lia.
  - unfold Qle. simpl. lia.
  - unfold Qle. simpl. lia.
  - unfold Qle. simpl. lia.
Defined.

(** The segment of frames 25 to 27 of [numbered_video], with the paddings
    of config.py: the clip runs from frame 5 to frame 39 and holds frame
    25 at position 20.  On a video that reports a frame rate of zero the
    default name cannot be formed. *)
Example export_clip_runs :
  (exists output_path written,
     export_clip (Uniform.disk_of [("a.mp4", numbered_video)])
       Uniform.new_processor "a.mp4" 25 27 None None
       = Ok (output_path, written) /\
     length written = 35%nat /\
     written !! 20%nat = Some (Uniform.image 25)) /\
  export_clip sample_batch Uniform.new_processor "b.mp4" 2 3 None None
    = Raise ZeroDivisionError.
Proof. split; [eexists _, _|]; vm_compute; repeat split. Qed.

Section DriversFacts.
Context `{cv : CV}.

(** Callbacks that never raise leave the analysis as it is without them. *)
Lemma analysis_loop_silent (roi : Roi) (frame_skip total_frames : Z)
    (cb : option Progress) (stop : option StopCheck) (cap : Capture)
    (st : Analysis) :
  (forall a b, call cb a b = Ok tt) ->
  analysis_loop stop roi frame_skip total_frames cb cap st
    = analysis_loop stop roi frame_skip total_frames None cap st.
Proof.
  intros Hcb. revert st. induction cap as [|frame cap IH]; intros st; simpl;
    [done|].
  destruct (polled stop (frame_index st)); [done|].
  destruct (py_mod _ _); [|done].
  by rewrite Hcb, IH.
Qed.

Lemma analyze_silent (disk : Disk) (self : MotionDetector) (path : string)
    (roi : Roi) (frame_skip : Z) (gap : Q) (cb : option Progress)
    (stop : option StopCheck) :
  (forall a b, call cb a b = Ok tt) ->
  analyze_video_for_motion disk self path roi frame_skip gap cb stop
    = analyze_video_for_motion disk self path roi frame_skip gap None stop.
Proof.
  intros Hcb. unfold analyze_video_for_motion.
  destruct (videos disk !! path) as [video|]; [|done].
  unfold tracked_ranges. by rewrite (analysis_loop_silent _ _ _ cb).
Qed.

(** A poll that never answers true leaves the analysis as it is without
    one. *)
Lemma analyze_unstopped (disk : Disk) (self : MotionDetector) (path : string)
    (roi : Roi) (frame_skip : Z) (gap : Q) (cb : option Progress)
    (stop : option StopCheck) :
  (forall k, polled stop k = false) ->
  analyze_video_for_motion disk self path roi frame_skip gap cb stop
    = analyze_video_for_motion disk self path roi frame_skip gap cb None.
Proof.
  intros Hp. unfold analyze_video_for_motion.
  destruct (videos disk !! path) as [video|]; [|done].
  unfold tracked_ranges.
  by rewrite (analysis_loop_polled roi frame_skip stop None).
Qed.

(** While no stop is requested, the analysis [process_video] runs is the
    one without callback and without poll. *)
Lemma process_video_analysis (disk : Disk) (self : VideoProcessor)
    (path : string) (roi : Roi) :
  _stop_requested self = false ->
  analyze_video_for_motion disk (motion_detector self) path roi FRAME_SKIP
    (merge_gap self) (Some (analysis_progress None))
    (Some (is_stop_requested self))
  = analyze_video_for_motion disk (motion_detector self) path roi FRAME_SKIP
      (merge_gap self) None None.
Proof.
  intros Hstop.
  rewrite (analyze_silent disk (motion_detector self) path roi FRAME_SKIP
             (merge_gap self) (Some (analysis_progress None))
             (Some (is_stop_requested self)) analysis_progress_silent).
  apply analyze_unstopped. intros k. exact Hstop.
Qed.

Lemma export_clip_default (disk : Disk) (self : VideoProcessor)
    (path : string) (video : Video) (r : Range) :
  videos disk !! path = Some video ->
  Qeq_bool (fps video) 0 = false ->
  exists written,
    export_clip disk self path r.1 r.2 None None
      = Ok (clip_path disk self path video r, written).
Proof.
  intros Hv Hfps. unfold export_clip. rewrite Hv, Hfps. simpl.
  rewrite write_frames_take by done. simpl. by eexists.
Qed.

Lemma export_clips_all (disk : Disk) (self : VideoProcessor) (path : string)
    (video : Video) (total : Z) (pending : list Range) :
  videos disk !! path = Some video ->
  Qeq_bool (fps video) 0 = false ->
  _stop_requested self = false ->
  forall (i : Z) (exported : list string),
    export_clips disk self path None total i pending exported
      = Ok (exported ++ (clip_path disk self path video <$> pending)).
Proof.
  intros Hv Hfps Hstop.
  induction pending as [|[s e] pending IH]; intros i exported; simpl.
  - by rewrite app_nil_r.
  - rewrite Hstop.
    destruct (export_clip_default disk self path video (s, e) Hv Hfps)
      as [written Hw]. simpl in Hw. rewrite Hw. simpl.
    rewrite IH. by rewrite <- (assoc_L (++)).
Qed.

End DriversFacts.

(** X10.  For an opened video with a frame rate that is not zero, with no
    stop requested and no callback, [process_video] returns one clip per
    range of the analysis, in the order of the ranges: the path of the
    clip of each range's padded window. *)
Theorem process_video_clip_per_range `{cv : CV} (disk : Disk)
    (self : VideoProcessor) (path : string) (roi : Roi) (video : Video) :
  videos disk !! path = Some video ->
  Qeq_bool (fps video) 0 = false ->
  _stop_requested self = false ->
  exists ranges,
    (analyze_video_for_motion disk (motion_detector self) path roi FRAME_SKIP
       (merge_gap self) None None).2 = Ok ranges /\
    (process_video disk self path roi None).2
      = Ok (clip_path disk self path video <$> ranges).
Proof.
  intros Hv Hfps Hstop. unfold process_video. rewrite Hstop. simpl.
  rewrite (process_video_analysis disk self path roi Hstop).
  pose proof (analyze_opened disk (motion_detector self) path roi FRAME_SKIP
                (merge_gap self) None None video Hv) as Hop.
  destruct (tracked_ranges_completes (motion_detector self) video roi
              FRAME_SKIP None None ltac:(done) ltac:(done)) as [tracked Ht].
  rewrite Ht in Hop. simpl in Hop.
  destruct (merge_ranges_returns tracked (fps video) (merge_gap self))
    as [ranges Hm].
  rewrite Hm in Hop.
  destruct (analyze_video_for_motion _ _ _ _ _ _ _ _) as [d r].
  simpl in *. subst r. exists ranges. split; [done|]. simpl. rewrite Hstop.
  destruct ranges as [|r ranges]; [done|].
  by rewrite (export_clips_all disk (set_motion_detector self d) path video _
                (r :: ranges) Hv Hfps Hstop).
Qed.

Lemma process_video_clip_per_range_witness :
  exists ranges,
    (analyze_video_for_motion sample_batch
       (motion_detector Uniform.new_processor) "c.mp4" (0, 0, 100, 100)
       FRAME_SKIP (merge_gap Uniform.new_processor) None None).2
      = Ok ranges /\
    (process_video sample_batch Uniform.new_processor "c.mp4"
                   (0, 0, 100, 100) None).2
      = Ok (clip_path sample_batch Uniform.new_processor "c.mp4"
              (Uniform.video_of 10 5
                 [Uniform.image 0; Uniform.image 0; Uniform.image 200;
                  Uniform.image 200; Uniform.image 200]) <$> ranges).
Proof.
  apply (process_video_clip_per_range sample_batch Uniform.new_processor
           "c.mp4" (0, 0, 100, 100)).
  - vm_compute. reflexivity.
  - reflexivity.
  - reflexivity.
Defined.

(** X11.  No state is shared between videos: the clips [process_video]
    returns do not depend on the reference the detector holds when it is
    called, and the call leaves the processor's configuration and the
    detector's settings as they were. *)
Theorem process_video_fresh `{cv : CV} (disk : Disk) (self : VideoProcessor)
    (path : string) (roi : Roi) (cb : option StatusProgress)
    (p : option Gray) :
  (process_video disk
     (set_motion_detector self (set_previous_frame (motion_detector self) p))
     path roi cb).2
    = (process_video disk self path roi cb).2 /\
  input_folder (process_video disk self path roi cb).1 = input_folder self /\
  output_folder (process_video disk self path roi cb).1 = output_folder self /\
  padding_before (process_video disk self path roi cb).1
    = padding_before self /\
  padding_after (process_video disk self path roi cb).1 = padding_after self /\
  merge_gap (process_video disk self path roi cb).1 = merge_gap self /\
  _stop_requested (process_video disk self path roi cb).1
    = _stop_requested self /\
  threshold (motion_detector (process_video disk self path roi cb).1)
    = threshold (motion_detector self) /\
  min_contour_area (motion_detector (process_video disk self path roi cb).1)
    = min_contour_area (motion_detector self) /\
  sensitivity (motion_detector (process_video disk self path roi cb).1)
    = sensitivity (motion_detector self).
Proof.
  split; [by apply process_video_forget|].
  pose proof (process_video_settings disk self path roi cb) as H.
  pose proof (f_equal input_folder H) as H1.
  pose proof (f_equal output_folder H) as H2.
  pose proof (f_equal padding_before H) as H3.
  pose proof (f_equal padding_after H) as H4.
  pose proof (f_equal merge_gap H) as H5.
  pose proof (f_equal _stop_requested H) as H6.
  pose proof (f_equal (fun s => threshold (motion_detector s)) H) as H7.
  pose proof (f_equal (fun s => min_contour_area (motion_detector s)) H) as H8.
  pose proof (f_equal (fun s => sensitivity (motion_detector s)) H) as H9.
  simpl in *. by repeat split.
Qed.

(** * Listing the input folder *)

Lemma endswith_suffix (s suffix : string) :
  endswith s suffix = true <-> exists pre, s = pre +:+ suffix.
Proof.
  induction s as [|c s IH]; cbn [endswith].
  - rewrite orb_false_r. split.
    + intros H%String.eqb_eq. subst suffix. by exists "".
    + intros [pre Hpre]. apply String.eqb_eq.
      destruct pre; [done|discriminate].
  - rewrite orb_true_iff, IH. split.
    + intros [H%String.eqb_eq|[pre ->]]; [subst suffix; by exists ""|].
      by exists (String c pre).
    + intros [pre Hpre]. destruct pre as [|c' pre]; simpl in Hpre.
      * left. by apply String.eqb_eq.
      * right. exists pre. by injection Hpre.
Qed.

Lemma insert_str_perm (x : string) (l : list string) :
  insert_str x l ≡ₚ x :: l.
Proof.
  induction l as [|y l IH]; simpl; [done|].
  destruct (String.leb x y); [done|]. rewrite IH. apply Permutation_swap.
Qed.

Lemma sorted_str_perm (l : list string) : sorted_str l ≡ₚ l.
Proof.
  induction l as [|x l IH]; simpl; [done|].
  rewrite insert_str_perm. by rewrite IH.
Qed.

Lemma string_leb_trans (s1 s2 s3 : string) :
  String.leb s1 s2 = true -> String.leb s2 s3 = true ->
  String.leb s1 s3 = true.
Proof.
  unfold String.leb. revert s2 s3.
  induction s1 as [|a s1 IH]; intros [|b s2] [|c s3]; simpl; try done.
  unfold Ascii.compare.
  destruct (N.compare_spec (Ascii.N_of_ascii a) (Ascii.N_of_ascii b)) as [E1|L1|G1];
    destruct (N.compare_spec (Ascii.N_of_ascii b) (Ascii.N_of_ascii c)) as [E2|L2|G2];
    destruct (N.compare_spec (Ascii.N_of_ascii a) (Ascii.N_of_ascii c)) as [E3|L3|G3];
    try done; try lia.
  apply IH.
Qed.

Lemma insert_str_sorted (x : string) (l : list string) :
  StronglySorted (fun a b => String.leb a b = true) l ->
  StronglySorted (fun a b => String.leb a b = true) (insert_str x l).
Proof.
  induction 1 as [|y l Hl IH Hy]; simpl; [repeat constructor|].
  destruct (String.leb x y) eqn:E.
  - constructor; [by constructor|]. constructor; [done|].
    eapply Forall_impl; [exact Hy|]. simpl. intros z Hz.
    by apply (string_leb_trans x y z).
  - constructor; [done|]. rewrite insert_str_perm. constructor; [|done].
    destruct (String.leb_total x y) as [H|H]; [congruence|done].
Qed.

Lemma sorted_str_sorted (l : list string) :
  StronglySorted (fun a b => String.leb a b = true) (sorted_str l).
Proof.
  induction l as [|x l IH]; simpl; [constructor|]. by apply insert_str_sorted.
Qed.

(** X12.  [get_video_files] returns, in ascending order and each once per
    listing entry, exactly the paths of the names in the input folder that
    end in one of the eight video extensions; on a folder that does not
    exist it returns the empty list. *)
Theorem video_files_listing `{cv : CV}
    (listdir : string -> option (list string)) (disk : Disk)
    (self : VideoProcessor) :
  (listdir (input_folder self) = None ->
   get_video_files listdir disk self = []) /\
  (forall names, listdir (input_folder self) = Some names ->
     get_video_files listdir disk self
       ≡ₚ path_join disk (input_folder self) <$> filter is_video names /\
     StronglySorted (fun a b => String.leb a b = true)
                    (get_video_files listdir disk self) /\
     (forall p, p ∈ get_video_files listdir disk self <->
        exists name ext pre,
          name ∈ names /\ ext ∈ video_extensions /\ name = pre +:+ ext /\
          p = path_join disk (input_folder self) name)).
Proof.
  unfold get_video_files. split; [by intros ->|]. intros names ->.
  split; [apply sorted_str_perm|]. split; [apply sorted_str_sorted|].
  intros p. rewrite sorted_str_perm, list_elem_of_fmap. split.
  - intros (name & -> & Hin). apply list_elem_of_filter in Hin as [Hv Hin].
    unfold is_video in Hv. apply Is_true_true in Hv.
    apply existsb_exists in Hv as (ext & Hext & He).
    apply endswith_suffix in He as [pre ->].
    exists (pre +:+ ext), ext, pre. split; [done|].
    split; [by apply list_elem_of_In|done].
  - intros (name & ext & pre & Hin & Hext & -> & ->).
    exists (pre +:+ ext). split; [done|]. apply list_elem_of_filter.
    split; [|done]. apply Is_true_true. unfold is_video.
    apply existsb_exists. exists ext. split; [by apply list_elem_of_In|].
    apply endswith_suffix. by exists pre.
Qed.

Lemma video_files_listing_witness :
  get_video_files
      (fun _ => Some ["notes.txt"; "yard.mp4"; "gate.MOV"; "clip.mp4.bak"])
      sample_batch Uniform.new_processor
    ≡ₚ path_join sample_batch (input_folder Uniform.new_processor)
       <$> filter is_video ["notes.txt"; "yard.mp4"; "gate.MOV"; "clip.mp4.bak"] /\
  StronglySorted (fun a b => String.leb a b = true)
    (get_video_files
       (fun _ => Some ["notes.txt"; "yard.mp4"; "gate.MOV"; "clip.mp4.bak"])
       sample_batch Uniform.new_processor) /\
  (forall p,
     p ∈ get_video_files
           (fun _ => Some ["notes.txt"; "yard.mp4"; "gate.MOV"; "clip.mp4.bak"])
           sample_batch Uniform.new_processor <->
     exists name ext pre,
       name ∈ ["notes.txt"; "yard.mp4"; "gate.MOV"; "clip.mp4.bak"] /\
       ext ∈ video_extensions /\ name = pre +:+ ext /\
       p = path_join sample_batch (input_folder Uniform.new_processor) name).
Proof.
  apply (proj2 (video_files_listing
                  (fun _ => Some ["notes.txt"; "yard.mp4"; "gate.MOV";
                                  "clip.mp4.bak"])
                  sample_batch Uniform.new_processor)).
  reflexivity.
Defined.

Example video_files_example :
  get_video_files
    (fun _ => Some ["notes.txt"; "yard.mp4"; "gate.MOV"; "clip.mp4.bak"])
    sample_batch Uniform.new_processor
  = ["input_videos/gate.MOV"; "input_videos/yard.mp4"].
Proof. vm_compute. reflexivity. Qed.

(** * Command line *)

Section ParseFacts.
Context `{ps : Cli.PyStr}.

Lemma split_on_length (sep : Ascii.ascii) (s : string) :
  length (Cli.split_on sep s) = S (Cli.count_char sep s).
Proof.
  induction s as [|c s IH]; simpl; [done|].
  destruct (Ascii.eqb c sep); simpl; [by rewrite IH|].
  by destruct (Cli.split_on sep s).
Qed.

Lemma normalize_roi_ordered (r : Roi) :
  (normalize_roi r).1.1.1 <= (normalize_roi r).1.2 /\
  (normalize_roi r).1.1.2 <= (normalize_roi r).2.
Proof.
  destruct r as [[[x1 y1] x2] y2]. unfold normalize_roi.
  destruct (Z.gtb_spec x1 x2), (Z.gtb_spec y1 y2); simpl; lia.
Qed.

Lemma normalize_roi_fixed (x1 y1 x2 y2 : Z) :
  x1 <= x2 -> y1 <= y2 -> normalize_roi (x1, y1, x2, y2) = (x1, y1, x2, y2).
Proof.
  intros Hx Hy. unfold normalize_roi.
  destruct (Z.gtb_spec x1 x2), (Z.gtb_spec y1 y2); (done || lia).
Qed.

Lemma parse_roi_parsed (s : string) (r : Roi) :
  Cli.parse_roi s = Cli.Parsed r ->
  exists x1 y1 x2 y2,
    length (Cli.split_on ","%char s) = 4%nat /\
    r = normalize_roi (x1, y1, x2, y2).
Proof.
  unfold Cli.parse_roi.
  destruct (mapM _ _) as [parts|] eqn:E; [|done].
  apply length_mapM in E.
  destruct parts as [|x1 [|y1 [|x2 [|y2 [|? ?]]]]]; try done.
  intros [= <-]. by exists x1, y1, x2, y2.
Qed.

(** X13.  A rectangle [parse_roi] returns has [x1 <= x2] and [y1 <= y2];
    the scorer's own normalization leaves it as it is, and the scorer
    works on its clamped form. *)
Theorem parse_roi_normalized `{cv : CV} (s : string) (x1 y1 x2 y2 : Z) :
  Cli.parse_roi s = Cli.Parsed (x1, y1, x2, y2) ->
  x1 <= x2 /\ y1 <= y2 /\
  normalize_roi (x1, y1, x2, y2) = (x1, y1, x2, y2) /\
  forall frame : Frame,
    clamped frame (x1, y1, x2, y2)
      = clamp_roi (shape (gray_of frame)) (x1, y1, x2, y2).
Proof.
  intros H. destruct (parse_roi_parsed _ _ H) as (a & b & c & d & _ & E).
  pose proof (normalize_roi_ordered (a, b, c, d)) as [Hx Hy].
  rewrite <- E in Hx, Hy. simpl in Hx, Hy.
  split; [done|]. split; [done|].
  assert (Hfix := normalize_roi_fixed x1 y1 x2 y2 Hx Hy).
  split; [done|]. intros frame. unfold clamped. by rewrite Hfix.
Qed.

(** X14.  [parse_roi] rejects every string that does not hold exactly
    three commas, with the message that quotes the string. *)
Theorem parse_roi_field_count (s : string) :
  Cli.count_char ","%char s <> 3%nat ->
  Cli.parse_roi s
    = Cli.ArgumentTypeError
        ("Invalid ROI format: " +:+ s +:+
         ". Expected format: x1,y1,x2,y2 (e.g., 100,100,500,400)").
Proof.
  intros Hn. unfold Cli.parse_roi.
  destruct (mapM _ _) as [parts|] eqn:E; [|done].
  apply length_mapM in E. rewrite split_on_length in E.
  destruct parts as [|x1 [|y1 [|x2 [|y2 [|? ?]]]]]; try done.
  simpl in E. lia.
Qed.

End ParseFacts.

Lemma parse_roi_normalized_witness :
  500 <= 500 /\ 100 <= 400 /\
  normalize_roi (500, 100, 500, 400) = (500, 100, 500, 400) /\
  forall frame : Frame,
    clamped frame (500, 100, 500, 400)
      = clamp_roi (shape (gray_of frame)) (500, 100, 500, 400).
Proof.
  apply (@parse_roi_normalized Cli.Plain.py_str Uniform.cv
           " 500, 400 ,500,+100" 500 100 500 400).
  vm_compute. reflexivity.
Defined.

Lemma parse_roi_field_count_witness :
  Cli.parse_roi "100,100,500"
    = Cli.ArgumentTypeError
        ("Invalid ROI format: " +:+ "100,100,500" +:+
         ". Expected format: x1,y1,x2,y2 (e.g., 100,100,500,400)").
Proof.
  apply (@parse_roi_field_count Cli.Plain.py_str "100,100,500").
  vm_compute. discriminate.
Defined.

Example parse_roi_examples :
  Cli.parse_roi "500,400,100,100" = Cli.Parsed (100, 100, 500, 400) /\
  Cli.parse_roi " -5, 7,3 ,2" = Cli.Parsed (-5, 2, 3, 7) /\
  Cli.parse_roi "1,2,x,4"
    = Cli.invalid_roi "1,2,x,4".
Proof. repeat split; vm_compute; reflexivity. Qed.

(** * Drawing the rectangle *)

(** X15.  A rectangle the preview stores for a drag lies within the video,
    is more than ten pixels wide and high, and is not degenerate for the
    scorer on a frame of the video's size. *)
Theorem drag_roi_not_degenerate (roi_start roi_end : Z * Z)
    (scale_x scale_y : Q) (video_width video_height : Z)
    (x1 y1 x2 y2 : Z) :
  Gui.roi_from_drag roi_start roi_end scale_x scale_y video_width video_height
    = Ok (Some (x1, y1, x2, y2)) ->
  0 <= x1 <= video_width /\ 0 <= x2 <= video_width /\
  0 <= y1 <= video_height /\ 0 <= y2 <= video_height /\
  Z.abs (x2 - x1) > 10 /\ Z.abs (y2 - y1) > 10 /\
  clamp_roi (video_height, video_width) (normalize_roi (x1, y1, x2, y2))
    = normalize_roi (x1, y1, x2, y2) /\
  degenerate
    (clamp_roi (video_height, video_width) (normalize_roi (x1, y1, x2, y2)))
    = false.
Proof.
  unfold Gui.roi_from_drag. intros H.
  destruct (Gui.py_int_over (Z.min roi_start.1 roi_end.1) scale_x) as [a|];
    simpl in H; [|done].
  destruct (Gui.py_int_over (Z.min roi_start.2 roi_end.2) scale_y) as [b|];
    simpl in H; [|done].
  destruct (Gui.py_int_over (Z.max roi_start.1 roi_end.1) scale_x) as [c|];
    simpl in H; [|done].
  destruct (Gui.py_int_over (Z.max roi_start.2 roi_end.2) scale_y) as [d|];
    simpl in H; [|done].
  destruct (Z.gtb_spec (Z.abs (Z.max 0 (Z.min c video_width)
                               - Z.max 0 (Z.min a video_width))) 10);
    [|done].
  destruct (Z.gtb_spec (Z.abs (Z.max 0 (Z.min d video_height)
                               - Z.max 0 (Z.min b video_height))) 10);
    [|done].
  simpl in H. injection H as <- <- <- <-.
  assert (0 <= video_width) by lia. assert (0 <= video_height) by lia.
  split; [lia|]. split; [lia|]. split; [lia|]. split; [lia|].
  split; [lia|]. split; [lia|]. split.
  - unfold normalize_roi, clamp_roi.
    destruct (Z.gtb_spec (Z.max 0 (Z.min a video_width))
                         (Z.max 0 (Z.min c video_width))),
      (Z.gtb_spec (Z.max 0 (Z.min b video_height))
                  (Z.max 0 (Z.min d video_height)));
      (f_equal; [f_equal; [f_equal|]|]); lia.
  - unfold normalize_roi, clamp_roi, degenerate.
    destruct (Z.gtb_spec (Z.max 0 (Z.min a video_width))
                         (Z.max 0 (Z.min c video_width))),
      (Z.gtb_spec (Z.max 0 (Z.min b video_height))
                  (Z.max 0 (Z.min d video_height)));
      apply orb_false_iff; split; apply Z.leb_gt; lia.
Qed.

Lemma drag_roi_not_degenerate_witness :
  0 <= 80 <= 1920 /\ 0 <= 400 <= 1920 /\
  0 <= 60 <= 1080 /\ 0 <= 300 <= 1080 /\
  Z.abs (400 - 80) > 10 /\ Z.abs (300 - 60) > 10 /\
  clamp_roi (1080, 1920) (normalize_roi (80, 60, 400, 300))
    = normalize_roi (80, 60, 400, 300) /\
  degenerate (clamp_roi (1080, 1920) (normalize_roi (80, 60, 400, 300)))
    = false.
Proof.
  apply (drag_roi_not_degenerate (200, 30) (40, 150) (1 # 2) (1 # 2)
                                 1920 1080 80 60 400 300).
  vm_compute. reflexivity.
Defined.

(** * A command-line run *)

Section CliFacts.
Context `{cv : CV}.

Lemma report_count (disk : Disk) (r : result (list string)) :
  (Cli.report disk r).1 = Z.of_nat (length (recorded r)).
Proof. by destruct r. Qed.

(** The loop adds, for each video, the number of clips [process_video]
    returns for it, and nothing for a video on which it raises. *)
Lemma cli_loop_total (disk : Disk) (self0 : VideoProcessor) (r : Roi) (n : Z)
    (pending : list string) :
  forall (i : Z) (self : VideoProcessor) (total : Z),
    forget self = forget self0 ->
    (Cli.cli_loop disk self r n i pending total).1.2
      = total + Cli.clips_total disk self0 r pending.
Proof.
  induction pending as [|p pending IH]; intros i self total Hf; simpl;
    [lia|].
  pose proof (process_video_forget disk self self0 p r
                (Some Cli.cli_progress) Hf) as Hr.
  pose proof (process_video_settings disk self p r (Some Cli.cli_progress))
    as Hs.
  destruct (process_video disk self p r _) as [self' res]. simpl in *.
  pose proof (report_count disk res) as Hc.
  destruct (Cli.report disk res) as [clips lines]. simpl in Hc.
  specialize (IH (i + 1) self' (total + clips)).
  destruct (Cli.cli_loop disk self' r n (i + 1) pending (total + clips))
    as [[p' t'] rest].
  simpl in *. rewrite IH by (by rewrite Hs). rewrite Hc, Hr. lia.
Qed.

End CliFacts.

(** X16.  [run_cli] returns 1 exactly when it finds no video to process,
    and 0 otherwise, whether or not any video fails; the total it then
    prints is the number of clips over all videos, a video on which
    [process_video] raises counting for none. *)
Theorem run_cli_exit_and_total `{cv : CV} (os : Cli.Os) (disk : Disk)
    (args : Cli.Args) :
  (cli_video_files os disk args = [] ->
   (Cli.run_cli os disk args).1 = 1 /\
   exists body, (Cli.run_cli os disk args).2 = body ++ [Cli.NoVideoFiles]) /\
  (cli_video_files os disk args <> [] ->
   (Cli.run_cli os disk args).1 = 0 /\
   exists body output_dir,
     (Cli.run_cli os disk args).2
       = body ++ [Cli.Rule;
                  Cli.Complete
                    (Cli.clips_total disk (Cli.cli_processor os args)
                       (Cli.args_roi args) (cli_video_files os disk args));
                  Cli.OutputFolder output_dir;
                  Cli.Rule]).
Proof.
  unfold cli_video_files, Cli.run_cli.
  destruct (Cli.ensure_directories _ _ _) as [input_dir output_dir].
  cbn [fst snd].
  destruct (Cli.video_files_of os disk _ input_dir args)
    as [video_files warnings]. cbn [fst snd].
  split.
  - intros ->. split; [done|]. eexists. cbn [snd].
    by rewrite (assoc_L (++)).
  - intros Hne. destruct video_files as [|v video_files]; [done|].
    pose proof (cli_loop_total disk (Cli.cli_processor os args)
                  (Cli.args_roi args)
                  (Z.of_nat (length (v :: video_files))) (v :: video_files)
                  0 (Cli.cli_processor os args) 0 eq_refl) as Ht.
    destruct (Cli.cli_loop _ _ _ _ _ _ _) as [[p t] lines].
    cbn [fst snd] in Ht. rewrite Z.add_0_l in Ht. subst t.
    split; [done|].
    exists (Cli.banner
              (Cli.update_config
                 (Cli.config_py (Cli.cwd_input_folder os)
                                (Cli.cwd_output_folder os)) args)
              input_dir output_dir (Cli.args_roi args)
            ++ warnings
            ++ (Cli.Found (Z.of_nat (length (v :: video_files)))
                :: (Cli.FoundItem <$> (basename disk <$> v :: video_files)))
            ++ Cli.Blank :: lines), output_dir.
    cbn [snd]. rewrite <- !(assoc_L (++)). by rewrite <- app_comm_cons.
Qed.

Example run_cli_sample :
  Cli.run_cli sample_os sample_cli_batch sample_args
  = (0,
     Cli.banner
       (Cli.update_config (Cli.config_py "input_videos" "output_clips")
                          sample_args)
       "input_videos" "output_clips" (0, 0, 100, 100)
     ++ [Cli.Found 3; Cli.FoundItem "input_videos/a.mp4";
         Cli.FoundItem "input_videos/b.mp4";
         Cli.FoundItem "input_videos/c.mp4"; Cli.Blank;
         Cli.Processing 1 3 "input_videos/a.mp4";
         Cli.Error (ValueError "Could not open video"); Cli.Blank;
         Cli.Processing 2 3 "input_videos/b.mp4";
         Cli.Error ZeroDivisionError; Cli.Blank;
         Cli.Processing 3 3 "input_videos/c.mp4";
         Cli.ExportedClips 1;
         Cli.ClipItem "output_clips/input_videos/c.mp4_motion.mp4";
         Cli.Blank;
         Cli.Rule; Cli.Complete 1; Cli.OutputFolder "output_clips";
         Cli.Rule]).
Proof. vm_compute. reflexivity. Qed.

(** X17.  The flags for threshold, minimum area, sensitivity and frame
    skip change nothing but the four lines that print them: the detector
    [run_cli] builds always has the settings of config.py, and the return
    value and every other line are the same for any values of the flags. *)
Theorem run_cli_ignores_detection_flags `{cv : CV} (os : Cli.Os)
    (disk : Disk) (args : Cli.Args) (t m : option Z) (s : option Q) (f : option Z) :
  motion_detector
    (Cli.cli_processor os
       (with_detection_flags args t m s f))
    = {| threshold := 25; min_contour_area := 500;
         sensitivity := 1 # 100; previous_frame := None |} /\
  (Cli.run_cli os disk
     (with_detection_flags args t m s f)).1
    = (Cli.run_cli os disk args).1 /\
  other_lines
    (Cli.run_cli os disk
       (with_detection_flags args t m s f)).2
    = other_lines (Cli.run_cli os disk args).2 /\
  Cli.Threshold (default 25 t)
    ∈ (Cli.run_cli os disk
         (with_detection_flags args t m s f)).2.
Proof.
  split; [done|].
  unfold Cli.run_cli.
  change (Cli.cli_processor os (with_detection_flags _ _ _ _ _))
    with (Cli.cli_processor os args).
  change (Cli.ensure_directories
            (Cli.update_config _ (with_detection_flags _ _ _ _ _))
            (Cli.args_input (with_detection_flags _ _ _ _ _))
            (Cli.args_output (with_detection_flags _ _ _ _ _)))
    with (Cli.ensure_directories
            (Cli.update_config
               (Cli.config_py (Cli.cwd_input_folder os)
                              (Cli.cwd_output_folder os)) args)
            (Cli.args_input args) (Cli.args_output args)).
  destruct (Cli.ensure_directories _ _ _) as [input_dir output_dir].
  change (Cli.video_files_of os disk (Cli.cli_processor os args) input_dir
            (with_detection_flags args t m s f))
    with (Cli.video_files_of os disk (Cli.cli_processor os args) input_dir
            args).
  destruct (Cli.video_files_of _ _ _ _ _) as [video_files warnings].
  change (Cli.args_roi (with_detection_flags _ _ _ _ _))
    with (Cli.args_roi args).
  destruct video_files as [|v video_files].
  - split; [done|]. split.
    + unfold other_lines. cbn [snd]. rewrite !filter_app. f_equal.
    + cbn [snd]. apply elem_of_app. left.
      unfold Cli.banner. do 9 apply list_elem_of_further.
      apply list_elem_of_here.
  - destruct (Cli.cli_loop _ _ _ _ _ _ _) as [[p total] lines].
    split; [done|]. split.
    + unfold other_lines. cbn [snd]. rewrite !filter_app. f_equal.
    + cbn [snd]. apply elem_of_app. left.
      unfold Cli.banner. do 9 apply list_elem_of_further.
      apply list_elem_of_here.
Qed.

(** * What the tracker records *)

Section FlagsFacts.
Context `{cv : CV}.

(** From any state in which a range is open exactly when the last sample
    reported motion, the loop appends the runs of the flags. *)
Lemma analysis_loop_runs (roi : Roi) (frame_skip total_frames : Z)
    (cb : option Progress) (cap : Capture) :
  frame_skip <> 0 ->
  (forall a b, call cb a b = Ok tt) ->
  forall (st : Analysis) (last : bool),
    (last = true <-> is_Some (current_motion_start st)) ->
    close_open_range
      (analysis_loop None roi frame_skip total_frames cb cap st).1
    = motion_ranges st
      ++ runs (frame_index st) (current_motion_start st)
              (sample_flags roi frame_skip (detector st) (frame_index st)
                            last cap).
Proof.
  intros Hfs Hcb. induction cap as [|frame cap IH]; intros st last Hlast.
  - simpl. unfold close_open_range.
    destruct (current_motion_start st); [done|by rewrite app_nil_r].
  - simpl. unfold py_mod. destruct (Z.eqb_spec frame_skip 0); [done|].
    rewrite Hcb. destruct (Z.eqb_spec (frame_index st `mod` frame_skip) 0).
    + unfold score_frame.
      destruct (detect_motion (detector st) frame (Some roi))
        as [self sample].
      destruct (detected sample) eqn:Hd.
      * rewrite (IH _ true); simpl.
        -- by destruct (current_motion_start st).
        -- split; [intros _|done].
           destruct (current_motion_start st); by eexists.
      * destruct (current_motion_start st) as [s|] eqn:Hcur.
        -- rewrite (IH _ false); simpl;
             [|split; [done|by intros [? ?]]].
           by rewrite <- (assoc_L (++)).
        -- rewrite (IH _ false); simpl;
             [|split; [done|by intros [? ?]]].
           done.
    + rewrite (IH _ last); simpl; [|done].
      destruct last.
      * destruct (proj1 Hlast eq_refl) as [s Hs]. by rewrite Hs.
      * destruct (current_motion_start st) as [s|] eqn:Hcur; [|done].
        assert (false = true) by (apply Hlast; by eexists). done.
Qed.

(** A frame index is inside a run exactly when its flag is set. *)
Lemma runs_cover (flags : list bool) :
  forall (k : Z) (open : option Z) (i : Z),
    (forall s, open = Some s -> s < k) ->
    (exists r, r ∈ runs k open flags /\ r.1 <= i <= r.2) <->
    (exists s, open = Some s /\ s <= i < k) \/
    (k <= i /\ flags !! Z.to_nat (i - k) = Some true).
Proof.
  induction flags as [|b flags IH]; intros k open i Hopen.
  - simpl. split.
    + intros (r & Hr & Hi). destruct open as [s|]; [|by apply elem_of_nil in Hr].
      apply list_elem_of_singleton in Hr as ->. simpl in Hi.
      left. exists s. split; [done|lia].
    + intros [(s & -> & Hi)|[_ Hl]]; [|done].
      exists (s, k - 1). split; [apply list_elem_of_here|simpl; lia].
  - assert (Hshift : k + 1 <= i ->
              (b :: flags) !! Z.to_nat (i - k)
                = flags !! Z.to_nat (i - (k + 1))).
    { intros Hi. replace (Z.to_nat (i - k)) with (S (Z.to_nat (i - (k + 1))))
        by lia. done. }
    assert (Hhere : (b :: flags) !! Z.to_nat (k - k) = Some b).
    { by replace (k - k) with 0 by lia. }
    destruct b; simpl runs.
    + rewrite (IH (k + 1) (Some (default k open)) i).
      2:{ intros s [= <-]. destruct open as [s|]; simpl; [|lia].
          specialize (Hopen s eq_refl). lia. }
      split.
      * intros [(s & [= <-] & Hi)|[Hi Hl]].
        -- destruct open as [s|]; simpl in Hi.
           ++ destruct (decide (i < k)); [left; exists s; split; [done|lia]|].
              right. split; [lia|]. replace i with k by lia. done.
           ++ right. split; [lia|]. replace i with k by lia. done.
        -- right. split; [lia|]. by rewrite Hshift.
      * intros [(s & -> & Hi)|[Hi Hl]].
        -- left. exists s. split; [done|]. simpl. lia.
        -- destruct (decide (i = k)) as [->|Hne].
           ++ left. eexists. split; [done|].
              destruct open as [s|]; simpl; [|lia].
              specialize (Hopen s eq_refl). lia.
           ++ right. split; [lia|]. rewrite <- Hshift by lia. done.
    + destruct open as [s|].
      * split.
        -- intros (r & Hr & Hi). apply elem_of_cons in Hr as [->|Hr].
           ++ simpl in Hi. left. exists s. split; [done|lia].
           ++ assert (Hex : exists r, r ∈ runs (k + 1) None flags
                                      /\ r.1 <= i <= r.2) by eauto.
              apply (IH (k + 1) None i) in Hex; [|done].
              destruct Hex as [(? & [=] & _)|[Hi' Hl]].
              right. split; [lia|]. by rewrite Hshift.
        -- intros [(s' & [= <-] & Hi)|[Hi Hl]].
           ++ exists (s, k - 1). split; [apply list_elem_of_here|simpl; lia].
           ++ destruct (decide (i = k)) as [->|Hne];
                [rewrite Hhere in Hl; done|].
              rewrite Hshift in Hl by lia.
              destruct (proj2 (IH (k + 1) None i ltac:(done)))
                as (r & Hr & Hri); [right; split; [lia|done]|].
              exists r. split; [by apply list_elem_of_further|done].
      * rewrite (IH (k + 1) None i) by done. split.
        -- intros [(? & [=] & _)|[Hi Hl]].
           right. split; [lia|]. by rewrite Hshift.
        -- intros [(? & [=] & _)|[Hi Hl]].
           destruct (decide (i = k)) as [->|Hne];
             [rewrite Hhere in Hl; done|].
           right. split; [lia|]. rewrite <- Hshift by lia. done.
Qed.

(** A run under way is always reported. *)
Lemma runs_open (flags : list bool) :
  forall (k s : Z), runs k (Some s) flags <> [].
Proof.
  induction flags as [|[] flags IH]; intros k s; simpl; [done|apply IH|done].
Qed.

(** No run is reported exactly when none is under way and no flag is set. *)
Lemma runs_none (flags : list bool) :
  forall (k : Z) (open : option Z),
    runs k open flags = [] <-> open = None /\ true ∉ flags.
Proof.
  induction flags as [|b flags IH]; intros k open.
  - simpl. destruct open; split; try done.
    + by intros [[=] _].
    + intros _. split; [done|]. apply not_elem_of_nil.
  - destruct b; simpl.
    + split.
      * intros H. by apply runs_open in H.
      * intros [_ H]. destruct H. apply list_elem_of_here.
    + destruct open as [s|].
      * split; [done|by intros [[=] _]].
      * rewrite IH. split.
        -- intros [_ H]. split; [done|]. by apply not_elem_of_cons.
        -- intros [_ H]. split; [done|]. by apply not_elem_of_cons in H as [_ H].
Qed.

(** The ranges the tracker hands to the merger are the runs of the flags
    of the stream. *)
Lemma tracked_ranges_runs (self : MotionDetector) (video : Video) (roi : Roi)
    (frame_skip : Z) (cb : option Progress) (stop : option StopCheck) :
  frame_skip <> 0 ->
  (forall a b, call cb a b = Ok tt) ->
  (forall k, polled stop k = false) ->
  (tracked_ranges self video roi frame_skip cb stop).2
    = Ok (runs 0 None
            (sample_flags roi frame_skip (reset self) 0 false
                          (frames video))).
Proof.
  intros Hfs Hcb Hstop. unfold tracked_ranges.
  rewrite (analysis_loop_polled roi frame_skip stop None _ _ _ Hstop).
  destruct (analysis_loop_completes roi frame_skip None (frame_count video)
              cb (frames video) (start_analysis (reset self)) Hfs Hcb)
    as [Hok _].
  pose proof (analysis_loop_runs roi frame_skip (frame_count video) cb
                (frames video) Hfs Hcb (start_analysis (reset self)) false)
    as Hruns.
  destruct (analysis_loop _ _ _ _ _ _ _) as [st res]. simpl in *. subst res.
  simpl. rewrite Hruns; [done|]. split; [done|by intros [? ?]].
Qed.

(** Merging keeps every range inside one of its results. *)
Lemma merge_ranges_contains (ranges out : list Range) (fps g : Q)
    (r : Range) :
  Merger._merge_ranges ranges fps g = Ok out -> r ∈ ranges ->
  exists o, o ∈ out /\ contains o r.
Proof.
  rewrite merge_ranges_sweep_all. intros [= <-] Hr.
  pose proof (py_sorted_perm fst ranges) as HP.
  pose proof (py_sorted_ascending ranges) as Hasc.
  rewrite <- HP in Hr.
  destruct (Merger.py_sorted fst ranges) as [|first tail];
    [by apply elem_of_nil in Hr|].
  by apply sweep_contains.
Qed.

(** Merging returns no range exactly when it is given none. *)
Lemma merge_ranges_none (ranges out : list Range) (fps g : Q) :
  Merger._merge_ranges ranges fps g = Ok out ->
  out = [] <-> ranges = [].
Proof.
  rewrite merge_ranges_sweep_all. intros [= <-].
  pose proof (py_sorted_perm fst ranges) as HP.
  destruct (Merger.py_sorted fst ranges) as [|first tail]; simpl.
  - split; [|done]. intros _. symmetry in HP.
    by apply Permutation_nil_r in HP.
  - split.
    + intros H. pose proof (sweep_length (Merger.gap_frames fps g) tail first)
        as Hl. rewrite H in Hl. simpl in Hl. lia.
    + intros ->. by apply Permutation_nil_r in HP.
Qed.

End FlagsFacts.

(** X18.  Before merging, the ranges the analysis tracks cover exactly
    the frames at which the latest sample, at that frame or before it,
    reported motion: for a frame step that is not zero and callbacks that
    do not raise, and no poll or one that never answers true, a frame
    index [i >= 0] lies inside one of the tracked ranges if and only if
    the flag of frame [i] is set. *)
Theorem tracked_ranges_follow_samples `{cv : CV} (self : MotionDetector)
    (video : Video) (roi : Roi) (frame_skip : Z) (cb : option Progress)
    (stop : option StopCheck) :
  frame_skip <> 0 ->
  (forall a b, call cb a b = Ok tt) ->
  (forall k, polled stop k = false) ->
  exists tracked,
    (tracked_ranges self video roi frame_skip cb stop).2 = Ok tracked /\
    forall i, 0 <= i ->
      (exists r, r ∈ tracked /\ r.1 <= i <= r.2) <->
      sample_flags roi frame_skip (reset self) 0 false (frames video)
        !! Z.to_nat i = Some true.
Proof.
  intros Hfs Hcb Hstop. eexists. split; [by apply tracked_ranges_runs|].
  intros i Hi. rewrite runs_cover by done.
  replace (i - 0) with i by lia. split.
  - by intros [(? & [=] & _)|[_ H]].
  - intros H. right. by split.
Qed.

Lemma tracked_ranges_follow_samples_witness :
  exists tracked,
    (tracked_ranges Uniform.new_detector
       (Uniform.video_of 10 5
          [Uniform.image 0; Uniform.image 0; Uniform.image 200;
           Uniform.image 200; Uniform.image 200])
       (0, 0, 100, 100) 2 None None).2 = Ok tracked /\
    forall i, 0 <= i ->
      (exists r, r ∈ tracked /\ r.1 <= i <= r.2) <->
      sample_flags (0, 0, 100, 100) 2 (reset Uniform.new_detector) 0 false
        [Uniform.image 0; Uniform.image 0; Uniform.image 200;
         Uniform.image 200; Uniform.image 200]
        !! Z.to_nat i = Some true.
Proof.
  apply (tracked_ranges_follow_samples Uniform.new_detector
           (Uniform.video_of 10 5
              [Uniform.image 0; Uniform.image 0; Uniform.image 200;
               Uniform.image 200; Uniform.image 200])
           (0, 0, 100, 100) 2 None None).
  - lia.
  - intros a b. reflexivity.
  - intros k. reflexivity.
Defined.

Example sample_flags_example :
  sample_flags (0, 0, 100, 100) 2 (reset Uniform.new_detector) 0 false
    [Uniform.image 0; Uniform.image 0; Uniform.image 200;
     Uniform.image 200; Uniform.image 200]
    = [false; false; true; true; false].
Proof. vm_compute. reflexivity. Qed.

(** X19.  The analysis loses no motion: for an opened video, a frame step
    that is not zero, callbacks that do not raise and no poll or one that
    never answers true,
    [analyze_video_for_motion] returns ranges, whatever the merge gap, and
    every frame at which the latest sample reported motion lies inside one
    of them. *)
Theorem analyze_covers_motion `{cv : CV} (disk : Disk)
    (self : MotionDetector) (path : string) (roi : Roi) (frame_skip : Z)
    (gap : Q) (cb : option Progress) (stop : option StopCheck)
    (video : Video) :
  videos disk !! path = Some video ->
  frame_skip <> 0 ->
  (forall a b, call cb a b = Ok tt) ->
  (forall k, polled stop k = false) ->
  exists ranges,
    (analyze_video_for_motion disk self path roi frame_skip gap cb stop).2
      = Ok ranges /\
    forall i, 0 <= i ->
      sample_flags roi frame_skip (reset self) 0 false (frames video)
        !! Z.to_nat i = Some true ->
      exists r, r ∈ ranges /\ r.1 <= i <= r.2.
Proof.
  intros Hv Hfs Hcb Hstop. rewrite (analyze_opened _ _ _ _ _ _ _ _ video Hv).
  rewrite tracked_ranges_runs by done. simpl.
  destruct (merge_ranges_returns
              (runs 0 None
                 (sample_flags roi frame_skip (reset self) 0 false
                               (frames video)))
              (fps video) gap) as [ranges Hm].
  exists ranges. split; [done|]. intros i Hi Hflag.
  destruct (proj2 (runs_cover
                     (sample_flags roi frame_skip (reset self) 0 false
                                   (frames video))
                     0 None i ltac:(done))) as (t & Ht & Hit).
  { right. split; [done|]. by replace (i - 0) with i by lia. }
  destruct (merge_ranges_contains _ _ _ _ t Hm Ht) as (o & Ho & Hc).
  exists o. split; [done|]. unfold contains in Hc. lia.
Qed.

Lemma analyze_covers_motion_witness :
  exists ranges,
    (analyze_video_for_motion
       (Uniform.disk_of
          [("a.mp4",
            Uniform.video_of 10 5
              [Uniform.image 0; Uniform.image 0; Uniform.image 200;
               Uniform.image 200; Uniform.image 200])])
       Uniform.new_detector "a.mp4" (0, 0, 100, 100) 2 10%Q None None).2
      = Ok ranges /\
    forall i, 0 <= i ->
      sample_flags (0, 0, 100, 100) 2 (reset Uniform.new_detector) 0 false
        (frames
           (Uniform.video_of 10 5
              [Uniform.image 0; Uniform.image 0; Uniform.image 200;
               Uniform.image 200; Uniform.image 200]))
        !! Z.to_nat i = Some true ->
      exists r, r ∈ ranges /\ r.1 <= i <= r.2.
Proof.
  apply (analyze_covers_motion
           (Uniform.disk_of
              [("a.mp4",
                Uniform.video_of 10 5
                  [Uniform.image 0; Uniform.image 0; Uniform.image 200;
                   Uniform.image 200; Uniform.image 200])])
           Uniform.new_detector "a.mp4" (0, 0, 100, 100) 2 10%Q None None).
  - vm_compute. reflexivity.
  - lia.
  - intros a b. reflexivity.
  - intros k. reflexivity.
Defined.

(** X20.  [process_video] exports no clip exactly when no sample reported
    motion: for an opened video with a frame rate that is not zero, with
    no stop requested and no callback, it returns a list of clips, and
    the list is empty if and only if no flag of the stream, sampled every
    [FRAME_SKIP] frames, is set. *)
Theorem process_video_clips_iff_motion `{cv : CV} (disk : Disk)
    (self : VideoProcessor) (path : string) (roi : Roi) (video : Video) :
  videos disk !! path = Some video ->
  Qeq_bool (fps video) 0 = false ->
  _stop_requested self = false ->
  exists clips,
    (process_video disk self path roi None).2 = Ok clips /\
    (clips = [] <->
     true ∉ sample_flags roi FRAME_SKIP (reset (motion_detector self)) 0
              false (frames video)).
Proof.
  intros Hv Hfps Hstop. unfold process_video. rewrite Hstop. simpl.
  rewrite (process_video_analysis disk self path roi Hstop).
  pose proof (analyze_opened disk (motion_detector self) path roi FRAME_SKIP
                (merge_gap self) None None video Hv) as Hop.
  rewrite (tracked_ranges_runs (motion_detector self) video roi FRAME_SKIP
             None None ltac:(done) ltac:(done) ltac:(done)) in Hop.
  simpl in Hop.
  destruct (merge_ranges_returns
              (runs 0 None
                 (sample_flags roi FRAME_SKIP (reset (motion_detector self))
                               0 false (frames video)))
              (fps video) (merge_gap self)) as [ranges Hm].
  rewrite Hm in Hop.
  pose proof (merge_ranges_none _ _ _ _ Hm) as Hnone.
  rewrite runs_none in Hnone.
  destruct (analyze_video_for_motion _ _ _ _ _ _ _ _) as [d r].
  simpl in *. subst r. simpl. rewrite Hstop.
  destruct ranges as [|r ranges].
  - exists []. split; [done|]. split; [|done].
    intros _. by apply Hnone.
  - rewrite (export_clips_all disk (set_motion_detector self d) path video _
               (r :: ranges) Hv Hfps Hstop).
    eexists. split; [done|]. simpl. split; [done|].
    intros H. assert (E : r :: ranges = []); [|done].
    apply Hnone. by split.
Qed.

Lemma process_video_clips_iff_motion_witness :
  exists clips,
    (process_video sample_batch Uniform.new_processor "c.mp4"
                   (0, 0, 100, 100) None).2 = Ok clips /\
    (clips = [] <->
     true ∉ sample_flags (0, 0, 100, 100) FRAME_SKIP
              (reset (motion_detector Uniform.new_processor)) 0 false
              (frames
                 (Uniform.video_of 10 5
                    [Uniform.image 0; Uniform.image 0; Uniform.image 200;
                     Uniform.image 200; Uniform.image 200]))).
Proof.
  apply (process_video_clips_iff_motion sample_batch Uniform.new_processor
           "c.mp4" (0, 0, 100, 100)).
  - vm_compute. reflexivity.
  - reflexivity.
  - reflexivity.
Defined.
